(** * Protomatter core: a shallow embedding of [core.c]

    The device-neutral refresh engine for HUB75 RGB LED matrices.  The C
    functions of [core.c] are rendered as Rocq functions over a record
    [Protomatter_core]; fixed-width integers are [Z] values with the
    wrap-around written out, calls into the architecture layer ([arch.h])
    are recorded as a list of [event]s, and the architecture's macros are
    the fields of a record [Arch]. *)

From Stdlib Require Import ZArith List Bool Lia.
From Stdlib Require Import Floats.PrimFloat Floats.FloatOps Floats.SpecFloat.
From Stdlib Require Import Numbers.Cyclic.Int63.Uint63.
Import ListNotations.
Open Scope Z_scope.

(** ** Fixed-width integers *)

Definition u8 (x : Z) : Z := x mod 2 ^ 8.
Definition u16 (x : Z) : Z := x mod 2 ^ 16.
Definition u32 (x : Z) : Z := x mod 2 ^ 32.

Definition INT_MAX : Z := 2 ^ 31 - 1.

(** ** Outcomes of C code

    [Undef] marks behaviour the C standard leaves undefined (division by
    zero, a shift count that is too large, signed overflow, a conversion
    out of range); [Diverge] marks a loop that does not end. *)

Inductive result (A : Type) : Type :=
| Ret (a : A)
| Undef
| Diverge.
Arguments Ret {A} a.
Arguments Undef {A}.
Arguments Diverge {A}.

Definition bind {A B : Type} (m : result A) (k : A -> result B) : result B :=
  match m with
  | Ret a => k a
  | Undef => Undef
  | Diverge => Diverge
  end.

Notation "x <- m ;; k" := (bind m (fun x => k))
  (at level 61, m at next level, right associativity).

(** [a << n] on [int]: the count must be below the width and the result
    must be representable. *)
Definition shl_int (a n : Z) : result Z :=
  if (0 <=? n) && (n <? 32) && (0 <=? a) && (a * 2 ^ n <=? INT_MAX)
  then Ret (a * 2 ^ n) else Undef.

(** [a << n] on [uint32_t]: the count must be below the width; the result
    is reduced modulo [2^32]. *)
Definition shl_u32 (a n : Z) : result Z :=
  if (0 <=? n) && (n <? 32) then Ret (u32 (a * 2 ^ n)) else Undef.

(** Unsigned division. *)
Definition udiv (a b : Z) : result Z :=
  if b =? 0 then Undef else Ret (a / b).

(** A product computed in [int]. *)
Definition mul_int (a b : Z) : result Z :=
  if a * b <=? INT_MAX then Ret (a * b) else Undef.

(** ** Pointers and the allocator

    A pointer is an address; [NULL] is 0.  The heap is a bump allocator
    with a byte budget: a request that exceeds the budget fails with
    [NULL]. *)

Definition NULL : Z := 0.

Record heap : Type := {
  live : list (Z * Z);      (* base address and size of every live block *)
  brk : positive;           (* next fresh address *)
  avail : Z                 (* bytes left *)
}.

Definition _PM_ALLOCATOR (h : heap) (n : Z) : Z * heap :=
  if n <=? avail h then
    (Z.pos (brk h),
     {| live := (Z.pos (brk h), n) :: live h;
        brk := brk h + Z.to_pos (Z.max n 1);
        avail := avail h - n |})
  else (NULL, h).

Definition block_size (h : heap) (p : Z) : Z :=
  fold_right (fun b acc => if fst b =? p then snd b + acc else acc) 0 (live h).

Definition _PM_FREE (h : heap) (p : Z) : heap :=
  {| live := filter (fun b => negb (fst b =? p)) (live h);
     brk := brk h;
     avail := avail h + block_size h p |}.

Definition is_live (h : heap) (p : Z) : bool :=
  existsb (fun b => fst b =? p) (live h).

(** An array in memory: the pointer the C code holds and the elements it
    points to.  The elements are what a read through a good pointer
    yields; a function that reads through the pointer without testing it
    ([_PM_stop]) is undefined when the pointer is [NULL].  A read past the
    end yields the default element. *)
Record array (A : Type) : Type := {
  base : Z;
  elems : list A
}.
Arguments base {A} a.
Arguments elems {A} a.

Definition get {A : Type} (d : A) (a : array A) (i : Z) : A :=
  nth (Z.to_nat i) (elems a) d.

(** ** The architecture layer ([arch.h], not part of [core.c]) *)

Record Arch : Type := {
  _PM_portOutRegister : Z -> Z;
  _PM_portSetRegister : Z -> Z;
  _PM_portClearRegister : Z -> Z;
  (* [None] when the macro is not defined: no bit-toggle register *)
  _PM_portToggleRegister : option (Z -> Z);
  _PM_portBitMask : Z -> Z;
  _PM_byteOffset : Z -> Z;
  _PM_wordOffset : Z -> Z;
  _PM_STRICT_32BIT_IO : bool;
  _PM_chunkSize : positive;
  _PM_timerFreq : Z;
  _PM_minMinPeriod : Z;
  _PM_TIMER_DEFAULT : option Z;
  (* [pow] of the C math library, on doubles *)
  pow : float -> float -> float
}.

Definition has_toggle (A : Arch) : bool :=
  match _PM_portToggleRegister A with Some _ => true | None => false end.

Definition toggle_register (A : Arch) (pin : Z) : Z :=
  match _PM_portToggleRegister A with Some f => f pin | None => NULL end.

Definition chunkSize (A : Arch) : Z := Z.pos (_PM_chunkSize A).

(** Calls into the architecture layer and writes to memory-mapped
    registers, in program order. *)
Inductive event : Type :=
| RegWrite (reg bits : Z)
| PinOutput (pin : Z)
| PinHigh (pin : Z)
| PinLow (pin : Z)
| ClockHoldHigh
| ClockHoldLow
| DelayMicroseconds (us : Z)
| TimerInit (t : Z)
| TimerStart (t : Z) (ticks : result Z)
| TimerStop (t : Z)
| Malloc (n p : Z)
| Free (p : Z)
| Fill (p value count width : Z)
| Blast (width chunks src : Z).

(** ** [core.h]: status codes and structures

    [core.h] is not among the sources; the fields below are the ones
    [core.c] reads and writes, each as wide as the values [core.c] stores
    in it ([uint8_t] cursor and counts, [uint16_t] width, [uint32_t]
    periods, sizes and frame counter). *)

Inductive ProtomatterStatus : Type :=
| PROTOMATTER_OK
| PROTOMATTER_ERR_PINS
| PROTOMATTER_ERR_MALLOC
| PROTOMATTER_ERR_ARG.

Record _PM_pin : Type := {
  pin_setReg : Z;
  pin_clearReg : Z;
  pin_bit : Z;
  pin_pin : Z
}.

Definition _PM_setReg (x : _PM_pin) : event := RegWrite (pin_setReg x) (pin_bit x).
Definition _PM_clearReg (x : _PM_pin) : event := RegWrite (pin_clearReg x) (pin_bit x).

Record Protomatter_core : Type := {
  timer : Z;
  setReg : Z;
  clearReg : Z;
  toggleReg : Z;
  rgbPins : array Z;
  rgbMask : array Z;
  clockMask : Z;
  rgbAndClockMask : Z;
  addrPortToggle : Z;
  screenData : Z;
  latch : _PM_pin;
  oe : _PM_pin;
  addr : array _PM_pin;
  bufferSize : Z;
  bitZeroPeriod : Z;
  minPeriod : Z;
  frameCount : Z;
  width : Z;
  bytesPerElement : Z;
  clockPin : Z;
  parallel : Z;
  numAddressLines : Z;
  portOffset : Z;
  numPlanes : Z;
  numRowPairs : Z;
  doubleBuffer : bool;
  singleAddrPort : bool;
  activeBuffer : Z;
  row : Z;
  prevRow : Z;
  plane : Z;
  swapBuffers : bool;
  remap_rb : list Z;
  remap_g : list Z
}.

Definition _PM_MAX_REFRESH_HZ : Z := 250.
Definition _PM_ROW_DELAY : Z := 8.

Definition no_pin : _PM_pin :=
  {| pin_setReg := NULL; pin_clearReg := NULL; pin_bit := 0; pin_pin := 0 |}.

(** ** The interrupt handler, [_PM_row_handler] *)

(** [for (uint8_t line = 0, bit = 1; line < numAddressLines; line++, bit <<= 1)]:
    the line numbers and, for each, the value of the 8-bit [bit]. *)
Definition address_lines (core : Protomatter_core) : list Z :=
  map Z.of_nat (seq 0 (Z.to_nat (numAddressLines core))).

Definition line_bit (line : Z) : Z := u8 (2 ^ line).

(** Row address update when all address lines share one port with a
    toggle register: one write of the changed bits. *)
Definition address_toggle (core : Protomatter_core) : list event :=
  let newBits :=
    fold_left (fun acc line =>
                 if Z.land (row core) (line_bit line) =? 0 then acc
                 else Z.lor acc (pin_bit (get no_pin (addr core) line)))
              (address_lines core) 0 in
  let priorBits :=
    fold_left (fun acc line =>
                 if Z.land (prevRow core) (line_bit line) =? 0 then acc
                 else Z.lor acc (pin_bit (get no_pin (addr core) line)))
              (address_lines core) 0 in
  [RegWrite (addrPortToggle core) (Z.lxor newBits priorBits);
   DelayMicroseconds _PM_ROW_DELAY].

(** Row address update line by line, with a delay after each change. *)
Definition address_per_line (core : Protomatter_core) : list event :=
  flat_map (fun line =>
              let bit := line_bit line in
              if Z.land (row core) bit =? Z.land (prevRow core) bit then []
              else [if Z.land (row core) bit =? 0
                    then _PM_clearReg (get no_pin (addr core) line)
                    else _PM_setReg (get no_pin (addr core) line);
                    DelayMicroseconds _PM_ROW_DELAY])
           (address_lines core).

Definition address_update (A : Arch) (core : Protomatter_core) : list event :=
  if has_toggle A && singleAddrPort core
  then address_toggle core
  else address_per_line core.

(** The filtered bit-zero period: [((bitZeroPeriod * 7) + elapsed) / 8] in
    [uint32_t], not below [minPeriod]. *)
Definition filtered_period (core : Protomatter_core) (elapsed : Z) : Z :=
  let b := u32 (u32 (bitZeroPeriod core * 7) + elapsed) / 8 in
  if b <? minPeriod core then minPeriod core else b.

(** [(width + (_PM_chunkSize - 1)) / _PM_chunkSize], computed in [int]. *)
Definition chunk_count (A : Arch) (core : Protomatter_core) : Z :=
  (width core + (chunkSize A - 1)) / chunkSize A.

Definition _PM_row_handler (A : Arch) (core : Protomatter_core) (elapsed : Z)
  : Protomatter_core * list event :=
  let prevPlane := plane core in
  (* adaptive bit-zero period *)
  let bitZeroPeriod' :=
    if (prevPlane =? 1) || (numPlanes core =? 1)
    then filtered_period core elapsed
    else bitZeroPeriod core in
  (* row address lines *)
  let addr_events := if prevPlane =? 0 then address_update A core else [] in
  let prevRow' := if prevPlane =? 0 then row core else prevRow core in
  (* advance bitplane index and/or row *)
  let plane1 := u8 (plane core + 1) in
  let plane_wraps := numPlanes core <=? plane1 in
  let row1 := u8 (row core + 1) in
  let row_wraps := plane_wraps && (numRowPairs core <=? row1) in
  let plane' := if plane_wraps then 0 else plane1 in
  let row' := if plane_wraps then (if row_wraps then 0 else row1) else row core in
  let activeBuffer' :=
    if row_wraps && swapBuffers core
    then u8 (1 - activeBuffer core) else activeBuffer core in
  let swapBuffers' := if row_wraps then false else swapBuffers core in
  let frameCount' :=
    if row_wraps then u32 (frameCount core + 1) else frameCount core in
  (* source of the plane to issue *)
  let elementsPerLine := u32 (chunkSize A * chunk_count A core) in
  let srcOffset :=
    u32 (elementsPerLine * (numPlanes core * row' + plane') * bytesPerElement core) in
  let srcOffset' :=
    if doubleBuffer core
    then u32 (srcOffset + bufferSize core * activeBuffer')
    else srcOffset in
  ({| timer := timer core;
      setReg := setReg core;
      clearReg := clearReg core;
      toggleReg := toggleReg core;
      rgbPins := rgbPins core;
      rgbMask := rgbMask core;
      clockMask := clockMask core;
      rgbAndClockMask := rgbAndClockMask core;
      addrPortToggle := addrPortToggle core;
      screenData := screenData core;
      latch := latch core;
      oe := oe core;
      addr := addr core;
      bufferSize := bufferSize core;
      bitZeroPeriod := bitZeroPeriod';
      minPeriod := minPeriod core;
      frameCount := frameCount';
      width := width core;
      bytesPerElement := bytesPerElement core;
      clockPin := clockPin core;
      parallel := parallel core;
      numAddressLines := numAddressLines core;
      portOffset := portOffset core;
      numPlanes := numPlanes core;
      numRowPairs := numRowPairs core;
      doubleBuffer := doubleBuffer core;
      singleAddrPort := singleAddrPort core;
      activeBuffer := activeBuffer';
      row := row';
      prevRow := prevRow';
      plane := plane';
      swapBuffers := swapBuffers';
      remap_rb := remap_rb core;
      remap_g := remap_g core |},
   [_PM_setReg (oe core);
    _PM_clearReg (latch core);
    _PM_setReg (latch core);
    TimerStop (timer core);
    _PM_clearReg (latch core)]
   ++ addr_events
   ++ [TimerStart (timer core) (shl_u32 bitZeroPeriod' prevPlane);
       DelayMicroseconds 1;
       _PM_clearReg (oe core);
       Blast (bytesPerElement core) (u8 (chunk_count A core))
             (screenData core + srcOffset')]).

(** [n] runs of the handler, one measured [elapsed] value per run. *)
Fixpoint run_handler (A : Arch) (core : Protomatter_core) (elapsed : list Z)
  : Protomatter_core :=
  match elapsed with
  | [] => core
  | e :: es => run_handler A (fst (_PM_row_handler A core e)) es
  end.

(** The timer interval armed by one run of the handler. *)
Definition armed_ticks (tr : list event) : list (result Z) :=
  flat_map (fun ev => match ev with TimerStart _ t => [t] | _ => [] end) tr.

(** ** [_PM_resume], [_PM_stop], [_PM_free], [_PM_getFrameCount] *)

Definition _PM_resume (core : option Protomatter_core)
  : option Protomatter_core * list event :=
  match core with
  | None => (None, [])
  | Some core =>
    let plane' := u8 (numPlanes core - 1) in
    let row' := u8 (numRowPairs core - 1) in
    (Some {| timer := timer core;
             setReg := setReg core;
             clearReg := clearReg core;
             toggleReg := toggleReg core;
             rgbPins := rgbPins core;
             rgbMask := rgbMask core;
             clockMask := clockMask core;
             rgbAndClockMask := rgbAndClockMask core;
             addrPortToggle := addrPortToggle core;
             screenData := screenData core;
             latch := latch core;
             oe := oe core;
             addr := addr core;
             bufferSize := bufferSize core;
             bitZeroPeriod := bitZeroPeriod core;
             minPeriod := minPeriod core;
             frameCount := 0;
             width := width core;
             bytesPerElement := bytesPerElement core;
             clockPin := clockPin core;
             parallel := parallel core;
             numAddressLines := numAddressLines core;
             portOffset := portOffset core;
             numPlanes := numPlanes core;
             numRowPairs := numRowPairs core;
             doubleBuffer := doubleBuffer core;
             singleAddrPort := singleAddrPort core;
             activeBuffer := activeBuffer core;
             row := row';
             prevRow := if 1 <? numRowPairs core then u8 (row' - 1) else 1;
             plane := plane';
             swapBuffers := false;
             remap_rb := remap_rb core;
             remap_g := remap_g core |},
     [TimerInit (timer core); TimerStart (timer core) (Ret 1000)])
  end.

(** [for (uint8_t i = 0; i < core->parallel * 6; i++)]: the indices; the
    8-bit counter never reaches a bound above 255. *)
Definition rgb_indices (core : Protomatter_core) : result (list Z) :=
  if 255 <? parallel core * 6 then Diverge
  else Ret (map Z.of_nat (seq 0 (Z.to_nat (parallel core * 6)))).

(** [_PM_setReg] and [_PM_clearReg] store through the register pointers of
    a pin structure.  [_PM_init] sets only the pin number of [latch] and
    [oe]; the pointers are stored by [_PM_begin], after its last error
    return, from the registers the architecture gives for the pin.  A
    store through a pointer that is not the pin's register is undefined. *)
Definition set_bound (A : Arch) (x : _PM_pin) : bool :=
  pin_setReg x =? _PM_portSetRegister A (pin_pin x).

Definition clear_bound (A : Arch) (x : _PM_pin) : bool :=
  pin_clearReg x =? _PM_portClearRegister A (pin_pin x).

(** [while (core->swapBuffers);] ends only once the flag is clear; the
    handler is what clears it, and it does not run inside this model.
    The pin loop reads [core->rgbPins[i]] without testing the pointer,
    which [_PM_free] and a failed [_PM_init] leave [NULL]. *)
Definition _PM_stop (A : Arch) (core : option Protomatter_core)
  : result (list event) :=
  match core with
  | None => Ret []
  | Some core =>
    if swapBuffers core then Diverge
    else if negb (set_bound A (oe core)) then Undef
    else if (0 <? parallel core * 6) && (base (rgbPins core) =? NULL)
    then Undef
    else
      idx <- rgb_indices core ;;
      if negb (set_bound A (latch core) && clear_bound A (latch core))
      then Undef
      else
        Ret ([TimerStop (timer core); _PM_setReg (oe core)]
             ++ map (fun i => PinLow (get 0 (rgbPins core) i)) idx
             ++ concat (repeat [PinHigh (clockPin core); ClockHoldHigh;
                                PinLow (clockPin core); ClockHoldLow]
                               (Z.to_nat (width core)))
             ++ [_PM_setReg (latch core); _PM_clearReg (latch core)])
  end.

Definition _PM_free (A : Arch) (core : option Protomatter_core) (h : heap)
  : result (option Protomatter_core * heap * list event) :=
  match core with
  | None => Ret (None, h, [])
  | Some core =>
    stopped <- _PM_stop A (Some core) ;;
    let '(h1, ev1) :=
      if screenData core =? NULL then (h, [])
      else (_PM_FREE h (screenData core), [Free (screenData core)]) in
    let '(h2, ev2) :=
      if base (addr core) =? NULL then (h1, [])
      else (_PM_FREE h1 (base (addr core)), [Free (base (addr core))]) in
    let '(h3, ev3, rgbPins') :=
      if base (rgbPins core) =? NULL then (h2, [], rgbPins core)
      else (_PM_FREE h2 (base (rgbPins core)), [Free (base (rgbPins core))],
            {| base := NULL; elems := elems (rgbPins core) |}) in
    Ret (Some {| timer := timer core;
                 setReg := setReg core;
                 clearReg := clearReg core;
                 toggleReg := toggleReg core;
                 rgbPins := rgbPins';
                 rgbMask := rgbMask core;
                 clockMask := clockMask core;
                 rgbAndClockMask := rgbAndClockMask core;
                 addrPortToggle := addrPortToggle core;
                 screenData := screenData core;
                 latch := latch core;
                 oe := oe core;
                 addr := addr core;
                 bufferSize := bufferSize core;
                 bitZeroPeriod := bitZeroPeriod core;
                 minPeriod := minPeriod core;
                 frameCount := frameCount core;
                 width := width core;
                 bytesPerElement := bytesPerElement core;
                 clockPin := clockPin core;
                 parallel := parallel core;
                 numAddressLines := numAddressLines core;
                 portOffset := portOffset core;
                 numPlanes := numPlanes core;
                 numRowPairs := numRowPairs core;
                 doubleBuffer := doubleBuffer core;
                 singleAddrPort := singleAddrPort core;
                 activeBuffer := activeBuffer core;
                 row := row core;
                 prevRow := prevRow core;
                 plane := plane core;
                 swapBuffers := swapBuffers core;
                 remap_rb := remap_rb core;
                 remap_g := remap_g core |},
         h3, stopped ++ ev1 ++ ev2 ++ ev3)
  end.

Definition _PM_getFrameCount (core : option Protomatter_core)
  : Z * option Protomatter_core :=
  match core with
  | None => (0, None)
  | Some core =>
    (frameCount core,
     Some {| timer := timer core;
             setReg := setReg core;
             clearReg := clearReg core;
             toggleReg := toggleReg core;
             rgbPins := rgbPins core;
             rgbMask := rgbMask core;
             clockMask := clockMask core;
             rgbAndClockMask := rgbAndClockMask core;
             addrPortToggle := addrPortToggle core;
             screenData := screenData core;
             latch := latch core;
             oe := oe core;
             addr := addr core;
             bufferSize := bufferSize core;
             bitZeroPeriod := bitZeroPeriod core;
             minPeriod := minPeriod core;
             frameCount := 0;
             width := width core;
             bytesPerElement := bytesPerElement core;
             clockPin := clockPin core;
             parallel := parallel core;
             numAddressLines := numAddressLines core;
             portOffset := portOffset core;
             numPlanes := numPlanes core;
             numRowPairs := numRowPairs core;
             doubleBuffer := doubleBuffer core;
             singleAddrPort := singleAddrPort core;
             activeBuffer := activeBuffer core;
             row := row core;
             prevRow := prevRow core;
             plane := plane core;
             swapBuffers := swapBuffers core;
             remap_rb := remap_rb core;
             remap_g := remap_g core |})
  end.

(** ** [_PM_init] *)

(** [sizeof(_PM_pin)] on a 32-bit target: two pointers, a 32-bit mask and
    the pin number, padded. *)
Definition sizeof_PM_pin : Z := 16.

(** [n] elements read from the caller's table. *)
Definition copy_table (n : Z) (table : list Z) : list Z :=
  map (fun i => u8 (nth i table 0)) (seq 0 (Z.to_nat n)).

Definition _PM_init (A : Arch) (core : option Protomatter_core)
    (bitWidth bitDepth rgbCount : Z) (rgbList : list Z)
    (addrCount : Z) (addrList : list Z)
    (clockPin latchPin oePin : Z) (doubleBuffer : bool) (timer : Z) (h : heap)
  : ProtomatterStatus * option Protomatter_core * heap * list event :=
  match core with
  | None => (PROTOMATTER_ERR_ARG, None, h, [])
  | Some core =>
    let rgbCount := if 5 <? u8 rgbCount then 5 else u8 rgbCount in
    let addrCount := if 5 <? u8 addrCount then 5 else u8 addrCount in
    match (if timer =? NULL then _PM_TIMER_DEFAULT A else Some timer) with
    | None => (PROTOMATTER_ERR_ARG, Some core, h, [])
    | Some timer =>
      let pinCount := u8 (rgbCount * 6) in
      let '(p1, h1) := _PM_ALLOCATOR h (pinCount * 1) in
      let '(p2, h2) :=
        if p1 =? NULL then (NULL, h1)
        else _PM_ALLOCATOR h1 (addrCount * sizeof_PM_pin) in
      let ok := negb (p1 =? NULL) && negb (p2 =? NULL) in
      let h3 := if negb (p1 =? NULL) && (p2 =? NULL) then _PM_FREE h2 p1 else h2 in
      let ev :=
        [Malloc (pinCount * 1) p1]
        ++ (if p1 =? NULL then []
            else Malloc (addrCount * sizeof_PM_pin) p2
                 :: (if p2 =? NULL then [Free p1] else [])) in
      (if ok then PROTOMATTER_OK else PROTOMATTER_ERR_MALLOC,
       Some {| timer := timer;
               setReg := setReg core;
               clearReg := clearReg core;
               toggleReg := toggleReg core;
               rgbPins :=
                 if ok then {| base := p1; elems := copy_table pinCount rgbList |}
                 else {| base := NULL; elems := [] |};
               rgbMask := rgbMask core;
               clockMask := clockMask core;
               rgbAndClockMask := rgbAndClockMask core;
               addrPortToggle := addrPortToggle core;
               screenData := NULL;
               latch := {| pin_setReg := pin_setReg (latch core);
                           pin_clearReg := pin_clearReg (latch core);
                           pin_bit := pin_bit (latch core);
                           pin_pin := u8 latchPin |};
               oe := {| pin_setReg := pin_setReg (oe core);
                        pin_clearReg := pin_clearReg (oe core);
                        pin_bit := pin_bit (oe core);
                        pin_pin := u8 oePin |};
               addr :=
                 if ok
                 then {| base := p2;
                         elems := map (fun pin => {| pin_setReg := NULL;
                                                     pin_clearReg := NULL;
                                                     pin_bit := 0;
                                                     pin_pin := pin |})
                                      (copy_table addrCount addrList) |}
                 else {| base := NULL; elems := [] |};
               bufferSize := bufferSize core;
               bitZeroPeriod := bitZeroPeriod core;
               minPeriod := minPeriod core;
               frameCount := frameCount core;
               width := u16 bitWidth;
               bytesPerElement := bytesPerElement core;
               clockPin := u8 clockPin;
               parallel := rgbCount;
               numAddressLines := addrCount;
               portOffset := portOffset core;
               numPlanes := u8 bitDepth;
               numRowPairs := numRowPairs core;
               doubleBuffer := doubleBuffer;
               singleAddrPort := singleAddrPort core;
               activeBuffer := activeBuffer core;
               row := row core;
               prevRow := prevRow core;
               plane := plane core;
               swapBuffers := swapBuffers core;
               remap_rb := remap_rb core;
               remap_g := remap_g core |},
       h3, ev)
    end
  end.

(** ** [_PM_begin] *)

Fixpoint mapM {X Y : Type} (f : X -> result Y) (l : list X) : result (list Y) :=
  match l with
  | [] => Ret []
  | x :: xs => y <- f x ;; ys <- mapM f xs ;; Ret (y :: ys)
  end.

(** The pin loop: [None] as soon as an RGB pin is on another port than the
    clock pin, else the union of the pins' bit masks (with the clock's
    when there is a toggle register). *)
Definition bitMask_of_pins (A : Arch) (core : Protomatter_core) (idx : list Z)
  : option Z :=
  fold_left
    (fun acc i =>
       match acc with
       | None => None
       | Some bitMask =>
         let pin := get 0 (rgbPins core) i in
         if _PM_portOutRegister A pin =? _PM_portOutRegister A (clockPin core)
         then Some (Z.lor bitMask (u32 (_PM_portBitMask A pin)))
         else None
       end)
    idx
    (Some (if has_toggle A then u32 (_PM_portBitMask A (clockPin core)) else 0)).

(** Which bytes of the 32-bit PORT the mask touches. *)
Definition byteMask_of (bitMask : Z) : Z :=
  let byteMask := 0 in
  let byteMask :=
    if Z.land bitMask 0xFF000000 =? 0 then byteMask else Z.lor byteMask 8 in
  let byteMask :=
    if Z.land bitMask 0x00FF0000 =? 0 then byteMask else Z.lor byteMask 4 in
  let byteMask :=
    if Z.land bitMask 0x0000FF00 =? 0 then byteMask else Z.lor byteMask 2 in
  let byteMask :=
    if Z.land bitMask 0x000000FF =? 0 then byteMask else Z.lor byteMask 1 in
  byteMask.

(** The [switch (byteMask)]. *)
Definition bytesPerElement_of (byteMask : Z) : Z :=
  match byteMask with
  | 1 | 2 | 4 | 8 => 1 (* all PORT bits in the same byte *)
  | 3 | 12 => 2        (* all PORT bits in upper/lower word *)
  | _ => 4             (* any other situation *)
  end.

(** Clock and RGB masks, the mask table and the initial fill of the
    matrix buffers, for each element width. *)
Record mask_plan : Type := {
  mp_portOffset : Z;
  mp_clockMask : Z;
  mp_rgbAndClockMask : Z;
  mp_rgbMask : list Z;
  mp_fill : list event
}.

Definition plan_masks (A : Arch) (core : Protomatter_core)
    (bitMask bpe screenData screenBytes : Z) (idx : list Z) : mask_plan :=
  let clockBit := u32 (_PM_portBitMask A (clockPin core)) in
  let pinBit := fun i => u32 (_PM_portBitMask A (get 0 (rgbPins core) i)) in
  let narrow := has_toggle A && negb (_PM_STRICT_32BIT_IO A) in
  if bpe =? 1 then
    let portOffset := u8 (_PM_byteOffset A (get 0 (rgbPins core) 0)) in
    let clockMask :=
      if narrow then Z.shiftr clockBit (portOffset * 8) else clockBit in
    {| mp_portOffset := portOffset;
       mp_clockMask := clockMask;
       mp_rgbAndClockMask :=
         if narrow then Z.lor (Z.shiftr bitMask (portOffset * 8)) clockMask
         else Z.lor bitMask clockMask;
       mp_rgbMask := map (fun i => u8 (Z.shiftr (pinBit i) (portOffset * 8))) idx;
       mp_fill :=
         if narrow then [Fill screenData (u8 clockMask) screenBytes 1] else [] |}
  else if bpe =? 2 then
    let portOffset := u8 (_PM_wordOffset A (get 0 (rgbPins core) 0)) in
    let clockMask :=
      if narrow then Z.shiftr clockBit (portOffset * 16) else clockBit in
    {| mp_portOffset := portOffset;
       mp_clockMask := clockMask;
       mp_rgbAndClockMask :=
         if narrow then Z.lor (Z.shiftr bitMask (portOffset * 16)) clockMask
         else Z.lor bitMask clockMask;
       mp_rgbMask := map (fun i => u16 (Z.shiftr (pinBit i) (portOffset * 16))) idx;
       mp_fill :=
         if narrow then [Fill screenData (u16 clockMask) (screenBytes / 2) 2]
         else if has_toggle A
              then [Fill screenData (u16 (Z.shiftr clockMask (portOffset * 16)))
                         (screenBytes / 2) 2]
              else [] |}
  else
    {| mp_portOffset := 0;
       mp_clockMask := clockBit;
       mp_rgbAndClockMask := Z.lor bitMask clockBit;
       mp_rgbMask := map pinBit idx;
       mp_fill :=
         if has_toggle A then [Fill screenData clockBit (screenBytes / 4) 4]
         else [] |}.

(** *** Remap tables *)

(** [(float)z]: rounded to binary32, held as a double. *)
Definition float_of_int (z : Z) : float :=
  SF2Prim (binary_normalize 24 128 z 0 false).

(** [(uint16_t)x]: the fraction is dropped; the integral part must be
    representable. *)
Definition uint16_of_double (x : float) : result Z :=
  match Prim2SF x with
  | S754_zero _ => Ret 0
  | S754_finite s m e =>
    let mag := if 0 <=? e then Z.pos m * 2 ^ e else Z.pos m / 2 ^ (- e) in
    if s then (if mag =? 0 then Ret 0 else Undef)
    else if mag <=? 65535 then Ret mag else Undef
  | _ => Undef
  end.

(** [_PM_GAMMA], the double nearest to 2.6. *)
Definition _PM_GAMMA : float := 0x1.4cccccccccccdp+1%float.

Definition gamma_entry (A : Arch) (top : float) (full : float) (i : Z)
  : result Z :=
  uint16_of_double
    (PrimFloat.add
       (PrimFloat.mul (pow A (PrimFloat.div (float_of_int i) full) _PM_GAMMA) top)
       0.5%float).

Definition color_indices (n : nat) : list Z := map Z.of_nat (seq 0 n).

Definition remap_tables (A : Arch) (numPlanes : Z) : result (list Z * list Z) :=
  if numPlanes <? 6 then
    Ret (map (fun i => Z.shiftr i (u8 (5 - numPlanes))) (color_indices 32),
         map (fun i => Z.shiftr i (u8 (6 - numPlanes))) (color_indices 64))
  else if numPlanes =? 6 then
    Ret (map (fun i => Z.lor (Z.shiftl i 1) (Z.shiftr i 4)) (color_indices 32),
         map (fun i => i) (color_indices 64))
  else
    full <- shl_int 1 numPlanes ;;
    let top := float_of_int (full - 1) in
    rb <- mapM (gamma_entry A top 31%float) (color_indices 32) ;;
    g <- mapM (gamma_entry A top 63%float) (color_indices 64) ;;
    Ret (rb, g).

(** *** Minimum bitplane #0 period *)

Definition min_period (A : Arch) (numRowPairs numPlanes : Z) : result Z :=
  let minPeriodPerFrame := u32 (_PM_timerFreq A / _PM_MAX_REFRESH_HZ) in
  minPeriodPerLine <- udiv minPeriodPerFrame numRowPairs ;;
  full <- shl_int 1 numPlanes ;;
  minPeriod <- udiv minPeriodPerLine (full - 1) ;;
  Ret (if minPeriod <? u32 (_PM_minMinPeriod A)
       then u32 (_PM_minMinPeriod A) else minPeriod).

(** *** Screen data planning *)

Record screen_plan : Type := {
  sp_bytesPerElement : Z;
  sp_numRowPairs : Z;
  sp_columns : Z;
  sp_bufferSize : Z;
  sp_screenBytes : Z;
  sp_rgbMaskBytes : Z
}.

Definition plan_screen (A : Arch) (core : Protomatter_core) (bitMask : Z)
  : result screen_plan :=
  let bpe := bytesPerElement_of (byteMask_of bitMask) in
  full <- shl_int 1 (numAddressLines core) ;;
  let numRowPairs := u8 full in
  let chunks := u8 (chunk_count A core) in
  let columns := u16 (chunks * chunkSize A) in
  p1 <- mul_int columns numRowPairs ;;
  p2 <- mul_int p1 (numPlanes core) ;;
  screenBytes <- mul_int p2 bpe ;;
  Ret {| sp_bytesPerElement := bpe;
         sp_numRowPairs := numRowPairs;
         sp_columns := columns;
         sp_bufferSize := screenBytes;
         sp_screenBytes :=
           if doubleBuffer core then u32 (screenBytes * 2) else screenBytes;
         sp_rgbMaskBytes := parallel core * 6 * bpe |}.

(** *** The function *)

(** The first pin loop with its 8-bit counter: with more than 255 pins the
    counter wraps and the loop can only leave through [ERR_PINS]. *)
Definition scan_pins (A : Arch) (core : Protomatter_core) : result (option Z) :=
  if 255 <? parallel core * 6 then
    match bitMask_of_pins A core (map Z.of_nat (seq 0 256)) with
    | None => Ret None
    | Some _ => Diverge
    end
  else idx <- rgb_indices core ;; Ret (bitMask_of_pins A core idx).

Definition bind_pin (A : Arch) (pin : Z) : _PM_pin :=
  {| pin_setReg := _PM_portSetRegister A pin;
     pin_clearReg := _PM_portClearRegister A pin;
     pin_bit := u32 (_PM_portBitMask A pin);
     pin_pin := pin |}.

Definition _PM_begin (A : Arch) (core : option Protomatter_core) (h : heap)
  : result (ProtomatterStatus * option Protomatter_core * heap * list event) :=
  match core with
  | None => Ret (PROTOMATTER_ERR_ARG, None, h, [])
  | Some core =>
    if base (rgbPins core) =? NULL
    then Ret (PROTOMATTER_ERR_MALLOC, Some core, h, [])
    else
      scanned <- scan_pins A core ;;
      match scanned with
      | None => Ret (PROTOMATTER_ERR_PINS, Some core, h, [])
      | Some bitMask =>
        idx <- rgb_indices core ;;
        sp <- plan_screen A core bitMask ;;
        let size := u32 (sp_screenBytes sp + sp_rgbMaskBytes sp) in
        let '(p, h1) := _PM_ALLOCATOR h size in
        if p =? NULL then
          Ret (PROTOMATTER_ERR_MALLOC,
               Some {| timer := timer core;
                       setReg := setReg core;
                       clearReg := clearReg core;
                       toggleReg := toggleReg core;
                       rgbPins := rgbPins core;
                       rgbMask := rgbMask core;
                       clockMask := clockMask core;
                       rgbAndClockMask := rgbAndClockMask core;
                       addrPortToggle := addrPortToggle core;
                       screenData := NULL;
                       latch := latch core;
                       oe := oe core;
                       addr := addr core;
                       bufferSize := sp_bufferSize sp;
                       bitZeroPeriod := bitZeroPeriod core;
                       minPeriod := minPeriod core;
                       frameCount := frameCount core;
                       width := width core;
                       bytesPerElement := sp_bytesPerElement sp;
                       clockPin := clockPin core;
                       parallel := parallel core;
                       numAddressLines := numAddressLines core;
                       portOffset := portOffset core;
                       numPlanes := numPlanes core;
                       numRowPairs := sp_numRowPairs sp;
                       doubleBuffer := doubleBuffer core;
                       singleAddrPort := singleAddrPort core;
                       activeBuffer := activeBuffer core;
                       row := row core;
                       prevRow := prevRow core;
                       plane := plane core;
                       swapBuffers := swapBuffers core;
                       remap_rb := remap_rb core;
                       remap_g := remap_g core |},
               h1, [Malloc size p])
        else
          let mp := plan_masks A core bitMask (sp_bytesPerElement sp) p
                               (sp_screenBytes sp) idx in
          tables <- remap_tables A (numPlanes core) ;;
          minPeriod' <- min_period A (sp_numRowPairs sp) (numPlanes core) ;;
          full <- shl_int 1 (numAddressLines core) ;;
          let prevRow' := u8 (full - 2) in
          let latch' := bind_pin A (pin_pin (latch core)) in
          let oe' := bind_pin A (pin_pin (oe core)) in
          let lines := address_lines core in
          let addrPortToggle' :=
            if has_toggle A
            then toggle_register A (pin_pin (get no_pin (addr core) 0))
            else addrPortToggle core in
          let singleAddrPort' :=
            if has_toggle A
            then forallb (fun line =>
                            toggle_register A (pin_pin (get no_pin (addr core) line))
                            =? addrPortToggle')
                         lines
            else singleAddrPort core in
          let addr' :=
            {| base := base (addr core);
               elems :=
                 map (fun line => bind_pin A (pin_pin (get no_pin (addr core) line)))
                     lines
                 ++ skipn (length lines) (elems (addr core)) |} in
          let '(resumed, ev_resume) :=
            _PM_resume
              (Some {| timer := timer core;
                       setReg := _PM_portSetRegister A (clockPin core);
                       clearReg := _PM_portClearRegister A (clockPin core);
                       toggleReg :=
                         if has_toggle A then toggle_register A (clockPin core)
                         else toggleReg core;
                       rgbPins := rgbPins core;
                       rgbMask := {| base := p + sp_screenBytes sp;
                                     elems := mp_rgbMask mp |};
                       clockMask := mp_clockMask mp;
                       rgbAndClockMask := mp_rgbAndClockMask mp;
                       addrPortToggle := addrPortToggle';
                       screenData := p;
                       latch := latch';
                       oe := oe';
                       addr := addr';
                       bufferSize := sp_bufferSize sp;
                       bitZeroPeriod := width core * 5;
                       minPeriod := minPeriod';
                       frameCount := frameCount core;
                       width := width core;
                       bytesPerElement := sp_bytesPerElement sp;
                       clockPin := clockPin core;
                       parallel := parallel core;
                       numAddressLines := numAddressLines core;
                       portOffset := mp_portOffset mp;
                       numPlanes := numPlanes core;
                       numRowPairs := sp_numRowPairs sp;
                       doubleBuffer := doubleBuffer core;
                       singleAddrPort := singleAddrPort';
                       activeBuffer := 0;
                       row := row core;
                       prevRow := prevRow';
                       plane := plane core;
                       swapBuffers := swapBuffers core;
                       remap_rb := fst tables;
                       remap_g := snd tables |}) in
          Ret (PROTOMATTER_OK, resumed, h1,
               [Malloc size p]
               ++ (if has_toggle A then []
                   else [Fill p 0 (sp_screenBytes sp) 1])
               ++ mp_fill mp
               ++ [PinOutput (clockPin core); PinLow (clockPin core);
                   PinOutput (pin_pin (latch core)); PinLow (pin_pin (latch core));
                   PinOutput (pin_pin (oe core)); PinHigh (pin_pin (oe core))]
               ++ flat_map (fun i => [PinOutput (get 0 (rgbPins core) i);
                                      PinLow (get 0 (rgbPins core) i)]) idx
               ++ flat_map (fun line =>
                              let pin := pin_pin (get no_pin (addr core) line) in
                              [PinOutput pin;
                               if Z.land prevRow' (line_bit line) =? 0
                               then PinLow pin else PinHigh pin])
                           lines
               ++ ev_resume)
      end
  end.

(** ** Predicates used in the statements *)

(** The cursor is inside the matrix: [plane] in [0, numPlanes), [row] in
    [0, numRowPairs). *)
Definition cursor_in_range (core : Protomatter_core) : Prop :=
  0 <= plane core < numPlanes core /\ 0 <= row core < numRowPairs core.

(** The counts and the frame counter fit their C types. *)
Definition counters_typed (core : Protomatter_core) : Prop :=
  numPlanes core <= 255 /\ numRowPairs core <= 255
  /\ 0 <= frameCount core < 2 ^ 32.

(** Position of the cursor in row-major order. *)
Definition cursor_index (core : Protomatter_core) : Z :=
  row core * numPlanes core + plane core.

(** All set bits of [m] are at positions [lo <= i < hi]. *)
Definition bits_within (lo hi m : Z) : Prop :=
  forall i, Z.testbit m i = true -> lo <= i < hi.

(** All set bits of [m] lie in one octet of the 32-bit port. *)
Definition single_octet (m : Z) : Prop :=
  exists k, 0 <= k < 4 /\ bits_within (8 * k) (8 * k + 8) m.

(** All set bits of [m] lie in the lower or in the upper half-word. *)
Definition single_halfword (m : Z) : Prop :=
  bits_within 0 16 m \/ bits_within 16 32 m.

(** The pointers handed to [_PM_FREE] in a trace. *)
Definition releases (tr : list event) : list Z :=
  flat_map (fun ev => match ev with Free p => [p] | _ => [] end) tr.

(** Every field but [rgbPins] is the same in [core'] as in [core]. *)
Definition only_rgbPins_differs (core core' : Protomatter_core) : Prop :=
  timer core' = timer core
  /\ setReg core' = setReg core
  /\ clearReg core' = clearReg core
  /\ toggleReg core' = toggleReg core
  /\ rgbMask core' = rgbMask core
  /\ clockMask core' = clockMask core
  /\ rgbAndClockMask core' = rgbAndClockMask core
  /\ addrPortToggle core' = addrPortToggle core
  /\ screenData core' = screenData core
  /\ latch core' = latch core
  /\ oe core' = oe core
  /\ addr core' = addr core
  /\ bufferSize core' = bufferSize core
  /\ bitZeroPeriod core' = bitZeroPeriod core
  /\ minPeriod core' = minPeriod core
  /\ frameCount core' = frameCount core
  /\ width core' = width core
  /\ bytesPerElement core' = bytesPerElement core
  /\ clockPin core' = clockPin core
  /\ parallel core' = parallel core
  /\ numAddressLines core' = numAddressLines core
  /\ portOffset core' = portOffset core
  /\ numPlanes core' = numPlanes core
  /\ numRowPairs core' = numRowPairs core
  /\ doubleBuffer core' = doubleBuffer core
  /\ singleAddrPort core' = singleAddrPort core
  /\ activeBuffer core' = activeBuffer core
  /\ row core' = row core
  /\ prevRow core' = prevRow core
  /\ plane core' = plane core
  /\ swapBuffers core' = swapBuffers core
  /\ remap_rb core' = remap_rb core
  /\ remap_g core' = remap_g core.

(** The state in which [_PM_stop] runs to its end: no swap pending, the
    8-bit pin loop bounded, the OE and latch structures bound, and a pin
    list to read unless there is no pin. *)
Definition stoppable (A : Arch) (core : Protomatter_core) : Prop :=
  swapBuffers core = false
  /\ parallel core * 6 <= 255
  /\ set_bound A (oe core) = true
  /\ set_bound A (latch core) = true
  /\ clear_bound A (latch core) = true
  /\ (base (rgbPins core) <> NULL \/ parallel core * 6 <= 0).




(** Octet [k] of the port, and whether [m] has a bit in it. *)
Definition octet_mask (k : Z) : Z := Z.shiftl 255 (8 * k).

Definition touched (m k : Z) : bool := negb (Z.land m (octet_mask k) =? 0).

(** ** A sample architecture

    Thirty-two pins to a port, a port's registers 0x80 apart, eight-way
    unrolled shift-out, a 48 MHz timer.  [pow] is a stand-in that is exact
    at 0 and at 1. *)

Definition sample_port (pin : Z) : Z := 0x41008000 + 0x80 * (pin / 32).

Definition sample_arch (toggle : bool) : Arch :=
  {| _PM_portOutRegister := fun pin => sample_port pin + 0x10;
     _PM_portSetRegister := fun pin => sample_port pin + 0x18;
     _PM_portClearRegister := fun pin => sample_port pin + 0x14;
     _PM_portToggleRegister :=
       if toggle then Some (fun pin => sample_port pin + 0x1C) else None;
     _PM_portBitMask := fun pin => 2 ^ (pin mod 32);
     _PM_byteOffset := fun pin => (pin mod 32) / 8;
     _PM_wordOffset := fun pin => (pin mod 32) / 16;
     _PM_STRICT_32BIT_IO := false;
     _PM_chunkSize := 8;
     _PM_timerFreq := 48000000;
     _PM_minMinPeriod := 160;
     _PM_TIMER_DEFAULT := Some 0x42001400;
     pow := fun x _ => PrimFloat.mul (PrimFloat.mul x x) (PrimFloat.sqrt x) |}.

(** A core structure before [_PM_init]: every field zero. *)
Definition blank_core : Protomatter_core :=
  {| timer := 0; setReg := 0; clearReg := 0; toggleReg := 0;
     rgbPins := {| base := NULL; elems := [] |};
     rgbMask := {| base := NULL; elems := [] |};
     clockMask := 0; rgbAndClockMask := 0; addrPortToggle := 0;
     screenData := NULL; latch := no_pin; oe := no_pin;
     addr := {| base := NULL; elems := [] |};
     bufferSize := 0; bitZeroPeriod := 0; minPeriod := 0; frameCount := 0;
     width := 0; bytesPerElement := 0; clockPin := 0; parallel := 0;
     numAddressLines := 0; portOffset := 0; numPlanes := 0; numRowPairs := 0;
     doubleBuffer := false; singleAddrPort := false; activeBuffer := 0;
     row := 0; prevRow := 0; plane := 0; swapBuffers := false;
     remap_rb := []; remap_g := [] |}.

(** A heap with 64 KiB free. *)
Definition sample_heap : heap :=
  {| live := []; brk := 0x20000000; avail := 65536 |}.

(** [_PM_init] then [_PM_begin] on the sample architecture: one chain of
    [bitWidth] columns, RGB pins 0..5 and address pins 16.. of port 0, the
    given clock pin, latch 14 and OE 15. *)
Definition sample_init (toggle : bool) (bitWidth bitDepth addrCount clockPin : Z)
    (doubleBuffer : bool)
  : ProtomatterStatus * option Protomatter_core * heap * list event :=
  _PM_init (sample_arch toggle) (Some blank_core) bitWidth bitDepth 1
           [0; 1; 2; 3; 4; 5] addrCount [16; 17; 18; 19; 20]
           clockPin 14 15 doubleBuffer NULL sample_heap.

Definition sample_begin (toggle : bool) (bitWidth bitDepth addrCount clockPin : Z)
    (doubleBuffer : bool)
  : result (ProtomatterStatus * option Protomatter_core * heap * list event) :=
  let '(_, core, h, _) :=
    sample_init toggle bitWidth bitDepth addrCount clockPin doubleBuffer in
  _PM_begin (sample_arch toggle) core h.

(** The core once [_PM_begin] has started the matrix. *)
Definition started_core (toggle : bool) (bitWidth bitDepth addrCount clockPin : Z)
    (doubleBuffer : bool) : Protomatter_core :=
  match sample_begin toggle bitWidth bitDepth addrCount clockPin doubleBuffer with
  | Ret (_, Some core, _, _) => core
  | _ => blank_core
  end.

(** 64 columns, 4 planes, 16 row pairs, clock on pin 6. *)
Definition sample_core : Protomatter_core := started_core true 64 4 4 6 false.

(** The core and the heap [_PM_init] leaves for [_PM_begin]. *)
Definition initialised (toggle : bool) (bitWidth bitDepth addrCount clockPin : Z)
    (doubleBuffer : bool) : Protomatter_core * heap :=
  match sample_init toggle bitWidth bitDepth addrCount clockPin doubleBuffer with
  | (_, Some core, h, _) => (core, h)
  | (_, None, h, _) => (blank_core, h)
  end.

(** Heap and trace at the end of [_PM_begin]. *)
Definition started_heap (toggle : bool) (bitWidth bitDepth addrCount clockPin : Z)
    (doubleBuffer : bool) : heap :=
  match sample_begin toggle bitWidth bitDepth addrCount clockPin doubleBuffer with
  | Ret (_, _, h, _) => h
  | _ => sample_heap
  end.

Definition started_trace (toggle : bool) (bitWidth bitDepth addrCount clockPin : Z)
    (doubleBuffer : bool) : list event :=
  match sample_begin toggle bitWidth bitDepth addrCount clockPin doubleBuffer with
  | Ret (_, _, _, tr) => tr
  | _ => []
  end.

(** The fields of the core hold values of their C types. *)
Definition core_typed (core : Protomatter_core) : Prop :=
  0 <= width core < 2 ^ 16
  /\ 0 <= numPlanes core < 2 ^ 8
  /\ 0 <= parallel core < 2 ^ 8
  /\ 0 <= numAddressLines core < 2 ^ 8.

(** The foreground's request for a buffer swap: [core->swapBuffers = 1]. *)
Definition request_swap (core : Protomatter_core) : Protomatter_core :=
  {| timer := timer core;
     setReg := setReg core;
     clearReg := clearReg core;
     toggleReg := toggleReg core;
     rgbPins := rgbPins core;
     rgbMask := rgbMask core;
     clockMask := clockMask core;
     rgbAndClockMask := rgbAndClockMask core;
     addrPortToggle := addrPortToggle core;
     screenData := screenData core;
     latch := latch core;
     oe := oe core;
     addr := addr core;
     bufferSize := bufferSize core;
     bitZeroPeriod := bitZeroPeriod core;
     minPeriod := minPeriod core;
     frameCount := frameCount core;
     width := width core;
     bytesPerElement := bytesPerElement core;
     clockPin := clockPin core;
     parallel := parallel core;
     numAddressLines := numAddressLines core;
     portOffset := portOffset core;
     numPlanes := numPlanes core;
     numRowPairs := numRowPairs core;
     doubleBuffer := doubleBuffer core;
     singleAddrPort := singleAddrPort core;
     activeBuffer := activeBuffer core;
     row := row core;
     prevRow := prevRow core;
     plane := plane core;
     swapBuffers := true;
     remap_rb := remap_rb core;
     remap_g := remap_g core |}.

(** ** The shift-out functions, [blast_byte], [blast_word], [blast_long]

    The matrix buffers are read through [mem], the element stored at an
    address.  [PEW] is the default one of [core.c] (an architecture may
    bring its own); a register is written with as many bits as the pointer
    type used for the write has. *)

(** One [PEW]: issue the element at [data], pulse the clock.  [w] is the
    element width in bytes, [offset] the element of the PORT used for
    narrow accesses. *)
Definition PEW (A : Arch) (core : Protomatter_core) (w offset : Z)
    (mem : Z -> Z) (data : Z) : list event :=
  let narrow := fun x => x mod 2 ^ (8 * w) in
  let clock := u32 (clockMask core) in
  let rgbclock := u32 (rgbAndClockMask core) in
  if negb (_PM_STRICT_32BIT_IO A) then
    if has_toggle A then
      [RegWrite (toggleReg core + w * offset) (narrow (mem data)); ClockHoldLow;
       RegWrite (toggleReg core + w * offset) (narrow clock); ClockHoldHigh]
    else
      [RegWrite (setReg core + w * offset) (narrow (mem data)); ClockHoldLow;
       RegWrite (setReg core) clock; ClockHoldHigh;
       RegWrite (clearReg core) rgbclock]
  else
    let shift := u8 (offset * (8 * w)) in
    if has_toggle A then
      [RegWrite (toggleReg core) (u32 (narrow (mem data) * 2 ^ shift));
       ClockHoldLow;
       RegWrite (toggleReg core) clock; ClockHoldHigh]
    else
      [RegWrite (setReg core) (u32 (narrow (mem data) * 2 ^ shift));
       ClockHoldLow;
       RegWrite (setReg core) clock; ClockHoldHigh;
       RegWrite (clearReg core) rgbclock].

(** The number of [PEW]s of one call: [chunks], an 8-bit count, times the
    unroll factor. *)
Definition blast_columns (A : Arch) (core : Protomatter_core) : Z :=
  u8 (chunk_count A core) * chunkSize A.

(** [while (chunks--) { PEW_UNROLL }], then, with a toggle register, the
    write that leaves RGB data and clock low. *)
Definition blast (A : Arch) (core : Protomatter_core) (w offset : Z)
    (mem : Z -> Z) (data : Z) : list event :=
  flat_map (fun i => PEW A core w offset mem (data + w * Z.of_nat i))
           (seq 0 (Z.to_nat (blast_columns A core)))
  ++ (if has_toggle A then
        if negb (_PM_STRICT_32BIT_IO A)
        then [RegWrite (clearReg core + w * offset)
                       (rgbAndClockMask core mod 2 ^ (8 * w))]
        else [RegWrite (clearReg core) (u32 (rgbAndClockMask core))]
      else []).

Definition blast_byte (A : Arch) (core : Protomatter_core) :=
  blast A core 1 (portOffset core).

Definition blast_word (A : Arch) (core : Protomatter_core) :=
  blast A core 2 (portOffset core).

(** The 32-bit version uses the whole PORT: no offset, no shift. *)
Definition blast_long (A : Arch) (core : Protomatter_core) :=
  blast A core 4 0.

(** The call at the end of the handler, by element width. *)
Definition shift_out (A : Arch) (core : Protomatter_core) (mem : Z -> Z)
    (data : Z) : list event :=
  if bytesPerElement core =? 1 then blast_byte A core mem data
  else if bytesPerElement core =? 2 then blast_word A core mem data
  else blast_long A core mem data.

(** The data pointers handed to the shift-out functions in a trace. *)
Definition blast_sources (tr : list event) : list Z :=
  flat_map (fun ev => match ev with Blast _ _ src => [src] | _ => [] end) tr.

(** The register writes of a trace. *)
Definition reg_writes (tr : list event) : list (Z * Z) :=
  flat_map (fun ev => match ev with RegWrite r b => [(r, b)] | _ => [] end) tr.

(** The events of a sequence of handler runs. *)
Fixpoint run_trace (A : Arch) (core : Protomatter_core) (elapsed : list Z)
  : list event :=
  match elapsed with
  | [] => []
  | e :: es =>
    snd (_PM_row_handler A core e)
    ++ run_trace A (fst (_PM_row_handler A core e)) es
  end.

(** Every live block lies below the next fresh address. *)
Definition heap_wf (h : heap) : Prop :=
  forall b, In b (live h) -> fst b < Z.pos (brk h).

(** A heap with room for the pin list but not for the address table. *)
Definition tiny_heap : heap :=
  {| live := []; brk := 0x20000000; avail := 10 |}.

(** The state in which the handler runs after begin: the cursor inside the
    matrix, the buffer size the product of the padded line length, the row
    pairs, the planes and the element width, the active buffer 0 or 1. *)
Definition scan_ready (A : Arch) (core : Protomatter_core) : Prop :=
  cursor_in_range core /\ counters_typed core
  /\ 0 <= width core /\ 1 <= bytesPerElement core
  /\ bufferSize core
     = chunkSize A * chunk_count A core * numRowPairs core * numPlanes core
       * bytesPerElement core
  /\ bufferSize core <= INT_MAX
  /\ 0 <= activeBuffer core <= 1.

(** * Properties *)

Example sample_begin_status :
  match sample_begin true 64 4 4 6 false with
  | Ret (st, Some core, _, _) =>
      (st, bytesPerElement core, portOffset core, numRowPairs core,
       bufferSize core, minPeriod core, plane core, row core)
  | _ => (PROTOMATTER_ERR_ARG, 0, 0, 0, 0, 0, 0, 0)
  end = (PROTOMATTER_OK, 1, 0, 16, 4096, 800, 3, 15).
Proof. vm_compute. reflexivity. Qed.

(** ** The interrupt handler: what one run changes *)

Section Handler.
Variable A : Arch.
Variable core : Protomatter_core.
Variable elapsed : Z.

Let core' := fst (_PM_row_handler A core elapsed).

Lemma handler_numPlanes : numPlanes core' = numPlanes core.
Proof. reflexivity. Qed.

Lemma handler_numRowPairs : numRowPairs core' = numRowPairs core.
Proof. reflexivity. Qed.

Lemma handler_minPeriod : minPeriod core' = minPeriod core.
Proof. reflexivity. Qed.

Lemma handler_plane :
  plane core' =
  if numPlanes core <=? u8 (plane core + 1) then 0 else u8 (plane core + 1).
Proof. reflexivity. Qed.

Lemma handler_row :
  row core' =
  if numPlanes core <=? u8 (plane core + 1)
  then if (numPlanes core <=? u8 (plane core + 1))
          && (numRowPairs core <=? u8 (row core + 1))
       then 0 else u8 (row core + 1)
  else row core.
Proof. reflexivity. Qed.

Lemma handler_frameCount :
  frameCount core' =
  if (numPlanes core <=? u8 (plane core + 1))
     && (numRowPairs core <=? u8 (row core + 1))
  then u32 (frameCount core + 1) else frameCount core.
Proof. reflexivity. Qed.

Lemma handler_swapBuffers :
  swapBuffers core' =
  if (numPlanes core <=? u8 (plane core + 1))
     && (numRowPairs core <=? u8 (row core + 1))
  then false else swapBuffers core.
Proof. reflexivity. Qed.

Lemma handler_activeBuffer :
  activeBuffer core' =
  if (numPlanes core <=? u8 (plane core + 1))
     && (numRowPairs core <=? u8 (row core + 1))
     && swapBuffers core
  then u8 (1 - activeBuffer core) else activeBuffer core.
Proof. reflexivity. Qed.

Lemma handler_bitZeroPeriod :
  bitZeroPeriod core' =
  if (plane core =? 1) || (numPlanes core =? 1)
  then filtered_period core elapsed else bitZeroPeriod core.
Proof. reflexivity. Qed.
End Handler.

Lemma u8_small (x : Z) : 0 <= x < 256 -> u8 x = x.
Proof. intros H. unfold u8. apply Z.mod_small. simpl. lia. Qed.

Lemma u32_small (x : Z) : 0 <= x < 2 ^ 32 -> u32 x = x.
Proof. intros H. unfold u32. apply Z.mod_small. exact H. Qed.

Lemma u32_u32_add (a b : Z) : u32 (u32 a + b) = u32 (a + b).
Proof. unfold u32. apply Zplus_mod_idemp_l. Qed.

(** One run from an in-range cursor: the plane advances, the row advances
    when the plane rolls over, the frame counter when the row rolls over. *)
Lemma handler_step (A : Arch) (core : Protomatter_core) (elapsed : Z) :
  cursor_in_range core -> counters_typed core ->
  let core' := fst (_PM_row_handler A core elapsed) in
  cursor_in_range core' /\ counters_typed core'
  /\ plane core' = (plane core + 1) mod numPlanes core
  /\ row core' = (if plane core + 1 =? numPlanes core
                  then (row core + 1) mod numRowPairs core else row core)
  /\ frameCount core' =
     (if (plane core + 1 =? numPlanes core) && (row core + 1 =? numRowPairs core)
      then u32 (frameCount core + 1) else frameCount core).
Proof.
  intros [Hp Hr] (HP & HR & Hf) core'.
  subst core'.
  unfold cursor_in_range, counters_typed.
  rewrite handler_numPlanes, handler_numRowPairs, handler_plane, handler_row,
    handler_frameCount.
  rewrite !(u8_small (plane core + 1)), !(u8_small (row core + 1)) by lia.
  assert (Hu : 0 <= u32 (frameCount core + 1) < 2 ^ 32)
    by (unfold u32; apply Z.mod_pos_bound; reflexivity).
  destruct (Z.eqb_spec (plane core + 1) (numPlanes core)) as [Ep | Np].
  - replace (numPlanes core <=? plane core + 1) with true
      by (symmetry; apply Z.leb_le; lia).
    rewrite Ep, Z.mod_same by lia. cbn [andb].
    destruct (Z.eqb_spec (row core + 1) (numRowPairs core)) as [Er | Nr].
    + replace (numRowPairs core <=? row core + 1) with true
        by (symmetry; apply Z.leb_le; lia).
      rewrite Er, Z.mod_same by lia. repeat split; lia.
    + replace (numRowPairs core <=? row core + 1) with false
        by (symmetry; apply Z.leb_gt; lia).
      rewrite Z.mod_small by lia. repeat split; lia.
  - replace (numPlanes core <=? plane core + 1) with false
      by (symmetry; apply Z.leb_gt; lia).
    cbn [andb]. rewrite Z.mod_small by lia. repeat split; lia.
Qed.

Lemma cursor_index_bound (core : Protomatter_core) :
  cursor_in_range core ->
  0 <= cursor_index core < numRowPairs core * numPlanes core.
Proof. unfold cursor_in_range, cursor_index. intros [Hp Hr]. nia. Qed.

Lemma cursor_index_row (core : Protomatter_core) :
  cursor_in_range core -> row core = cursor_index core / numPlanes core.
Proof.
  unfold cursor_in_range, cursor_index. intros [Hp Hr].
  rewrite Z.div_add_l by lia. rewrite Z.div_small by lia. lia.
Qed.

Lemma cursor_index_plane (core : Protomatter_core) :
  cursor_in_range core -> plane core = cursor_index core mod numPlanes core.
Proof.
  unfold cursor_in_range, cursor_index. intros [Hp Hr].
  rewrite Z.add_comm, Z.mod_add by lia. rewrite Z.mod_small by lia. lia.
Qed.

(** In row-major order one run moves the cursor to the next position,
    cyclically, and counts a frame when it comes back to the start. *)
Lemma handler_step_index (A : Arch) (core : Protomatter_core) (elapsed : Z) :
  cursor_in_range core -> counters_typed core ->
  let core' := fst (_PM_row_handler A core elapsed) in
  let N := numRowPairs core * numPlanes core in
  cursor_index core' = (cursor_index core + 1) mod N
  /\ frameCount core' = u32 (frameCount core + (cursor_index core + 1) / N).
Proof.
  intros Hc Ht core' N.
  destruct (handler_step A core elapsed Hc Ht) as (_ & _ & Hp & Hr & Hf).
  fold core' in Hp, Hr, Hf.
  pose proof (cursor_index_bound core Hc) as Hb. fold N in Hb.
  destruct Hc as [Hpl Hro]. destruct Ht as (HP & HR & Hfc).
  unfold cursor_index in *.
  change (numPlanes core') with (numPlanes core).
  rewrite Hp, Hr, Hf.
  destruct (Z.eqb_spec (plane core + 1) (numPlanes core)) as [Ep | Np].
  - rewrite Ep, Z.mod_same by lia. cbn [andb].
    destruct (Z.eqb_spec (row core + 1) (numRowPairs core)) as [Er | Nr].
    + rewrite Er, Z.mod_same by lia.
      replace (row core * numPlanes core + plane core + 1) with N
        by (unfold N; nia).
      rewrite Z.mod_same, Z.div_same by lia. split; reflexivity.
    + rewrite (Z.mod_small (row core + 1)) by lia.
      rewrite (Z.mod_small _ N), (Z.div_small _ N) by nia.
      split; [nia | rewrite Z.add_0_r, u32_small by lia; reflexivity].
  - cbn [andb]. rewrite (Z.mod_small (plane core + 1)) by lia.
    rewrite (Z.mod_small _ N), (Z.div_small _ N) by nia.
    split; [lia | rewrite Z.add_0_r, u32_small by lia; reflexivity].
Qed.

(** Any number of runs keeps the cursor in range and leaves the matrix
    dimensions alone. *)
Lemma run_handler_in_range (A : Arch) (elapsed : list Z) :
  forall core,
    cursor_in_range core -> counters_typed core ->
    cursor_in_range (run_handler A core elapsed)
    /\ counters_typed (run_handler A core elapsed)
    /\ numPlanes (run_handler A core elapsed) = numPlanes core
    /\ numRowPairs (run_handler A core elapsed) = numRowPairs core.
Proof.
  induction elapsed as [| e es IH]; intros core Hc Ht; cbn [run_handler].
  - auto.
  - destruct (handler_step A core e Hc Ht) as (Hc' & Ht' & _).
    destruct (IH _ Hc' Ht') as (H1 & H2 & H3 & H4).
    rewrite H3, H4. auto.
Qed.

(** After [k] runs the cursor is [k] positions further, modulo the number
    of positions, and the frame counter has grown by the number of times
    the cursor passed the start. *)
Lemma run_handler_index (A : Arch) (elapsed : list Z) :
  forall core,
    cursor_in_range core -> counters_typed core ->
    let N := numRowPairs core * numPlanes core in
    let k := Z.of_nat (length elapsed) in
    cursor_index (run_handler A core elapsed) = (cursor_index core + k) mod N
    /\ frameCount (run_handler A core elapsed)
       = u32 (frameCount core + (cursor_index core + k) / N).
Proof.
  induction elapsed as [| e es IH]; intros core Hc Ht N k.
  - cbn [run_handler]. subst k. cbn [length Z.of_nat].
    pose proof (cursor_index_bound core Hc) as Hb. fold N in Hb.
    rewrite Z.add_0_r, Z.mod_small, Z.div_small, Z.add_0_r by lia.
    destruct Ht as (_ & _ & Hf). rewrite u32_small by lia. auto.
  - cbn [run_handler].
    destruct (handler_step A core e Hc Ht) as (Hc' & Ht' & _).
    destruct (handler_step_index A core e Hc Ht) as [Hi Hf].
    destruct (IH _ Hc' Ht') as [IHi IHf].
    rewrite handler_numPlanes, handler_numRowPairs in IHi, IHf.
    fold N in IHi, IHf, Hi, Hf.
    pose proof (cursor_index_bound core Hc) as Hb. fold N in Hb.
    assert (HN : 0 < N) by lia.
    subst k. cbn [length]. rewrite Nat2Z.inj_succ.
    set (k' := Z.of_nat (length es)) in *.
    set (i := cursor_index core) in *.
    rewrite IHi, IHf, Hi, Hf. clear IHi IHf Hi Hf.
    replace (i + Z.succ k') with (i + 1 + k') by lia.
    split.
    + rewrite Zplus_mod_idemp_l. reflexivity.
    + rewrite u32_u32_add. f_equal.
      rewrite (Z.div_mod (i + 1) N) at 3 by lia.
      replace (N * ((i + 1) / N) + (i + 1) mod N + k')
        with ((i + 1) mod N + k' + ((i + 1) / N) * N) by lia.
      rewrite Z.div_add by lia. lia.
Qed.

Lemma mod_shift_fixed (i k N : Z) :
  0 <= i < N -> 0 <= k -> ((i + k) mod N = i <-> k mod N = 0).
Proof.
  intros Hi Hk.
  rewrite <- (Zplus_mod_idemp_r k i N).
  pose proof (Z.mod_pos_bound k N ltac:(lia)) as Hm.
  set (m := k mod N) in *.
  destruct (Z.lt_ge_cases (i + m) N) as [Hlt | Hge].
  - rewrite Z.mod_small by lia. lia.
  - replace (i + m) with (i + m - N + 1 * N) by lia.
    rewrite Z.mod_add by lia. rewrite Z.mod_small by lia. lia.
Qed.

(** C4: starting from any in-range cursor, repeated runs of the row
    handler walk the (row, plane) cursor through every pair in cyclic
    row-major order (the plane advances first, the row advances when the
    plane rolls over) with period numRowPairs * numPlanes, and frameCount
    is incremented (as a 32-bit counter) exactly once for every re-entry
    into (row 0, plane 0). *)
Theorem C4_cursor_walk (A : Arch) (core : Protomatter_core) (elapsed : list Z) :
  cursor_in_range core -> counters_typed core ->
  let P := numPlanes core in
  let R := numRowPairs core in
  let N := R * P in
  let i := cursor_index core in
  let k := Z.of_nat (length elapsed) in
  let core' := run_handler A core elapsed in
  (* one run *)
  (forall e,
      let c1 := fst (_PM_row_handler A core e) in
      plane c1 = (plane core + 1) mod P
      /\ row c1 = (if plane core + 1 =? P then (row core + 1) mod R else row core)
      /\ frameCount c1 = (if (row c1 =? 0) && (plane c1 =? 0)
                          then u32 (frameCount core + 1) else frameCount core))
  (* k runs *)
  /\ row core' = ((i + k) mod N) / P
  /\ plane core' = ((i + k) mod N) mod P
  /\ frameCount core' = u32 (frameCount core + (i + k) / N)
  (* the period is exactly N *)
  /\ ((row core' = row core /\ plane core' = plane core) <-> k mod N = 0)
  (* every pair is reached within one period *)
  /\ (forall r p, 0 <= r < R -> 0 <= p < P ->
        exists n, 0 <= n < N /\
          forall es, Z.of_nat (length es) = n ->
            row (run_handler A core es) = r /\ plane (run_handler A core es) = p).
Proof.
  intros Hc Ht P R N i k core'.
  pose proof (cursor_index_bound core Hc) as Hb. fold N i in Hb.
  assert (Hwalk : forall es,
             let c := run_handler A core es in
             let n := Z.of_nat (length es) in
             row c = ((i + n) mod N) / P /\ plane c = ((i + n) mod N) mod P).
  { intros es c n.
    destruct (run_handler_in_range A es core Hc Ht) as (Hc' & _ & HP' & _).
    destruct (run_handler_index A es core Hc Ht) as [Hi _].
    fold c in Hc', HP', Hi. fold N i n in Hi.
    rewrite (cursor_index_row c Hc'), (cursor_index_plane c Hc'), HP', Hi.
    split; reflexivity. }
  split; [| split; [| split; [| split; [| split]]]].
  - intros e c1.
    destruct (handler_step A core e Hc Ht) as (_ & _ & Hp & Hr & Hf).
    fold c1 P R in Hp, Hr, Hf.
    split; [exact Hp |]. split; [exact Hr |].
    rewrite Hf, Hr, Hp.
    destruct Hc as [Hpl Hro]. fold P in Hpl. fold R in Hro.
    destruct (Z.eqb_spec (plane core + 1) P) as [Ep | Np].
    + rewrite Ep, Z.mod_same by lia. cbn [andb].
      destruct (Z.eqb_spec (row core + 1) R) as [Er | Nr].
      * rewrite Er, Z.mod_same by lia. reflexivity.
      * rewrite Z.mod_small by lia.
        replace (row core + 1 =? 0) with false by (symmetry; apply Z.eqb_neq; lia).
        reflexivity.
    + cbn [andb]. rewrite Z.mod_small by lia.
      replace (plane core + 1 =? 0) with false by (symmetry; apply Z.eqb_neq; lia).
      rewrite andb_false_r. reflexivity.
  - apply (Hwalk elapsed).
  - apply (Hwalk elapsed).
  - apply (run_handler_index A elapsed core Hc Ht).
  - destruct (run_handler_in_range A elapsed core Hc Ht) as (Hc' & _ & HP' & _).
    destruct (run_handler_index A elapsed core Hc Ht) as [Hi _].
    assert (Hi' : cursor_index core' = (i + k) mod N) by exact Hi.
    assert (HP'' : numPlanes core' = P) by exact HP'.
    pose proof (mod_shift_fixed i k N Hb ltac:(lia)) as Hfix.
    rewrite <- Hi' in Hfix.
    split.
    + intros [Er Ep]. apply Hfix. unfold i, cursor_index.
      rewrite HP'', Er, Ep. reflexivity.
    + intros Hk. apply Hfix in Hk.
      rewrite (cursor_index_row core' Hc'), (cursor_index_plane core' Hc').
      rewrite (cursor_index_row core Hc), (cursor_index_plane core Hc).
      rewrite HP'', Hk. split; reflexivity.
  - intros r p Hr Hp.
    exists ((r * P + p - i) mod N).
    split; [apply Z.mod_pos_bound; lia |].
    intros es Hes.
    destruct (Hwalk es) as [Hrow Hplane]. rewrite Hes in Hrow, Hplane.
    rewrite Zplus_mod_idemp_r in Hrow, Hplane.
    replace (i + (r * P + p - i)) with (r * P + p) in Hrow, Hplane by lia.
    rewrite (Z.mod_small (r * P + p) N) in Hrow, Hplane by (unfold N; nia).
    rewrite Hrow, Hplane.
    rewrite Z.div_add_l, Z.div_small by lia.
    rewrite (Z.add_comm (r * P)), Z.mod_add, Z.mod_small by lia.
    split; lia.
Qed.

Ltac closed_facts :=
  vm_compute; repeat split;
  solve [reflexivity | discriminate | intro; discriminate].

Lemma C4_cursor_walk_witness :
  let core' := run_handler (sample_arch true) sample_core [1000; 320; 330] in
  (cursor_in_range sample_core /\ counters_typed sample_core)
  /\ (row sample_core, plane sample_core, frameCount sample_core) = (15, 3, 0)
  /\ (row core', plane core', frameCount core') = (0, 2, 1).
Proof.
  assert (Hc : cursor_in_range sample_core) by closed_facts.
  assert (Ht : counters_typed sample_core) by closed_facts.
  destruct (C4_cursor_walk (sample_arch true) sample_core [1000; 320; 330] Hc Ht)
    as (_ & Hrow & Hplane & Hframe & _).
  split; [split; assumption |].
  split; [reflexivity |].
  rewrite Hrow, Hplane, Hframe. reflexivity.
Defined.

(** The frame boundary, seen from an in-range cursor: the handler's two
    roll-over tests both succeed exactly when the new cursor is (0, 0). *)
Lemma frame_boundary_iff (A : Arch) (core : Protomatter_core) (elapsed : Z) :
  cursor_in_range core -> counters_typed core ->
  let core' := fst (_PM_row_handler A core elapsed) in
  (numPlanes core <=? u8 (plane core + 1))
  && (numRowPairs core <=? u8 (row core + 1)) = true
  <-> row core' = 0 /\ plane core' = 0.
Proof.
  intros [Hp Hr] (HP & HR & _) core'. subst core'.
  rewrite handler_row, handler_plane.
  rewrite !(u8_small (plane core + 1)), !(u8_small (row core + 1)) by lia.
  destruct (Z.leb_spec (numPlanes core) (plane core + 1)) as [L1 | L1];
    destruct (Z.leb_spec (numRowPairs core) (row core + 1)) as [L2 | L2];
    cbn [andb]; split; intros H; try discriminate; try (split; reflexivity);
    destruct H; lia.
Qed.

(** One run from an in-range cursor, by the position of the cursor: the
    flag and the active buffer change only in the run that leaves the last
    position. *)
Lemma handler_step_swap (A : Arch) (core : Protomatter_core) (elapsed : Z) :
  cursor_in_range core -> counters_typed core ->
  let core' := fst (_PM_row_handler A core elapsed) in
  let N := numRowPairs core * numPlanes core in
  (cursor_index core + 1 < N ->
     swapBuffers core' = swapBuffers core
     /\ activeBuffer core' = activeBuffer core)
  /\ (cursor_index core + 1 = N ->
        swapBuffers core' = false
        /\ activeBuffer core' = (if swapBuffers core
                                 then u8 (1 - activeBuffer core)
                                 else activeBuffer core)).
Proof.
  intros Hc Ht core' N.
  assert (Hsw : swapBuffers core' = _) by apply handler_swapBuffers.
  assert (Hab : activeBuffer core' = _) by apply handler_activeBuffer.
  rewrite Hsw, Hab. clear Hsw Hab.
  destruct Hc as [Hp Hr]. destruct Ht as (HP & HR & _).
  unfold cursor_index. subst N.
  rewrite !(u8_small (plane core + 1)), !(u8_small (row core + 1)) by lia.
  destruct (Z.leb_spec (numPlanes core) (plane core + 1)) as [L1 | L1];
    destruct (Z.leb_spec (numRowPairs core) (row core + 1)) as [L2 | L2];
    cbn [andb]; split; intros Hi; try (split; reflexivity); try nia.
Qed.

(** Over any number of runs from an in-range cursor: nothing changes before
    the cursor has passed the frame boundary, and from then on the flag is
    clear and the active buffer has been flipped once if a swap was
    pending, not at all otherwise. *)
Lemma run_handler_swap (A : Arch) (elapsed : list Z) :
  forall core,
    cursor_in_range core -> counters_typed core ->
    let core' := run_handler A core elapsed in
    let N := numRowPairs core * numPlanes core in
    let k := Z.of_nat (length elapsed) in
    (cursor_index core + k < N ->
       swapBuffers core' = swapBuffers core
       /\ activeBuffer core' = activeBuffer core)
    /\ (N <= cursor_index core + k ->
          swapBuffers core' = false
          /\ activeBuffer core' = (if swapBuffers core
                                   then u8 (1 - activeBuffer core)
                                   else activeBuffer core)).
Proof.
  induction elapsed as [| e es IH]; intros core Hc Ht core' N k.
  - pose proof (cursor_index_bound core Hc) as Hb.
    subst core' k N. cbn [run_handler length Z.of_nat].
    split; [auto | lia].
  - destruct (handler_step A core e Hc Ht) as (Hc1 & Ht1 & _).
    destruct (handler_step_index A core e Hc Ht) as [Hi1 _].
    destruct (handler_step_swap A core e Hc Ht) as [Hin Hout].
    specialize (IH _ Hc1 Ht1). cbv zeta in IH.
    rewrite handler_numPlanes, handler_numRowPairs in IH.
    destruct IH as [IHin IHout].
    pose proof (cursor_index_bound core Hc) as Hb.
    cbv zeta in Hi1, Hin, Hout.
    subst core' k. cbn [run_handler length]. rewrite Nat2Z.inj_succ.
    fold N in Hb, Hi1, Hin, Hout, IHin, IHout.
    set (c1 := fst (_PM_row_handler A core e)) in *.
    set (k' := Z.of_nat (length es)) in *.
    assert (Hk : 0 <= k') by (unfold k'; lia).
    destruct (Z.lt_ge_cases (cursor_index core + 1) N) as [Hlt | Hge].
    + rewrite Z.mod_small in Hi1 by lia.
      destruct (Hin Hlt) as [Es Ea]. rewrite Hi1, Es, Ea in *.
      split; intros Hk'; [apply IHin | apply IHout]; lia.
    + assert (Hlast : cursor_index core + 1 = N) by lia.
      rewrite Hlast, Z.mod_same in Hi1 by lia.
      destruct (Hout Hlast) as [Es Ea]. rewrite Hi1, Es in *.
      split; [lia |]. intros _.
      destruct (Z.lt_ge_cases k' N) as [Hshort | Hlong].
      * destruct (IHin ltac:(lia)) as [Es' Ea']. rewrite Es', Ea'. auto.
      * destruct (IHout ltac:(lia)) as [Es' Ea']. rewrite Es', Ea'. auto.
Qed.

(** C3: in every execution the row handler takes swapBuffers from 1 to 0
    only in the run that wraps the cursor to row 0, plane 0 (the frame
    boundary), and in that same run activeBuffer is flipped, once, to
    1 - activeBuffer; at a frame boundary with swapBuffers 0, and in every
    other run, activeBuffer is unchanged. *)
Theorem C3_swap_at_frame_boundary
    (A : Arch) (core : Protomatter_core) (elapsed : Z) :
  let core' := fst (_PM_row_handler A core elapsed) in
  (* 1 -> 0 happens only in the run that wraps to (0, 0), with the flip *)
  (swapBuffers core = true -> swapBuffers core' = false ->
     row core' = 0 /\ plane core' = 0
     /\ frameCount core' = u32 (frameCount core + 1)
     /\ activeBuffer core' = u8 (1 - activeBuffer core))
  (* activeBuffer changes in no other run *)
  /\ (activeBuffer core' <> activeBuffer core ->
        swapBuffers core = true /\ swapBuffers core' = false)
  (* with the flag clear nothing changes, and the handler never sets it *)
  /\ (swapBuffers core = false ->
        swapBuffers core' = false /\ activeBuffer core' = activeBuffer core)
  (* from an in-range cursor, the frame boundary is where it happens *)
  /\ (cursor_in_range core -> counters_typed core ->
        (row core' = 0 /\ plane core' = 0 ->
           swapBuffers core' = false
           /\ activeBuffer core' = (if swapBuffers core
                                    then u8 (1 - activeBuffer core)
                                    else activeBuffer core))
        /\ (~ (row core' = 0 /\ plane core' = 0) ->
              swapBuffers core' = swapBuffers core
              /\ activeBuffer core' = activeBuffer core))
  (* over any number of runs: no change before the next frame boundary,
     one flip at it when a swap is pending, none after it *)
  /\ (cursor_in_range core -> counters_typed core ->
      forall es,
        let N := numRowPairs core * numPlanes core in
        let k := Z.of_nat (length es) in
        (cursor_index core + k < N ->
           swapBuffers (run_handler A core es) = swapBuffers core
           /\ activeBuffer (run_handler A core es) = activeBuffer core)
        /\ (N <= cursor_index core + k ->
              swapBuffers (run_handler A core es) = false
              /\ activeBuffer (run_handler A core es)
                 = (if swapBuffers core then u8 (1 - activeBuffer core)
                    else activeBuffer core)))
  (* the flip is between 0 and 1 *)
  /\ (0 <= activeBuffer core <= 1 ->
        u8 (1 - activeBuffer core) = 1 - activeBuffer core).
Proof.
  intros core'.
  assert (Hsw := handler_swapBuffers A core elapsed).
  assert (Hab := handler_activeBuffer A core elapsed).
  assert (Hfc := handler_frameCount A core elapsed).
  assert (Hro := handler_row A core elapsed).
  assert (Hpl := handler_plane A core elapsed).
  fold core' in Hsw, Hab, Hfc, Hro, Hpl.
  split; [| split; [| split; [| split; [| split]]]].
  - intros H1 H0. rewrite H1 in *. rewrite Hro, Hpl, Hfc, Hab.
    destruct (numPlanes core <=? u8 (plane core + 1));
      destruct (numRowPairs core <=? u8 (row core + 1));
      cbn [andb] in *; try congruence; auto.
  - intros Hne. rewrite Hsw. rewrite Hab in Hne.
    destruct ((numPlanes core <=? u8 (plane core + 1))
              && (numRowPairs core <=? u8 (row core + 1)));
      destruct (swapBuffers core); cbn [andb] in *; try congruence; auto.
  - intros H0. rewrite Hsw, Hab, H0.
    rewrite andb_false_r.
    destruct ((numPlanes core <=? u8 (plane core + 1))
              && (numRowPairs core <=? u8 (row core + 1))); auto.
  - intros Hc Ht.
    pose proof (frame_boundary_iff A core elapsed Hc Ht) as Hfb.
    fold core' in Hfb. rewrite Hsw, Hab.
    destruct ((numPlanes core <=? u8 (plane core + 1))
              && (numRowPairs core <=? u8 (row core + 1))).
    + split.
      * intros _. cbn [andb]. auto.
      * intros Hn. exfalso. apply Hn. apply Hfb. reflexivity.
    + split.
      * intros H0. apply Hfb in H0. discriminate.
      * intros _. cbn [andb]. auto.
  - intros Hc Ht es. exact (run_handler_swap A es core Hc Ht).
  - intros Hab01. apply u8_small. lia.
Qed.

Lemma C3_swap_at_frame_boundary_witness :
  (cursor_in_range (request_swap sample_core)
   /\ counters_typed (request_swap sample_core))
  /\ activeBuffer (request_swap sample_core) = 0
  /\ swapBuffers
       (fst (_PM_row_handler (sample_arch true) (request_swap sample_core) 1000))
     = false
  /\ activeBuffer
       (fst (_PM_row_handler (sample_arch true) (request_swap sample_core) 1000))
     = 1.
Proof.
  assert (Hc : cursor_in_range (request_swap sample_core)) by closed_facts.
  assert (Ht : counters_typed (request_swap sample_core)) by closed_facts.
  destruct (C3_swap_at_frame_boundary (sample_arch true)
              (request_swap sample_core) 1000) as (_ & _ & _ & H & _).
  destruct (H Hc Ht) as [Hb _].
  destruct (Hb ltac:(split; reflexivity)) as [Hs Ha].
  split; [split; assumption |].
  split; [reflexivity |].
  split; [exact Hs | rewrite Ha; reflexivity].
Defined.

(** The row address update starts no timer. *)
Lemma address_update_no_timer (A : Arch) (core : Protomatter_core) :
  armed_ticks (address_update A core) = [].
Proof.
  unfold address_update.
  destruct (has_toggle A && singleAddrPort core); [reflexivity |].
  unfold address_per_line.
  induction (address_lines core) as [| line lines IH]; [reflexivity |].
  cbn [flat_map]. unfold armed_ticks in *. rewrite flat_map_app, IH, app_nil_r.
  destruct (Z.land (row core) (line_bit line)
            =? Z.land (prevRow core) (line_bit line)); [reflexivity |].
  destruct (Z.land (row core) (line_bit line) =? 0); reflexivity.
Qed.

Lemma handler_armed (A : Arch) (core : Protomatter_core) (elapsed : Z) :
  armed_ticks (snd (_PM_row_handler A core elapsed))
  = [shl_u32 (bitZeroPeriod (fst (_PM_row_handler A core elapsed))) (plane core)].
Proof.
  unfold _PM_row_handler. cbn [fst snd bitZeroPeriod].
  unfold armed_ticks. rewrite !flat_map_app.
  fold (armed_ticks (if plane core =? 0 then address_update A core else [])).
  replace (armed_ticks (if plane core =? 0 then address_update A core else []))
    with (@nil (result Z))
    by (destruct (plane core =? 0);
        [symmetry; apply address_update_no_timer | reflexivity]).
  reflexivity.
Qed.

(** C5: every run of the row handler arms the next timer interval with
    bitZeroPeriod << prevPlane, prevPlane being the plane index read
    before the cursor advances; so, when the run is not one that adapts
    bitZeroPeriod, plane p is shown for bitZeroPeriod * 2^p ticks (a 32-bit
    quantity), for every plane p in [0, numPlanes). *)
Theorem C5_exposure_period (A : Arch) (core : Protomatter_core) (elapsed : Z) :
  let core' := fst (_PM_row_handler A core elapsed) in
  let armed := armed_ticks (snd (_PM_row_handler A core elapsed)) in
  (* one timer start per run, with the period shifted by the plane just loaded *)
  armed = [shl_u32 (bitZeroPeriod core') (plane core)]
  /\ (0 <= plane core < 32 ->
        armed = [Ret (u32 (bitZeroPeriod core' * 2 ^ plane core))])
  (* without the adaptive update the period is the one the run started with *)
  /\ (plane core <> 1 -> numPlanes core <> 1 ->
        bitZeroPeriod core' = bitZeroPeriod core)
  /\ (plane core <> 1 -> numPlanes core <> 1 ->
      0 <= plane core < numPlanes core ->
      0 <= bitZeroPeriod core ->
      bitZeroPeriod core * 2 ^ plane core < 2 ^ 32 -> plane core < 32 ->
        armed = [Ret (bitZeroPeriod core * 2 ^ plane core)]).
Proof.
  intros core' armed.
  assert (Harmed : armed = [shl_u32 (bitZeroPeriod core') (plane core)])
    by apply handler_armed.
  assert (Hkeep : plane core <> 1 -> numPlanes core <> 1 ->
                  bitZeroPeriod core' = bitZeroPeriod core).
  { intros H1 H2. unfold core'. rewrite handler_bitZeroPeriod.
    apply Z.eqb_neq in H1, H2. rewrite H1, H2. reflexivity. }
  split; [exact Harmed |].
  split; [| split; [exact Hkeep |]].
  - intros Hp. rewrite Harmed. unfold shl_u32.
    replace (0 <=? plane core) with true by (symmetry; apply Z.leb_le; lia).
    replace (plane core <? 32) with true by (symmetry; apply Z.ltb_lt; lia).
    reflexivity.
  - intros H1 H2 Hp Hb Hfit H32. rewrite Harmed, (Hkeep H1 H2). unfold shl_u32.
    replace (0 <=? plane core) with true by (symmetry; apply Z.leb_le; lia).
    replace (plane core <? 32) with true by (symmetry; apply Z.ltb_lt; lia).
    cbn [andb]. rewrite u32_small; [reflexivity |].
    split; [apply Z.mul_nonneg_nonneg; [lia | apply Z.pow_nonneg; lia] | lia].
Qed.

Lemma C5_exposure_period_witness :
  (plane sample_core, numPlanes sample_core, bitZeroPeriod sample_core)
  = (3, 4, 320)
  /\ armed_ticks (snd (_PM_row_handler (sample_arch true) sample_core 1000))
     = [Ret 2560].
Proof.
  split; [reflexivity |].
  destruct (C5_exposure_period (sample_arch true) sample_core 1000)
    as (_ & _ & _ & H).
  apply H; closed_facts.
Defined.

(** C6: a run of the row handler updates bitZeroPeriod exactly when the
    plane index read on entry is 1 or numPlanes is 1; the new value is
    (7 * bitZeroPeriod + elapsed) / 8 in 32-bit unsigned arithmetic with
    integer division, raised to minPeriod when it is below; for every other
    plane index bitZeroPeriod is unchanged. *)
Theorem C6_bit_zero_period (A : Arch) (core : Protomatter_core) (elapsed : Z) :
  let core' := fst (_PM_row_handler A core elapsed) in
  (plane core = 1 \/ numPlanes core = 1 ->
     bitZeroPeriod core'
     = Z.max (minPeriod core) (u32 (7 * bitZeroPeriod core + elapsed) / 8))
  /\ (plane core = 1 \/ numPlanes core = 1 ->
      0 <= bitZeroPeriod core -> 0 <= elapsed ->
      7 * bitZeroPeriod core + elapsed < 2 ^ 32 ->
        bitZeroPeriod core'
        = Z.max (minPeriod core) ((7 * bitZeroPeriod core + elapsed) / 8))
  /\ (~ (plane core = 1 \/ numPlanes core = 1) ->
        bitZeroPeriod core' = bitZeroPeriod core).
Proof.
  intros core'. unfold core'. rewrite handler_bitZeroPeriod.
  assert (Hupd : plane core = 1 \/ numPlanes core = 1 ->
                 ((plane core =? 1) || (numPlanes core =? 1)) = true).
  { intros [H | H]; rewrite H; [reflexivity | apply orb_true_r]. }
  assert (Hval : filtered_period core elapsed
                 = Z.max (minPeriod core)
                         (u32 (7 * bitZeroPeriod core + elapsed) / 8)).
  { unfold filtered_period. rewrite u32_u32_add.
    replace (bitZeroPeriod core * 7) with (7 * bitZeroPeriod core) by lia.
    destruct (Z.ltb_spec (u32 (7 * bitZeroPeriod core + elapsed) / 8)
                         (minPeriod core)); lia. }
  split; [| split].
  - intros H. rewrite (Hupd H). exact Hval.
  - intros H Hb He Hfit. rewrite (Hupd H), Hval, u32_small by lia. reflexivity.
  - intros H.
    destruct (Z.eqb_spec (plane core) 1); [tauto |].
    destruct (Z.eqb_spec (numPlanes core) 1); [tauto |]. reflexivity.
Qed.

Lemma C6_bit_zero_period_witness :
  (plane (run_handler (sample_arch true) sample_core [1000; 320]),
   bitZeroPeriod (run_handler (sample_arch true) sample_core [1000; 320]),
   minPeriod (run_handler (sample_arch true) sample_core [1000; 320]))
  = (1, 320, 800)
  /\ bitZeroPeriod
       (fst (_PM_row_handler (sample_arch true)
               (run_handler (sample_arch true) sample_core [1000; 320]) 8000))
     = 1280.
Proof.
  split; [reflexivity |].
  destruct (C6_bit_zero_period (sample_arch true)
              (run_handler (sample_arch true) sample_core [1000; 320]) 8000)
    as (_ & H & _).
  rewrite H; [reflexivity | left; reflexivity | closed_facts ..].
Defined.

(** ** The layout planner *)

Lemma octet_mask_bit (k i : Z) :
  0 <= k ->
  Z.testbit (octet_mask k) i = (8 * k <=? i) && (i <? 8 * k + 8).
Proof.
  intros Hk. unfold octet_mask.
  destruct (Z.leb_spec (8 * k) i) as [Hlo | Hlo]; cbn [andb].
  - rewrite Z.shiftl_spec by lia. change 255 with (Z.ones 8).
    destruct (Z.ltb_spec i (8 * k + 8)) as [Hhi | Hhi].
    + apply Z.ones_spec_low. lia.
    + apply Z.ones_spec_high. lia.
  - destruct (Z.neg_nonneg_cases i) as [Hn | Hn].
    + apply Z.testbit_neg_r. exact Hn.
    + rewrite Z.shiftl_spec by lia. apply Z.testbit_neg_r. lia.
Qed.

Lemma touched_false (m k : Z) :
  0 <= k ->
  touched m k = false ->
  forall i, 8 * k <= i < 8 * k + 8 -> Z.testbit m i = false.
Proof.
  intros Hk Ht i Hi. unfold touched in Ht.
  apply negb_false_iff, Z.eqb_eq in Ht.
  assert (Hb : Z.testbit (Z.land m (octet_mask k)) i = false)
    by (rewrite Ht; apply Z.bits_0).
  rewrite Z.land_spec, octet_mask_bit in Hb by exact Hk.
  replace (8 * k <=? i) with true in Hb by (symmetry; apply Z.leb_le; lia).
  replace (i <? 8 * k + 8) with true in Hb by (symmetry; apply Z.ltb_lt; lia).
  rewrite andb_true_r in Hb. exact Hb.
Qed.

Lemma touched_true (m k : Z) :
  0 <= k ->
  touched m k = true ->
  exists i, 8 * k <= i < 8 * k + 8 /\ Z.testbit m i = true.
Proof.
  intros Hk Ht.
  destruct (Z.testbit m (8 * k)) eqn:B0; [exists (8 * k); split; [lia | assumption] |].
  destruct (Z.testbit m (8 * k + 1)) eqn:B1; [exists (8 * k + 1); split; [lia | assumption] |].
  destruct (Z.testbit m (8 * k + 2)) eqn:B2; [exists (8 * k + 2); split; [lia | assumption] |].
  destruct (Z.testbit m (8 * k + 3)) eqn:B3; [exists (8 * k + 3); split; [lia | assumption] |].
  destruct (Z.testbit m (8 * k + 4)) eqn:B4; [exists (8 * k + 4); split; [lia | assumption] |].
  destruct (Z.testbit m (8 * k + 5)) eqn:B5; [exists (8 * k + 5); split; [lia | assumption] |].
  destruct (Z.testbit m (8 * k + 6)) eqn:B6; [exists (8 * k + 6); split; [lia | assumption] |].
  destruct (Z.testbit m (8 * k + 7)) eqn:B7; [exists (8 * k + 7); split; [lia | assumption] |].
  exfalso. unfold touched in Ht. apply negb_true_iff, Z.eqb_neq in Ht. apply Ht.
  apply Z.bits_inj'. intros i Hi.
  rewrite Z.land_spec, octet_mask_bit, Z.bits_0 by exact Hk.
  destruct (Z.leb_spec (8 * k) i) as [Hlo | Hlo];
    [| rewrite andb_false_r; reflexivity].
  destruct (Z.ltb_spec i (8 * k + 8)) as [Hhi | Hhi];
    [| rewrite andb_false_r; reflexivity].
  rewrite andb_true_r.
  assert (Hcase : i = 8 * k \/ i = 8 * k + 1 \/ i = 8 * k + 2 \/ i = 8 * k + 3
                  \/ i = 8 * k + 4 \/ i = 8 * k + 5 \/ i = 8 * k + 6
                  \/ i = 8 * k + 7) by lia.
  destruct Hcase as [-> | [-> | [-> | [-> | [-> | [-> | [-> | ->]]]]]]];
    assumption.
Qed.

Lemma bit_in_word (m i : Z) :
  0 <= m < 2 ^ 32 -> Z.testbit m i = true -> 0 <= i < 32.
Proof.
  intros Hm Hb.
  destruct (Z.neg_nonneg_cases i) as [Hn | Hn].
  - rewrite Z.testbit_neg_r in Hb by exact Hn. discriminate.
  - destruct (Z.lt_ge_cases i 32) as [Hlt | Hge]; [lia |].
    rewrite <- (Z.mod_small m (2 ^ 32)) in Hb by exact Hm.
    rewrite Z.mod_pow2_bits_high in Hb by lia. discriminate.
Qed.

Lemma within_of_touched (m lo hi : Z) :
  0 <= m < 2 ^ 32 ->
  (forall k, 0 <= k < 4 -> touched m k = true -> lo <= 8 * k /\ 8 * k + 8 <= hi) ->
  bits_within lo hi m.
Proof.
  intros Hm Hk i Hb.
  pose proof (bit_in_word m i Hm Hb) as Hi.
  assert (Hq : 0 <= i / 8 < 4)
    by (split; [apply Z.div_pos; lia | apply Z.div_lt_upper_bound; lia]).
  pose proof (Z.div_mod i 8 ltac:(lia)) as Hdm.
  pose proof (Z.mod_pos_bound i 8 ltac:(lia)) as Hr.
  destruct (touched m (i / 8)) eqn:Ht.
  - specialize (Hk (i / 8) Hq Ht). lia.
  - rewrite (touched_false m (i / 8)) in Hb by (try assumption; lia).
    discriminate.
Qed.

Lemma touched_within (m lo hi k : Z) :
  0 <= k -> bits_within lo hi m -> touched m k = true ->
  exists i, 8 * k <= i < 8 * k + 8 /\ lo <= i < hi.
Proof.
  intros Hk Hw Ht.
  destruct (touched_true m k Hk Ht) as (i & Hi & Hb).
  exists i. split; [exact Hi | apply Hw; exact Hb].
Qed.

Lemma untouched_zero (m : Z) :
  0 <= m < 2 ^ 32 ->
  touched m 0 = false -> touched m 1 = false ->
  touched m 2 = false -> touched m 3 = false -> m = 0.
Proof.
  intros Hm T0 T1 T2 T3.
  apply Z.bits_inj'. intros i Hi. rewrite Z.bits_0.
  destruct (Z.testbit m i) eqn:Hb; [| reflexivity].
  pose proof (within_of_touched m 0 0 Hm) as Hw.
  assert (Hnone : forall k, 0 <= k < 4 -> touched m k = true ->
                            0 <= 8 * k /\ 8 * k + 8 <= 0).
  { intros k Hk Ht.
    assert (Hc : k = 0 \/ k = 1 \/ k = 2 \/ k = 3) by lia.
    destruct Hc as [-> | [-> | [-> | ->]]]; congruence. }
  specialize (Hw Hnone i Hb). lia.
Qed.

Lemma bytesPerElement_of_touched (m : Z) :
  bytesPerElement_of (byteMask_of m) =
  match touched m 3, touched m 2, touched m 1, touched m 0 with
  | false, false, false, true
  | false, false, true, false
  | false, true, false, false
  | true, false, false, false => 1
  | false, false, true, true
  | true, true, false, false => 2
  | _, _, _, _ => 4
  end.
Proof.
  unfold byteMask_of, touched, octet_mask.
  change (Z.shiftl 255 (8 * 3)) with 0xFF000000.
  change (Z.shiftl 255 (8 * 2)) with 0x00FF0000.
  change (Z.shiftl 255 (8 * 1)) with 0x0000FF00.
  change (Z.shiftl 255 (8 * 0)) with 0x000000FF.
  destruct (Z.land m 0xFF000000 =? 0); destruct (Z.land m 0x00FF0000 =? 0);
    destruct (Z.land m 0x0000FF00 =? 0); destruct (Z.land m 0x000000FF =? 0);
    reflexivity.
Qed.

Ltac octet_clash :=
  repeat match goal with
         | H : single_octet _ |- _ => destruct H as (?k & ?Hk & ?Hw)
         | H : single_halfword _ |- _ => destruct H as [?Hw | ?Hw]
         end;
  repeat match goal with
         | Hw : bits_within ?lo ?hi ?m, Ht : touched ?m ?k = true |- _ =>
             let i := fresh "i" in
             let Hi := fresh "Hi" in
             let Hr := fresh "Hr" in
             destruct (touched_within m lo hi k ltac:(lia) Hw Ht) as (i & Hi & Hr);
             revert Ht
         end;
  intros; lia.

Ltac octet_within :=
  apply within_of_touched; [assumption |];
  let k := fresh "k" in
  let Hk := fresh "Hk" in
  let Ht := fresh "Ht" in
  let Hc := fresh "Hc" in
  intros k Hk Ht;
  assert (Hc : k = 0 \/ k = 1 \/ k = 2 \/ k = 3) by lia;
  destruct Hc as [-> | [-> | [-> | ->]]]; (congruence || lia).

(** The width the planner picks, in terms of where the bits of a non-zero
    32-bit mask lie. *)
Lemma element_width_classes (m : Z) :
  0 <= m < 2 ^ 32 -> m <> 0 ->
  (single_octet m -> bytesPerElement_of (byteMask_of m) = 1)
  /\ (~ single_octet m -> single_halfword m ->
      bytesPerElement_of (byteMask_of m) = 2)
  /\ (~ single_octet m -> ~ single_halfword m ->
      bytesPerElement_of (byteMask_of m) = 4).
Proof.
  intros Hm Hnz. rewrite bytesPerElement_of_touched.
  destruct (touched m 3) eqn:T3; destruct (touched m 2) eqn:T2;
    destruct (touched m 1) eqn:T1; destruct (touched m 0) eqn:T0;
    try (exfalso; apply Hnz; apply untouched_zero; assumption);
    (split; [| split]); intros; try reflexivity; exfalso;
    first
      [ octet_clash
      | match goal with
        | H : ~ single_octet m |- _ =>
            apply H;
            first [ exists 0; split; [lia | octet_within]
                  | exists 1; split; [lia | octet_within]
                  | exists 2; split; [lia | octet_within]
                  | exists 3; split; [lia | octet_within] ]
        end
      | match goal with
        | H : ~ single_halfword m |- _ =>
            apply H; first [left; octet_within | right; octet_within]
        end ].
Qed.

Lemma u32_range (x : Z) : 0 <= u32 x < 2 ^ 32.
Proof. unfold u32. apply Z.mod_pos_bound. reflexivity. Qed.

Lemma lor_u32_range (a b : Z) :
  0 <= a < 2 ^ 32 -> 0 <= b < 2 ^ 32 -> 0 <= Z.lor a b < 2 ^ 32.
Proof.
  intros Ha Hb. split; [apply Z.lor_nonneg; lia |].
  destruct (Z.eq_dec (Z.lor a b) 0) as [-> | Hnz]; [reflexivity |].
  apply Z.log2_lt_pow2; [pose proof (Z.lor_nonneg a b); lia |].
  rewrite Z.log2_lor by lia.
  apply Z.max_lub_lt.
  - destruct (Z.eq_dec a 0) as [-> | Ha0]; [reflexivity |].
    apply Z.log2_lt_pow2; lia.
  - destruct (Z.eq_dec b 0) as [-> | Hb0]; [reflexivity |].
    apply Z.log2_lt_pow2; lia.
Qed.

Lemma bitMask_of_pins_range (A : Arch) (core : Protomatter_core) (idx : list Z)
    (bitMask : Z) :
  bitMask_of_pins A core idx = Some bitMask -> 0 <= bitMask < 2 ^ 32.
Proof.
  unfold bitMask_of_pins.
  assert (Hinit : 0 <= (if has_toggle A
                        then u32 (_PM_portBitMask A (clockPin core)) else 0)
                  < 2 ^ 32)
    by (destruct (has_toggle A); [apply u32_range | split; [lia | reflexivity]]).
  revert Hinit.
  generalize (if has_toggle A then u32 (_PM_portBitMask A (clockPin core)) else 0).
  induction idx as [| i idx IH]; intros acc Hacc; cbn [fold_left].
  - intros H. injection H as <-. exact Hacc.
  - destruct (_PM_portOutRegister A (get 0 (rgbPins core) i)
              =? _PM_portOutRegister A (clockPin core)).
    + apply IH. apply lor_u32_range; [exact Hacc | apply u32_range].
    + clear IH. induction idx as [| j idx IH']; cbn [fold_left];
        [discriminate | exact IH'].
Qed.

Lemma scan_pins_range (A : Arch) (core : Protomatter_core) (bitMask : Z) :
  scan_pins A core = Ret (Some bitMask) -> 0 <= bitMask < 2 ^ 32.
Proof.
  unfold scan_pins.
  destruct (255 <? parallel core * 6).
  - destruct (bitMask_of_pins A core (map Z.of_nat (seq 0 256))); discriminate.
  - destruct (rgb_indices core) as [idx | |]; cbn [bind]; try discriminate.
    intros H. injection H as H. eapply bitMask_of_pins_range. exact H.
Qed.

(** What a successful [_PM_begin] has computed. *)
Lemma begin_ok_inv (A : Arch) (core core' : Protomatter_core) (h h' : heap)
    (tr : list event) :
  _PM_begin A (Some core) h = Ret (PROTOMATTER_OK, Some core', h', tr) ->
  exists bitMask idx sp tables minP p,
    scan_pins A core = Ret (Some bitMask)
    /\ rgb_indices core = Ret idx
    /\ plan_screen A core bitMask = Ret sp
    /\ remap_tables A (numPlanes core) = Ret tables
    /\ min_period A (sp_numRowPairs sp) (numPlanes core) = Ret minP
    /\ _PM_ALLOCATOR h (u32 (sp_screenBytes sp + sp_rgbMaskBytes sp)) = (p, h')
    /\ p <> NULL
    /\ screenData core' = p
    /\ base (rgbMask core') = p + sp_screenBytes sp
    /\ bytesPerElement core' = sp_bytesPerElement sp
    /\ numRowPairs core' = sp_numRowPairs sp
    /\ bufferSize core' = sp_bufferSize sp
    /\ minPeriod core' = minP
    /\ remap_rb core' = fst tables
    /\ remap_g core' = snd tables
    /\ portOffset core'
       = mp_portOffset (plan_masks A core bitMask (sp_bytesPerElement sp) p
                                   (sp_screenBytes sp) idx)
    /\ numPlanes core' = numPlanes core
    /\ width core' = width core
    /\ parallel core' = parallel core
    /\ doubleBuffer core' = doubleBuffer core
    /\ numAddressLines core' = numAddressLines core
    /\ rgbPins core' = rgbPins core
    /\ base (addr core') = base (addr core).
Proof.
  intros H. unfold _PM_begin in H.
  destruct (base (rgbPins core) =? NULL); [discriminate |].
  destruct (scan_pins A core) as [[bitMask |] | |] eqn:Hscan;
    cbn [bind] in H; try discriminate.
  destruct (rgb_indices core) as [idx | |] eqn:Hidx;
    cbn [bind] in H; try discriminate.
  destruct (plan_screen A core bitMask) as [sp | |] eqn:Hsp;
    cbn [bind] in H; try discriminate.
  cbv zeta in H.
  destruct (_PM_ALLOCATOR h (u32 (sp_screenBytes sp + sp_rgbMaskBytes sp)))
    as [p h1] eqn:Halloc.
  destruct (Z.eqb_spec p NULL) as [Hp | Hp]; [discriminate |].
  destruct (remap_tables A (numPlanes core)) as [tables | |] eqn:Htab;
    cbn [bind] in H; try discriminate.
  destruct (min_period A (sp_numRowPairs sp) (numPlanes core)) as [minP | |]
    eqn:Hmin; cbn [bind] in H; try discriminate.
  destruct (shl_int 1 (numAddressLines core)) as [full | |];
    cbn [bind] in H; try discriminate.
  unfold _PM_resume in H.
  injection H as Hcore Hh Htr. subst core' h1.
  exists bitMask, idx, sp, tables, minP, p.
  cbn. repeat split; try reflexivity; assumption.
Qed.

(** The empty mask (no RGB pin, no toggle register) is none of the compact
    cases: it takes the default of the [switch]. *)
Example element_width_empty_mask : bytesPerElement_of (byteMask_of 0) = 4.
Proof. reflexivity. Qed.

Lemma plan_screen_inv (A : Arch) (core : Protomatter_core) (bitMask : Z)
    (sp : screen_plan) :
  plan_screen A core bitMask = Ret sp ->
  exists full,
    shl_int 1 (numAddressLines core) = Ret full
    /\ sp_bytesPerElement sp = bytesPerElement_of (byteMask_of bitMask)
    /\ sp_numRowPairs sp = u8 full
    /\ sp_columns sp = u16 (u8 (chunk_count A core) * chunkSize A)
    /\ sp_bufferSize sp
       = sp_columns sp * sp_numRowPairs sp * numPlanes core * sp_bytesPerElement sp
    /\ sp_bufferSize sp <= INT_MAX
    /\ sp_screenBytes sp
       = (if doubleBuffer core then u32 (sp_bufferSize sp * 2)
          else sp_bufferSize sp)
    /\ sp_rgbMaskBytes sp = parallel core * 6 * sp_bytesPerElement sp.
Proof.
  unfold plan_screen. intros H.
  destruct (shl_int 1 (numAddressLines core)) as [full | |] eqn:Hfull;
    cbn [bind] in H; try discriminate.
  cbv zeta in H. unfold mul_int in H.
  destruct (_ <=? INT_MAX) in H; cbn [bind] in H; try discriminate.
  destruct (_ <=? INT_MAX) in H; cbn [bind] in H; try discriminate.
  destruct (Z.leb_spec
              (u16 (u8 (chunk_count A core) * chunkSize A) * u8 full
               * numPlanes core * bytesPerElement_of (byteMask_of bitMask))
              INT_MAX) as [Hle | Hgt]; cbn [bind] in H; try discriminate.
  injection H as <-. exists full. cbn.
  repeat split; try reflexivity; assumption.
Qed.

Lemma bytesPerElement_of_values (b : Z) :
  bytesPerElement_of b = 1 \/ bytesPerElement_of b = 2 \/ bytesPerElement_of b = 4.
Proof.
  unfold bytesPerElement_of.
  destruct b as [| p | p]; auto.
  repeat (destruct p as [p | p |]; auto).
Qed.

(** C1: for every (non-empty) 32-bit union bitMask of the RGB pin masks,
    with the clock mask when there is a toggle register, the layout planner
    of begin picks bytesPerElement = 1 when all set bits lie in one octet
    of the port, 2 when they lie in the lower half-word (octets 0-1) or in
    the upper half-word (octets 2-3), and 4 with portOffset = 0 in every
    other case, the middle two octets 1-2 included. *)
Theorem C1_element_width (A : Arch) (core core' : Protomatter_core)
    (h h' : heap) (tr : list event) (bitMask : Z) :
  _PM_begin A (Some core) h = Ret (PROTOMATTER_OK, Some core', h', tr) ->
  scan_pins A core = Ret (Some bitMask) ->
  bitMask <> 0 ->
  0 <= bitMask < 2 ^ 32
  /\ (single_octet bitMask -> bytesPerElement core' = 1)
  /\ (~ single_octet bitMask -> single_halfword bitMask ->
      bytesPerElement core' = 2)
  /\ (~ single_octet bitMask -> ~ single_halfword bitMask ->
      bytesPerElement core' = 4 /\ portOffset core' = 0)
  /\ (bits_within 8 24 bitMask -> ~ single_octet bitMask ->
      bytesPerElement core' = 4 /\ portOffset core' = 0).
Proof.
  intros Hbegin Hscan Hnz.
  pose proof (scan_pins_range A core bitMask Hscan) as Hm.
  destruct (begin_ok_inv A core core' h h' tr Hbegin)
    as (bitMask' & idx & sp & tables & minP & p & Hscan' & _ & Hsp & _ & _ & _
        & _ & _ & _ & Hbpe & _ & _ & _ & _ & _ & Hoff & _).
  rewrite Hscan in Hscan'. injection Hscan' as <-.
  destruct (plan_screen_inv A core bitMask sp Hsp) as (full & _ & Hw & _).
  rewrite Hbpe, Hoff, Hw.
  destruct (element_width_classes bitMask Hm Hnz) as (H1 & H2 & H4).
  assert (Hlong : bytesPerElement_of (byteMask_of bitMask) = 4 ->
                  bytesPerElement_of (byteMask_of bitMask) = 4
                  /\ mp_portOffset
                       (plan_masks A core bitMask
                          (bytesPerElement_of (byteMask_of bitMask)) p
                          (sp_screenBytes sp) idx) = 0).
  { intros E. rewrite E. split; reflexivity. }
  split; [exact Hm |].
  split; [exact H1 |].
  split; [exact H2 |].
  split.
  - intros Hn1 Hn2. apply Hlong, H4; assumption.
  - intros Hmid Hn1. apply Hlong, H4; [assumption |].
    intros [Hlo | Hhi]; apply Hn1.
    + exists 1. split; [lia |]. intros i Hb.
      specialize (Hlo i Hb). specialize (Hmid i Hb). lia.
    + exists 2. split; [lia |]. intros i Hb.
      specialize (Hhi i Hb). specialize (Hmid i Hb). lia.
Qed.

Lemma C1_element_width_witness :
  scan_pins (sample_arch true) (fst (initialised true 64 4 4 16 false))
  = Ret (Some 0x1003F)
  /\ bytesPerElement (started_core true 64 4 4 16 false) = 4
  /\ portOffset (started_core true 64 4 4 16 false) = 0.
Proof.
  assert (Hbegin :
            _PM_begin (sample_arch true)
                      (Some (fst (initialised true 64 4 4 16 false)))
                      (snd (initialised true 64 4 4 16 false))
            = Ret (PROTOMATTER_OK, Some (started_core true 64 4 4 16 false),
                   started_heap true 64 4 4 16 false,
                   started_trace true 64 4 4 16 false))
    by (vm_compute; reflexivity).
  assert (Hscan :
            scan_pins (sample_arch true) (fst (initialised true 64 4 4 16 false))
            = Ret (Some 0x1003F))
    by (vm_compute; reflexivity).
  assert (T0 : touched 0x1003F 0 = true) by reflexivity.
  assert (T2 : touched 0x1003F 2 = true) by reflexivity.
  destruct (C1_element_width _ _ _ _ _ _ _ Hbegin Hscan ltac:(discriminate))
    as (_ & _ & _ & H4 & _).
  split; [exact Hscan |].
  apply H4; intros Hs; octet_clash.
Defined.

Lemma shl_int_inv (a n r : Z) :
  shl_int a n = Ret r ->
  0 <= n < 32 /\ 0 <= a /\ r = a * 2 ^ n /\ r <= INT_MAX.
Proof.
  unfold shl_int.
  destruct (Z.leb_spec 0 n) as [H1 | H1]; [| discriminate].
  destruct (Z.ltb_spec n 32) as [H2 | H2]; [| discriminate].
  destruct (Z.leb_spec 0 a) as [H3 | H3]; [| discriminate].
  destruct (Z.leb_spec (a * 2 ^ n) INT_MAX) as [H4 | H4]; [| discriminate].
  cbn [andb]. intros H. injection H as <-. repeat split; assumption.
Qed.

(** ** Buffer sizes *)

(** A successful begin sizes the buffers from [chunks], the chunk count
    kept in 8 bits. *)
Lemma begin_buffer_size (A : Arch) (core core' : Protomatter_core)
    (h h' : heap) (tr : list event) :
  _PM_begin A (Some core) h = Ret (PROTOMATTER_OK, Some core', h', tr) ->
  exists full,
    shl_int 1 (numAddressLines core') = Ret full
    /\ numRowPairs core' = u8 full
    /\ bufferSize core'
       = u16 (u8 (chunk_count A core') * chunkSize A)
         * numRowPairs core' * numPlanes core' * bytesPerElement core'
    /\ bufferSize core' <= INT_MAX
    /\ (bytesPerElement core' = 1 \/ bytesPerElement core' = 2
        \/ bytesPerElement core' = 4)
    /\ exists p,
        screenData core' = p /\ p <> NULL
        /\ _PM_ALLOCATOR h
             (u32 ((if doubleBuffer core' then u32 (bufferSize core' * 2)
                    else bufferSize core')
                   + parallel core' * 6 * bytesPerElement core'))
           = (p, h').
Proof.
  intros Hbegin.
  destruct (begin_ok_inv A core core' h h' tr Hbegin)
    as (bitMask & idx & sp & tables & minP & p & _ & _ & Hsp & _ & _ & Halloc
        & Hp & Hsd & _ & Hbpe & Hrows & Hsize & _ & _ & _ & _ & Hplanes & Hwidth
        & Hpar & Hdb & Hlines & _).
  destruct (plan_screen_inv A core bitMask sp Hsp)
    as (full & Hfull & Hw & Hr & Hcol & Hbuf & Hmax & Hbytes & Hmask).
  exists full.
  unfold chunk_count.
  rewrite Hlines, Hrows, Hsize, Hbpe, Hplanes, Hwidth, Hdb, Hpar.
  split; [exact Hfull |]. split; [exact Hr |].
  split; [rewrite Hbuf, Hcol; reflexivity |].
  split; [exact Hmax |].
  split; [rewrite Hw; apply bytesPerElement_of_values |].
  exists p. split; [exact Hsd |]. split; [exact Hp |].
  rewrite <- Hbytes, <- Hmask. exact Halloc.
Qed.

(** C2, at a wide chain: 2048 columns with eight-way unrolling make 256
    chunks, which the 8-bit [chunks] of begin holds as 0.  begin succeeds
    with bufferSize = 0, where columns * numRowPairs * numPlanes *
    bytesPerElement with columns = ceil(width / chunkSize) * chunkSize is
    2048 * 16 * 4 * 1 = 131072; the row handler, which does not narrow the
    chunk count, steps through the buffer 2048 elements per line. *)
Theorem C2_buffer_size_wide_chain :
  _PM_begin (sample_arch true)
            (Some (fst (initialised true 2048 4 4 6 false)))
            (snd (initialised true 2048 4 4 6 false))
  = Ret (PROTOMATTER_OK, Some (started_core true 2048 4 4 6 false),
         started_heap true 2048 4 4 6 false,
         started_trace true 2048 4 4 6 false)
  /\ (width (started_core true 2048 4 4 6 false),
      numRowPairs (started_core true 2048 4 4 6 false),
      numPlanes (started_core true 2048 4 4 6 false),
      bytesPerElement (started_core true 2048 4 4 6 false))
     = (2048, 16, 4, 1)
  /\ bufferSize (started_core true 2048 4 4 6 false) = 0
  /\ u8 (chunk_count (sample_arch true) (started_core true 2048 4 4 6 false)) = 0
  /\ chunkSize (sample_arch true)
     * chunk_count (sample_arch true) (started_core true 2048 4 4 6 false)
     = 2048
  /\ (2048 + (8 - 1)) / 8 * 8 * 16 * 4 * 1 = 131072.
Proof. vm_compute. repeat split; reflexivity. Qed.

(** Whenever the chunk count fits its 8-bit variable, a successful begin has
    bufferSize = columns * numRowPairs * numPlanes * bytesPerElement with
    columns = ceil(width / chunkSize) * chunkSize and numRowPairs =
    1 << numAddressLines, and the allocation is bufferSize * (1 +
    doubleBuffer) + 6 * parallel * bytesPerElement bytes. *)
Theorem begin_buffer_size_exact (A : Arch) (core core' : Protomatter_core)
    (h h' : heap) (tr : list event) :
  _PM_begin A (Some core) h = Ret (PROTOMATTER_OK, Some core', h', tr) ->
  core_typed core' ->
  (width core' + (chunkSize A - 1)) / chunkSize A <= 255 ->
  chunkSize A <= 64 ->
  numAddressLines core' <= 7 ->
  let columns := (width core' + (chunkSize A - 1)) / chunkSize A * chunkSize A in
  numRowPairs core' = Z.shiftl 1 (numAddressLines core')
  /\ bufferSize core'
     = columns * numRowPairs core' * numPlanes core' * bytesPerElement core'
  /\ snd (_PM_ALLOCATOR h
            (bufferSize core' * (1 + (if doubleBuffer core' then 1 else 0))
             + 6 * parallel core' * bytesPerElement core'))
     = h'
  /\ fst (_PM_ALLOCATOR h
            (bufferSize core' * (1 + (if doubleBuffer core' then 1 else 0))
             + 6 * parallel core' * bytesPerElement core'))
     = screenData core'.
Proof.
  intros Hbegin (Hw & Hn & Hpar & Hl) Hchunks Hcs Hlines columns.
  destruct (begin_buffer_size A core core' h h' tr Hbegin)
    as (full & Hfull & Hrows & Hbuf & Hmax & Hbpe & p & Hsd & Hp & Halloc).
  unfold chunk_count in Hbuf.
  assert (Hcs0 : 0 < chunkSize A) by (unfold chunkSize; lia).
  assert (Hq : 0 <= (width core' + (chunkSize A - 1)) / chunkSize A)
    by (apply Z.div_pos; lia).
  rewrite (u8_small ((width core' + (chunkSize A - 1)) / chunkSize A)) in Hbuf
    by lia.
  assert (Hcol : 0 <= columns <= 16320) by (unfold columns; nia).
  unfold u16 in Hbuf. rewrite Z.mod_small in Hbuf by (fold columns; simpl; lia).
  fold columns in Hbuf.
  apply shl_int_inv in Hfull. destruct Hfull as (_ & _ & -> & _).
  rewrite Z.mul_1_l in Hrows.
  assert (Hpow : 1 <= 2 ^ numAddressLines core' <= 128).
  { split; [pose proof (Z.pow_pos_nonneg 2 (numAddressLines core')); lia |].
    change 128 with (2 ^ 7). apply Z.pow_le_mono_r; lia. }
  rewrite u8_small in Hrows by lia.
  assert (Hsz : 0 <= bufferSize core' <= 16320 * 128 * 255 * 4).
  { rewrite Hbuf, Hrows.
    set (q := 2 ^ numAddressLines core') in *.
    assert (H1 : 0 <= columns * q <= 16320 * 128) by nia.
    set (c1 := columns * q) in *.
    assert (H2 : 0 <= c1 * numPlanes core' <= 16320 * 128 * 255) by nia.
    set (c2 := c1 * numPlanes core') in *.
    destruct Hbpe as [-> | [-> | ->]]; lia. }
  assert (Htotal :
            u32 ((if doubleBuffer core' then u32 (bufferSize core' * 2)
                  else bufferSize core')
                 + parallel core' * 6 * bytesPerElement core')
            = bufferSize core' * (1 + (if doubleBuffer core' then 1 else 0))
              + 6 * parallel core' * bytesPerElement core').
  { rewrite (u32_small (bufferSize core' * 2)) by (simpl; lia).
    rewrite u32_small
      by (destruct (doubleBuffer core'); destruct Hbpe as [-> | [-> | ->]];
          simpl; lia).
    destruct (doubleBuffer core'); lia. }
  rewrite <- Htotal, Halloc.
  split; [rewrite Hrows, Z.shiftl_1_l; reflexivity |].
  split; [exact Hbuf |].
  split; [reflexivity | symmetry; exact Hsd].
Qed.

Lemma begin_buffer_size_exact_witness :
  (width sample_core, numPlanes sample_core, numAddressLines sample_core,
   bytesPerElement sample_core) = (64, 4, 4, 1)
  /\ numRowPairs sample_core = 16
  /\ bufferSize sample_core = 4096.
Proof.
  assert (Hbegin :
            _PM_begin (sample_arch true)
                      (Some (fst (initialised true 64 4 4 6 false)))
                      (snd (initialised true 64 4 4 6 false))
            = Ret (PROTOMATTER_OK, Some sample_core,
                   started_heap true 64 4 4 6 false,
                   started_trace true 64 4 4 6 false))
    by (vm_compute; reflexivity).
  destruct (begin_buffer_size_exact _ _ _ _ _ _ Hbegin
              ltac:(closed_facts) ltac:(closed_facts) ltac:(closed_facts)
              ltac:(closed_facts))
    as (Hrows & Hbuf & _).
  split; [reflexivity |].
  split; [rewrite Hrows | rewrite Hbuf]; reflexivity.
Defined.

(** ** The minimum period *)

Lemma min_period_inv (A : Arch) (R P m : Z) :
  min_period A R P = Ret m ->
  R <> 0 /\ 1 <= P <= 30
  /\ m = Z.max (u32 (_PM_minMinPeriod A))
               (u32 (_PM_timerFreq A / _PM_MAX_REFRESH_HZ) / R / (2 ^ P - 1)).
Proof.
  unfold min_period, udiv. cbv zeta.
  destruct (Z.eqb_spec R 0) as [HR | HR]; cbn [bind]; [discriminate |].
  destruct (shl_int 1 P) as [full | |] eqn:Hfull; cbn [bind]; try discriminate.
  apply shl_int_inv in Hfull. destruct Hfull as (HP & _ & Hf & Hmax).
  rewrite Z.mul_1_l in Hf. subst full.
  destruct (Z.eqb_spec (2 ^ P - 1) 0) as [H0 | H0]; cbn [bind]; [discriminate |].
  intros H. injection H as <-.
  split; [exact HR |]. split.
  - split.
    + destruct (Z.eq_dec P 0) as [-> | Hne]; [exfalso; apply H0; reflexivity | lia].
    + destruct (Z.eq_dec P 31) as [-> | Hne]; [| lia].
      unfold INT_MAX in Hmax. lia.
  - destruct (Z.ltb_spec
                (u32 (_PM_timerFreq A / _PM_MAX_REFRESH_HZ) / R / (2 ^ P - 1))
                (u32 (_PM_minMinPeriod A))); lia.
Qed.

(** C9: after every successful begin, minPeriod is the result of the
    integer divisions ((timerFreq / 250) / numRowPairs) /
    ((1 << numPlanes) - 1), taken one after the other, raised to the
    architecture's minMinPeriod when it is smaller. *)
Theorem C9_min_period (A : Arch) (core core' : Protomatter_core)
    (h h' : heap) (tr : list event) :
  _PM_begin A (Some core) h = Ret (PROTOMATTER_OK, Some core', h', tr) ->
  0 <= _PM_timerFreq A < 2 ^ 32 ->
  0 <= _PM_minMinPeriod A < 2 ^ 32 ->
  minPeriod core'
  = Z.max (_PM_minMinPeriod A)
          (_PM_timerFreq A / 250 / numRowPairs core'
           / (Z.shiftl 1 (numPlanes core') - 1))
  /\ numRowPairs core' <> 0
  /\ 1 <= numPlanes core' <= 30.
Proof.
  intros Hbegin Hfreq Hmin.
  destruct (begin_ok_inv A core core' h h' tr Hbegin)
    as (bitMask & idx & sp & tables & minP & p & _ & _ & _ & _ & Hmp & _
        & _ & _ & _ & _ & Hrows & _ & HminP & _ & _ & _ & Hplanes & _).
  apply min_period_inv in Hmp. destruct Hmp as (HR & HP & Hval).
  rewrite HminP, Hrows, Hplanes, Hval, Z.shiftl_1_l.
  rewrite (u32_small (_PM_minMinPeriod A)) by exact Hmin.
  rewrite u32_small.
  - change _PM_MAX_REFRESH_HZ with 250. auto.
  - unfold _PM_MAX_REFRESH_HZ. split.
    + apply Z.div_pos; lia.
    + apply Z.div_lt_upper_bound; lia.
Qed.

Lemma C9_min_period_witness :
  (numRowPairs sample_core, numPlanes sample_core) = (16, 4)
  /\ minPeriod sample_core = 800
  /\ minPeriod (started_core true 64 10 5 6 false) = 160.
Proof.
  assert (Hbegin :
            _PM_begin (sample_arch true)
                      (Some (fst (initialised true 64 4 4 6 false)))
                      (snd (initialised true 64 4 4 6 false))
            = Ret (PROTOMATTER_OK, Some sample_core,
                   started_heap true 64 4 4 6 false,
                   started_trace true 64 4 4 6 false))
    by (vm_compute; reflexivity).
  assert (Hbegin10 :
            _PM_begin (sample_arch true)
                      (Some (fst (initialised true 64 10 5 6 false)))
                      (snd (initialised true 64 10 5 6 false))
            = Ret (PROTOMATTER_OK, Some (started_core true 64 10 5 6 false),
                   started_heap true 64 10 5 6 false,
                   started_trace true 64 10 5 6 false))
    by (vm_compute; reflexivity).
  destruct (C9_min_period _ _ _ _ _ _ Hbegin
              ltac:(closed_facts) ltac:(closed_facts)) as (H & _).
  destruct (C9_min_period _ _ _ _ _ _ Hbegin10
              ltac:(closed_facts) ltac:(closed_facts)) as (H10 & _).
  split; [reflexivity |].
  split; [rewrite H | rewrite H10]; reflexivity.
Defined.

(** ** Remap tables *)

Lemma mapM_nth_error {X Y : Type} (f : X -> result Y) (l : list X) :
  forall ys, mapM f l = Ret ys ->
  length ys = length l
  /\ forall i x, nth_error l i = Some x ->
       exists y, f x = Ret y /\ nth_error ys i = Some y.
Proof.
  induction l as [| a l IH]; cbn [mapM]; intros ys H.
  - injection H as <-. split; [reflexivity |]. intros [| i] x Hx; discriminate.
  - destruct (f a) as [y | |] eqn:Hfa; cbn [bind] in H; try discriminate.
    destruct (mapM f l) as [ys' | |]; cbn [bind] in H; try discriminate.
    injection H as <-. destruct (IH ys' eq_refl) as [Hlen Hnth].
    split; [cbn [length]; rewrite Hlen; reflexivity |].
    intros [| i] x Hx; cbn [nth_error] in *.
    + injection Hx as <-. exists y. split; [exact Hfa | reflexivity].
    + apply Hnth. exact Hx.
Qed.

Section Gamma.
Variable A : Arch.
Hypothesis pow_zero : pow A 0%float _PM_GAMMA = 0%float.
Hypothesis pow_one : pow A 1%float _PM_GAMMA = 1%float.

(** With [pow] exact at 0 and at 1, the gamma curve starts at 0 and ends
    at [top], for the bit depths 7 to 12. *)
Lemma gamma_entry_first (n : Z) (full : float) :
  7 <= n <= 12 -> full = 31%float \/ full = 63%float ->
  gamma_entry A (float_of_int (2 ^ n - 1)) full 0 = Ret 0.
Proof.
  intros Hn Hfull. unfold gamma_entry.
  replace (PrimFloat.div (float_of_int 0) full) with 0%float
    by (destruct Hfull as [-> | ->]; vm_compute; reflexivity).
  rewrite pow_zero.
  assert (Hc : n = 7 \/ n = 8 \/ n = 9 \/ n = 10 \/ n = 11 \/ n = 12) by lia.
  destruct Hc as [-> | [-> | [-> | [-> | [-> | ->]]]]]; vm_compute; reflexivity.
Qed.

Lemma gamma_entry_last (n i : Z) (full : float) :
  7 <= n <= 12 -> (i = 31 /\ full = 31%float) \/ (i = 63 /\ full = 63%float) ->
  gamma_entry A (float_of_int (2 ^ n - 1)) full i = Ret (2 ^ n - 1).
Proof.
  intros Hn Hfull. unfold gamma_entry.
  replace (PrimFloat.div (float_of_int i) full) with 1%float
    by (destruct Hfull as [[-> ->] | [-> ->]]; vm_compute; reflexivity).
  rewrite pow_one.
  assert (Hc : n = 7 \/ n = 8 \/ n = 9 \/ n = 10 \/ n = 11 \/ n = 12) by lia.
  destruct Hc as [-> | [-> | [-> | [-> | [-> | ->]]]]]; vm_compute; reflexivity.
Qed.

Lemma remap_tables_endpoints (n : Z) (rb g : list Z) :
  1 <= n <= 12 ->
  remap_tables A n = Ret (rb, g) ->
  (length rb = 32%nat /\ length g = 64%nat)
  /\ nth_error rb 0 = Some 0
  /\ nth_error rb 31 = Some (2 ^ n - 1)
  /\ nth_error g 0 = Some 0
  /\ nth_error g 63 = Some (2 ^ n - 1).
Proof.
  intros Hn H.
  destruct (Z.le_gt_cases n 6) as [Hlin | Hgam].
  - assert (Hc : n = 1 \/ n = 2 \/ n = 3 \/ n = 4 \/ n = 5 \/ n = 6) by lia.
    destruct Hc as [-> | [-> | [-> | [-> | [-> | ->]]]]];
      vm_compute in H; injection H as <- <-; vm_compute;
      repeat split; reflexivity.
  - unfold remap_tables in H.
    replace (n <? 6) with false in H by (symmetry; apply Z.ltb_ge; lia).
    replace (n =? 6) with false in H by (symmetry; apply Z.eqb_neq; lia).
    destruct (shl_int 1 n) as [full | |] eqn:Hfull; cbn [bind] in H;
      try discriminate.
    apply shl_int_inv in Hfull. destruct Hfull as (_ & _ & -> & _).
    rewrite Z.mul_1_l in H.
    destruct (mapM (gamma_entry A (float_of_int (2 ^ n - 1)) 31%float)
                   (color_indices 32)) as [rb' | |] eqn:Hrb;
      cbn [bind] in H; try discriminate.
    destruct (mapM (gamma_entry A (float_of_int (2 ^ n - 1)) 63%float)
                   (color_indices 64)) as [g' | |] eqn:Hg;
      cbn [bind] in H; try discriminate.
    injection H as <- <-.
    destruct (mapM_nth_error _ _ _ Hrb) as [Lrb Nrb].
    destruct (mapM_nth_error _ _ _ Hg) as [Lg Ng].
    destruct (Nrb 0%nat 0 eq_refl) as (y0 & E0 & N0).
    destruct (Nrb 31%nat 31 eq_refl) as (y31 & E31 & N31).
    destruct (Ng 0%nat 0 eq_refl) as (z0 & F0 & M0).
    destruct (Ng 63%nat 63 eq_refl) as (z63 & F63 & M63).
    rewrite gamma_entry_first in E0, F0 by (auto; lia).
    rewrite gamma_entry_last in E31, F63 by (auto; lia).
    injection E0 as <-. injection E31 as <-.
    injection F0 as <-. injection F63 as <-.
    repeat split; assumption.
Qed.
End Gamma.

(** C7: for every numPlanes from 1 to 12, the remap tables built by begin
    have remap_rb[0] = 0, remap_rb[31] = (1 << numPlanes) - 1, remap_g[0] =
    0 and remap_g[63] = (1 << numPlanes) - 1, whichever of the three
    constructions applies (right shift below 6 planes, bit replication and
    identity at 6, gamma 2.6 with rounding above 6); [pow] enters only
    through its values at 0 and at 1, which C fixes to 0 and 1. *)
Theorem C7_remap_endpoints (A : Arch) (core core' : Protomatter_core)
    (h h' : heap) (tr : list event) :
  _PM_begin A (Some core) h = Ret (PROTOMATTER_OK, Some core', h', tr) ->
  1 <= numPlanes core' <= 12 ->
  pow A 0%float _PM_GAMMA = 0%float ->
  pow A 1%float _PM_GAMMA = 1%float ->
  (length (remap_rb core') = 32%nat /\ length (remap_g core') = 64%nat)
  /\ nth_error (remap_rb core') 0 = Some 0
  /\ nth_error (remap_rb core') 31 = Some (Z.shiftl 1 (numPlanes core') - 1)
  /\ nth_error (remap_g core') 0 = Some 0
  /\ nth_error (remap_g core') 63 = Some (Z.shiftl 1 (numPlanes core') - 1).
Proof.
  intros Hbegin Hn Hp0 Hp1.
  destruct (begin_ok_inv A core core' h h' tr Hbegin)
    as (bitMask & idx & sp & tables & minP & p & _ & _ & _ & Htab & _ & _
        & _ & _ & _ & _ & _ & _ & _ & Hrb & Hg & _ & Hplanes & _).
  rewrite Hrb, Hg, Hplanes, Z.shiftl_1_l. rewrite Hplanes in Hn.
  destruct tables as [rb g]. cbn [fst snd].
  exact (remap_tables_endpoints A Hp0 Hp1 (numPlanes core) rb g Hn Htab).
Qed.

Lemma C7_remap_endpoints_witness :
  numPlanes (started_core true 64 8 4 6 false) = 8
  /\ nth_error (remap_rb (started_core true 64 8 4 6 false)) 0 = Some 0
  /\ nth_error (remap_rb (started_core true 64 8 4 6 false)) 31 = Some 255
  /\ nth_error (remap_g (started_core true 64 8 4 6 false)) 0 = Some 0
  /\ nth_error (remap_g (started_core true 64 8 4 6 false)) 63 = Some 255.
Proof.
  assert (Hbegin :
            _PM_begin (sample_arch true)
                      (Some (fst (initialised true 64 8 4 6 false)))
                      (snd (initialised true 64 8 4 6 false))
            = Ret (PROTOMATTER_OK, Some (started_core true 64 8 4 6 false),
                   started_heap true 64 8 4 6 false,
                   started_trace true 64 8 4 6 false))
    by (vm_compute; reflexivity).
  destruct (C7_remap_endpoints _ _ _ _ _ _ Hbegin
              ltac:(closed_facts) ltac:(vm_compute; reflexivity)
              ltac:(vm_compute; reflexivity))
    as (_ & H0 & H31 & G0 & G63).
  split; [reflexivity |].
  repeat split; assumption.
Defined.

(** ** Releasing memory *)



Lemma releases_app (tr1 tr2 : list event) :
  releases (tr1 ++ tr2) = releases tr1 ++ releases tr2.
Proof. unfold releases. apply flat_map_app. Qed.

(** [_PM_stop] returns in a stoppable state, and releases nothing. *)
Lemma stop_returns (A : Arch) (core : Protomatter_core) :
  stoppable A core ->
  exists stopped, _PM_stop A (Some core) = Ret stopped /\ releases stopped = [].
Proof.
  intros (Hswap & Hpar & Hoe & Hls & Hlc & Hpins).
  unfold _PM_stop, rgb_indices. rewrite Hswap, Hoe, Hls, Hlc.
  replace ((0 <? parallel core * 6) && (base (rgbPins core) =? NULL))
    with false.
  2:{ symmetry. destruct Hpins as [Hp | Hp].
      - apply Z.eqb_neq in Hp. rewrite Hp. apply andb_false_r.
      - replace (0 <? parallel core * 6) with false
          by (symmetry; apply Z.ltb_ge; exact Hp).
        reflexivity. }
  replace (255 <? parallel core * 6) with false
    by (symmetry; apply Z.ltb_ge; lia).
  cbn [bind negb andb]. eexists. split; [reflexivity |].
  rewrite !releases_app. cbn [releases flat_map app].
  assert (H1 : forall l : list Z,
             releases (map (fun i => PinLow (get 0 (rgbPins core) i)) l) = [])
    by (induction l as [| x l IH]; [reflexivity | exact IH]).
  assert (H2 : forall n : nat,
             releases (concat (repeat [PinHigh (clockPin core); ClockHoldHigh;
                                       PinLow (clockPin core); ClockHoldLow] n))
             = [])
    by (induction n as [| n IH]; [reflexivity | exact IH]).
  rewrite H1, H2. reflexivity.
Qed.

(** [_PM_stop] stores through the OE register first: with the OE
    structure unbound it is undefined. *)
Lemma stop_unbound (A : Arch) (core : Protomatter_core) :
  swapBuffers core = false -> set_bound A (oe core) = false ->
  _PM_stop A (Some core) = Undef.
Proof.
  intros Hswap Hoe. unfold _PM_stop. rewrite Hswap, Hoe. reflexivity.
Qed.

(** With a pin to drive low and no pin list, [_PM_stop] is undefined. *)
Lemma stop_null_pins (A : Arch) (core : Protomatter_core) :
  swapBuffers core = false -> base (rgbPins core) = NULL ->
  0 < parallel core * 6 ->
  _PM_stop A (Some core) = Undef.
Proof.
  intros Hswap Hnull Hpar. unfold _PM_stop. rewrite Hswap, Hnull.
  destruct (set_bound A (oe core)); cbn [negb]; [| reflexivity].
  replace (0 <? parallel core * 6) with true
    by (symmetry; apply Z.ltb_lt; exact Hpar).
  reflexivity.
Qed.

Lemma free_undefined (A : Arch) (core : Protomatter_core) (h : heap) :
  _PM_stop A (Some core) = Undef -> _PM_free A (Some core) h = Undef.
Proof. intros H. unfold _PM_free. rewrite H. reflexivity. Qed.

(** A null set-register pointer is not the register of the pin, unless
    the architecture has that register at address 0. *)
Lemma null_unbound (A : Arch) (x : _PM_pin) :
  pin_setReg x = NULL -> _PM_portSetRegister A (pin_pin x) <> NULL ->
  set_bound A x = false.
Proof.
  intros Hnull Hreg. unfold set_bound. rewrite Hnull.
  apply Z.eqb_neq. intros E. apply Hreg. symmetry. exact E.
Qed.

(** What [_PM_free] does to the core, the heap and the trace. *)
Lemma free_returns (A : Arch) (core : Protomatter_core) (h : heap) :
  stoppable A core ->
  exists core' h' tr,
    _PM_free A (Some core) h = Ret (Some core', h', tr)
    /\ only_rgbPins_differs core core'
    /\ rgbPins core'
       = (if base (rgbPins core) =? NULL then rgbPins core
          else {| base := NULL; elems := elems (rgbPins core) |})
    /\ releases tr
       = (if screenData core =? NULL then [] else [screenData core])
         ++ (if base (addr core) =? NULL then [] else [base (addr core)])
         ++ (if base (rgbPins core) =? NULL then [] else [base (rgbPins core)])
    /\ h' = (let h1 := if screenData core =? NULL then h
                       else _PM_FREE h (screenData core) in
             let h2 := if base (addr core) =? NULL then h1
                       else _PM_FREE h1 (base (addr core)) in
             if base (rgbPins core) =? NULL then h2
             else _PM_FREE h2 (base (rgbPins core))).
Proof.
  intros Hstop.
  destruct (stop_returns A core Hstop) as (stopped & Hstopped & Hrel).
  unfold _PM_free. rewrite Hstopped. cbn [bind].
  destruct (screenData core =? NULL); destruct (base (addr core) =? NULL);
    destruct (base (rgbPins core) =? NULL);
    (eexists; eexists; eexists; split; [reflexivity |]);
    (split; [unfold only_rgbPins_differs; cbn; repeat split |]);
    (split; [reflexivity |]);
    (split; [rewrite !releases_app, Hrel; reflexivity | reflexivity]).
Qed.






(** ** The outcomes of begin *)


Lemma u16_range (x : Z) : 0 <= u16 x < 2 ^ 16.
Proof. unfold u16. apply Z.mod_pos_bound. reflexivity. Qed.



Lemma allocator_cases (h : heap) (n p : Z) (h1 : heap) :
  _PM_ALLOCATOR h n = (p, h1) ->
  (p = NULL /\ h1 = h) \/ (p <> NULL /\ is_live h1 p = true).
Proof.
  unfold _PM_ALLOCATOR. destruct (n <=? avail h); intros H; injection H as <- <-.
  - right. split; [discriminate |].
    unfold is_live. cbn [live existsb fst]. rewrite Z.eqb_refl. reflexivity.
  - left. split; reflexivity.
Qed.

Lemma u8_range (x : Z) : 0 <= u8 x < 2 ^ 8.
Proof. unfold u8. apply Z.mod_pos_bound. reflexivity. Qed.

(** What a successful [_PM_init] leaves in the core. *)
Lemma init_ok_inv (A : Arch) (core0 core : Protomatter_core)
    (bitWidth bitDepth rgbCount : Z) (rgbList : list Z)
    (addrCount : Z) (addrList : list Z)
    (clockPin latchPin oePin : Z) (doubleBuffer : bool) (timer : Z)
    (h0 h : heap) (ev : list event) :
  _PM_init A (Some core0) bitWidth bitDepth rgbCount rgbList addrCount addrList
           clockPin latchPin oePin doubleBuffer timer h0
  = (PROTOMATTER_OK, Some core, h, ev) ->
  base (rgbPins core) <> NULL
  /\ base (addr core) <> NULL
  /\ screenData core = NULL
  /\ 0 <= parallel core <= 5
  /\ 0 <= numAddressLines core <= 5
  /\ core_typed core
  /\ swapBuffers core = swapBuffers core0.
Proof.
  unfold _PM_init.
  destruct (if timer =? NULL then _PM_TIMER_DEFAULT A else Some timer)
    as [timer' |]; [| discriminate].
  cbv zeta.
  set (parallel' := if 5 <? u8 rgbCount then 5 else u8 rgbCount).
  set (lines' := if 5 <? u8 addrCount then 5 else u8 addrCount).
  assert (Hpar : 0 <= parallel' <= 5).
  { unfold parallel'. pose proof (u8_range rgbCount).
    destruct (Z.ltb_spec 5 (u8 rgbCount)); lia. }
  assert (Hlines : 0 <= lines' <= 5).
  { unfold lines'. pose proof (u8_range addrCount).
    destruct (Z.ltb_spec 5 (u8 addrCount)); lia. }
  destruct (_PM_ALLOCATOR h0 (u8 (parallel' * 6) * 1)) as [p1 h1].
  destruct (Z.eqb_spec p1 NULL) as [E1 | E1]; cbn [negb andb].
  - intros H. injection H as H _. discriminate.
  - destruct (_PM_ALLOCATOR h1 (lines' * sizeof_PM_pin)) as [p2 h2].
    destruct (Z.eqb_spec p2 NULL) as [E2 | E2]; cbn [negb andb].
    + intros H. injection H as H _. discriminate.
    + intros H. injection H as <- _ _. cbn.
      pose proof (u16_range bitWidth). pose proof (u8_range bitDepth).
      unfold core_typed. cbn.
      repeat split; try assumption; try lia.
Qed.


Lemma allocator_keeps_live (h : heap) (n p q : Z) (h1 : heap) :
  _PM_ALLOCATOR h n = (p, h1) -> is_live h q = true -> is_live h1 q = true.
Proof.
  unfold _PM_ALLOCATOR. destruct (n <=? avail h); intros H Hq;
    injection H as <- <-; [| exact Hq].
  unfold is_live in *. cbn [live existsb]. rewrite Hq. apply orb_true_r.
Qed.

(** After a successful [_PM_init] both tables are in the heap. *)
Lemma init_ok_live (A : Arch) (core0 core : Protomatter_core)
    (bitWidth bitDepth rgbCount : Z) (rgbList : list Z)
    (addrCount : Z) (addrList : list Z)
    (clockPin latchPin oePin : Z) (doubleBuffer : bool) (timer : Z)
    (h0 h : heap) (ev : list event) :
  _PM_init A (Some core0) bitWidth bitDepth rgbCount rgbList addrCount addrList
           clockPin latchPin oePin doubleBuffer timer h0
  = (PROTOMATTER_OK, Some core, h, ev) ->
  is_live h (base (rgbPins core)) = true
  /\ is_live h (base (addr core)) = true.
Proof.
  unfold _PM_init.
  destruct (if timer =? NULL then _PM_TIMER_DEFAULT A else Some timer)
    as [timer' |]; [| discriminate].
  cbv zeta.
  destruct (_PM_ALLOCATOR h0 _) as [p1 h1] eqn:A1.
  destruct (Z.eqb_spec p1 NULL) as [E1 | E1]; cbn [negb andb].
  - intros H. injection H as H _. discriminate.
  - destruct (_PM_ALLOCATOR h1 _) as [p2 h2] eqn:A2.
    destruct (Z.eqb_spec p2 NULL) as [E2 | E2]; cbn [negb andb].
    + intros H. injection H as H _. discriminate.
    + intros H. injection H as <- <- _. cbn [rgbPins addr base].
      destruct (allocator_cases _ _ _ _ A1) as [[C1 _] | [_ L1]];
        [contradiction |].
      destruct (allocator_cases _ _ _ _ A2) as [[C2 _] | [_ L2]];
        [contradiction |].
      split; [exact (allocator_keeps_live _ _ _ _ _ A2 L1) | exact L2].
Qed.

(** What [_PM_init] leaves in the OE structure: the pin number, and the
    register pointers it found. *)
Lemma init_oe (A : Arch) (core0 core : Protomatter_core)
    (bitWidth bitDepth rgbCount : Z) (rgbList : list Z)
    (addrCount : Z) (addrList : list Z)
    (clockPin latchPin oePin : Z) (doubleBuffer : bool) (timer : Z)
    (h0 h : heap) (ev : list event) (st : ProtomatterStatus) :
  _PM_init A (Some core0) bitWidth bitDepth rgbCount rgbList addrCount addrList
           clockPin latchPin oePin doubleBuffer timer h0
  = (st, Some core, h, ev) ->
  st <> PROTOMATTER_ERR_ARG ->
  pin_setReg (oe core) = pin_setReg (oe core0)
  /\ pin_pin (oe core) = u8 oePin
  /\ swapBuffers core = swapBuffers core0.
Proof.
  unfold _PM_init.
  destruct (if timer =? NULL then _PM_TIMER_DEFAULT A else Some timer)
    as [timer' |].
  - cbv zeta.
    destruct (_PM_ALLOCATOR h0 _) as [p1 h1].
    destruct (if p1 =? NULL then _ else _) as [p2 h2].
    intros H _. injection H as _ <- _ _. cbn. repeat split.
  - intros H Hst. injection H as <- _ _ _. contradiction.
Qed.




(** * Further properties of the code *)

(** ** Allocation and release *)

Lemma allocator_inv (h : heap) (n p : Z) (h1 : heap) :
  _PM_ALLOCATOR h n = (p, h1) -> p <> NULL ->
  p = Z.pos (brk h)
  /\ live h1 = (p, n) :: live h
  /\ avail h1 = avail h - n
  /\ Z.pos (brk h) < Z.pos (brk h1)
  /\ (heap_wf h -> heap_wf h1).
Proof.
  unfold _PM_ALLOCATOR. destruct (n <=? avail h); intros H Hp;
    injection H as <- <-; [| exfalso; apply Hp; reflexivity].
  cbn [live avail brk].
  assert (Hbrk : Z.pos (brk h) < Z.pos (brk h + Z.to_pos (Z.max n 1)))
    by (rewrite Pos2Z.inj_add; pose proof (Pos2Z.is_pos (Z.to_pos (Z.max n 1)));
        lia).
  repeat split; try reflexivity; try exact Hbrk.
  intros Hwf b [<- | Hb]; cbn [fst brk].
  - exact Hbrk.
  - specialize (Hwf b Hb). lia.
Qed.

Lemma release_top (h : heap) (p n : Z) (l : list (Z * Z)) :
  live h = (p, n) :: l -> (forall b, In b l -> fst b <> p) ->
  live (_PM_FREE h p) = l
  /\ avail (_PM_FREE h p) = avail h + n
  /\ brk (_PM_FREE h p) = brk h.
Proof.
  intros Hl Hfresh. unfold _PM_FREE, block_size. cbn [live avail brk].
  rewrite Hl. cbn [filter fold_right fst snd]. rewrite Z.eqb_refl. cbn [negb].
  assert (Hf : filter (fun b : Z * Z => negb (fst b =? p)) l = l
               /\ fold_right (fun (b : Z * Z) acc =>
                                if fst b =? p then snd b + acc else acc) 0 l = 0).
  { clear Hl. induction l as [| b l IH]; [split; reflexivity |].
    cbn [filter fold_right].
    assert (Hb : fst b <> p) by (apply Hfresh; left; reflexivity).
    apply Z.eqb_neq in Hb. rewrite Hb. cbn [negb].
    destruct IH as [IH1 IH2]; [intros c Hc; apply Hfresh; right; exact Hc |].
    rewrite IH1, IH2. split; reflexivity. }
  destruct Hf as [-> ->]. repeat split; lia.
Qed.

(** What a successful [_PM_init] did to the heap. *)
Lemma init_ok_heap (A : Arch) (core0 core : Protomatter_core)
    (bitWidth bitDepth rgbCount : Z) (rgbList : list Z)
    (addrCount : Z) (addrList : list Z)
    (clockPin latchPin oePin : Z) (doubleBuffer : bool) (timer : Z)
    (h0 h : heap) (ev : list event) :
  _PM_init A (Some core0) bitWidth bitDepth rgbCount rgbList addrCount addrList
           clockPin latchPin oePin doubleBuffer timer h0
  = (PROTOMATTER_OK, Some core, h, ev) ->
  exists n1 n2 h1,
    _PM_ALLOCATOR h0 n1 = (base (rgbPins core), h1)
    /\ _PM_ALLOCATOR h1 n2 = (base (addr core), h)
    /\ n1 = parallel core * 6
    /\ n2 = numAddressLines core * sizeof_PM_pin
    /\ ev = [Malloc n1 (base (rgbPins core)); Malloc n2 (base (addr core))].
Proof.
  unfold _PM_init.
  destruct (if timer =? NULL then _PM_TIMER_DEFAULT A else Some timer)
    as [timer' |]; [| discriminate].
  cbv zeta.
  set (parallel' := if 5 <? u8 rgbCount then 5 else u8 rgbCount).
  set (lines' := if 5 <? u8 addrCount then 5 else u8 addrCount).
  assert (Hpar : 0 <= parallel' <= 5).
  { unfold parallel'. pose proof (u8_range rgbCount).
    destruct (Z.ltb_spec 5 (u8 rgbCount)); lia. }
  rewrite (u8_small (parallel' * 6)) by lia.
  destruct (_PM_ALLOCATOR h0 (parallel' * 6 * 1)) as [p1 h1] eqn:A1.
  destruct (Z.eqb_spec p1 NULL) as [E1 | E1]; cbn [negb andb].
  - intros H. injection H as H _. discriminate.
  - destruct (_PM_ALLOCATOR h1 (lines' * sizeof_PM_pin)) as [p2 h2] eqn:A2.
    destruct (Z.eqb_spec p2 NULL) as [E2 | E2]; cbn [negb andb].
    + intros H. injection H as H _. discriminate.
    + intros H. injection H as <- <- <-. cbn.
      exists (parallel' * 6), (lines' * sizeof_PM_pin), h1.
      rewrite Z.mul_1_r in A1.
      repeat split; try assumption; rewrite ?Z.mul_1_r; reflexivity.
Qed.

Lemma fresh_below (h : heap) (p : Z) :
  heap_wf h -> Z.pos (brk h) <= p -> forall b, In b (live h) -> fst b <> p.
Proof. intros Hwf Hp b Hb. specialize (Hwf b Hb). lia. Qed.

(** init binds no register: it stores the pin numbers of OE and latch and
    leaves the register pointers of the two structures as it found them.
    On a core whose OE set-register pointer is null, stop and free right
    after a successful init are undefined, the first store of _PM_stop
    going through that pointer, while both tables that init allocated are
    in the heap: free cannot give them back before a begin has
    succeeded. *)
Theorem init_then_free_undefined (A : Arch) (core0 core : Protomatter_core)
    (bitWidth bitDepth rgbCount : Z) (rgbList : list Z)
    (addrCount : Z) (addrList : list Z)
    (clockPin latchPin oePin : Z) (doubleBuffer : bool) (timer : Z)
    (h0 h : heap) (ev : list event) :
  swapBuffers core0 = false ->
  pin_setReg (oe core0) = NULL ->
  _PM_portSetRegister A (u8 oePin) <> NULL ->
  _PM_init A (Some core0) bitWidth bitDepth rgbCount rgbList addrCount addrList
           clockPin latchPin oePin doubleBuffer timer h0
  = (PROTOMATTER_OK, Some core, h, ev) ->
  (pin_setReg (oe core) = NULL /\ pin_pin (oe core) = u8 oePin)
  /\ (is_live h (base (rgbPins core)) = true
      /\ is_live h (base (addr core)) = true)
  /\ _PM_stop A (Some core) = Undef
  /\ _PM_free A (Some core) h = Undef.
Proof.
  intros Hswap0 Hnull Harch Hinit.
  destruct (init_oe _ _ _ _ _ _ _ _ _ _ _ _ _ _ _ _ _ _ Hinit
                    ltac:(discriminate)) as (Hreg & Hpin & Hsw).
  assert (Hstop : _PM_stop A (Some core) = Undef).
  { apply stop_unbound.
    - rewrite Hsw. exact Hswap0.
    - apply null_unbound.
      + rewrite Hreg. exact Hnull.
      + rewrite Hpin. exact Harch. }
  split; [split; [rewrite Hreg; exact Hnull | exact Hpin] |].
  split; [exact (init_ok_live _ _ _ _ _ _ _ _ _ _ _ _ _ _ _ _ _ Hinit) |].
  split; [exact Hstop | apply free_undefined; exact Hstop].
Qed.

Lemma sample_heap_wf : heap_wf sample_heap.
Proof. intros b []. Qed.

Lemma init_then_free_undefined_witness :
  is_live (snd (initialised true 64 4 4 6 false))
          (base (rgbPins (fst (initialised true 64 4 4 6 false)))) = true
  /\ is_live (snd (initialised true 64 4 4 6 false))
             (base (addr (fst (initialised true 64 4 4 6 false)))) = true
  /\ _PM_free (sample_arch true) (Some (fst (initialised true 64 4 4 6 false)))
              (snd (initialised true 64 4 4 6 false)) = Undef.
Proof.
  destruct (init_then_free_undefined (sample_arch true) blank_core
              (fst (initialised true 64 4 4 6 false)) 64 4 1 [0; 1; 2; 3; 4; 5]
              4 [16; 17; 18; 19; 20] 6 14 15 false NULL sample_heap
              (snd (initialised true 64 4 4 6 false))
              (snd (sample_init true 64 4 4 6 false))
              eq_refl eq_refl ltac:(discriminate)
              ltac:(vm_compute; reflexivity))
    as (_ & [L1 L2] & _ & Hfree).
  repeat split; assumption.
Defined.

Lemma releases_cons_other (ev : event) (tr : list event) :
  (forall p, ev <> Free p) -> releases (ev :: tr) = releases tr.
Proof.
  intros H. unfold releases. cbn [flat_map].
  destruct ev; try reflexivity. exfalso. exact (H p eq_refl).
Qed.

(** The scan state a successful [_PM_begin] leaves (set by [_PM_resume]). *)
Lemma begin_ok_state (A : Arch) (core core' : Protomatter_core) (h h' : heap)
    (tr : list event) :
  _PM_begin A (Some core) h = Ret (PROTOMATTER_OK, Some core', h', tr) ->
  plane core' = u8 (numPlanes core' - 1)
  /\ row core' = u8 (numRowPairs core' - 1)
  /\ prevRow core' = (if 1 <? numRowPairs core' then u8 (row core' - 1) else 1)
  /\ activeBuffer core' = 0
  /\ swapBuffers core' = false
  /\ frameCount core' = 0
  /\ bitZeroPeriod core' = width core' * 5
  /\ timer core' = timer core
  /\ releases tr = [].
Proof.
  intros H. unfold _PM_begin in H.
  destruct (base (rgbPins core) =? NULL); [discriminate |].
  destruct (scan_pins A core) as [[bitMask |] | |];
    cbn [bind] in H; try discriminate.
  destruct (rgb_indices core) as [idx | |];
    cbn [bind] in H; try discriminate.
  destruct (plan_screen A core bitMask) as [sp | |];
    cbn [bind] in H; try discriminate.
  cbv zeta in H.
  destruct (_PM_ALLOCATOR h (u32 (sp_screenBytes sp + sp_rgbMaskBytes sp)))
    as [p h1].
  destruct (Z.eqb_spec p NULL) as [Hp | Hp]; [discriminate |].
  destruct (remap_tables A (numPlanes core)) as [tables | |];
    cbn [bind] in H; try discriminate.
  destruct (min_period A (sp_numRowPairs sp) (numPlanes core)) as [minP | |];
    cbn [bind] in H; try discriminate.
  destruct (shl_int 1 (numAddressLines core)) as [full | |];
    cbn [bind] in H; try discriminate.
  unfold _PM_resume in H.
  injection H as Hcore Hh Htr. subst core' h1 tr.
  cbn [plane row prevRow activeBuffer swapBuffers frameCount bitZeroPeriod
       timer numPlanes numRowPairs width].
  repeat split; try reflexivity.
  assert (H1 : forall (f : Z -> list event) (l : list Z),
             (forall i, releases (f i) = []) -> releases (flat_map f l) = []).
  { intros f l Hf. induction l as [| x l IH]; [reflexivity |].
    cbn [flat_map]. rewrite releases_app, Hf, IH. reflexivity. }
  assert (H2 : releases (mp_fill (plan_masks A core bitMask
                                    (sp_bytesPerElement sp) p
                                    (sp_screenBytes sp) idx)) = []).
  { unfold plan_masks.
    repeat match goal with
           | |- context [if ?b then _ else _] => destruct b
           end; reflexivity. }
  assert (H3 : releases (if has_toggle A then []
                         else [Fill p 0 (sp_screenBytes sp) 1]) = [])
    by (destruct (has_toggle A); reflexivity).
  repeat first [ rewrite releases_app
               | rewrite H1
               | rewrite H2
               | rewrite H3
               | rewrite releases_cons_other by (intros ? ?; discriminate) ];
    try reflexivity.
  all: intros;
    repeat match goal with
           | |- context [if ?b then _ else _] => destruct b
           end; reflexivity.
Qed.

(** A successful [_PM_begin] binds the OE and latch structures. *)
Lemma begin_ok_bound (A : Arch) (core core' : Protomatter_core) (h h' : heap)
    (tr : list event) :
  _PM_begin A (Some core) h = Ret (PROTOMATTER_OK, Some core', h', tr) ->
  set_bound A (oe core') = true
  /\ set_bound A (latch core') = true
  /\ clear_bound A (latch core') = true.
Proof.
  intros H. unfold _PM_begin in H.
  destruct (base (rgbPins core) =? NULL); [discriminate |].
  destruct (scan_pins A core) as [[bitMask |] | |];
    cbn [bind] in H; try discriminate.
  destruct (rgb_indices core) as [idx | |];
    cbn [bind] in H; try discriminate.
  destruct (plan_screen A core bitMask) as [sp | |];
    cbn [bind] in H; try discriminate.
  cbv zeta in H.
  destruct (_PM_ALLOCATOR h (u32 (sp_screenBytes sp + sp_rgbMaskBytes sp)))
    as [p h1].
  destruct (Z.eqb_spec p NULL) as [Hp | Hp]; [discriminate |].
  destruct (remap_tables A (numPlanes core)) as [tables | |];
    cbn [bind] in H; try discriminate.
  destruct (min_period A (sp_numRowPairs sp) (numPlanes core)) as [minP | |];
    cbn [bind] in H; try discriminate.
  destruct (shl_int 1 (numAddressLines core)) as [full | |];
    cbn [bind] in H; try discriminate.
  unfold _PM_resume in H.
  injection H as Hcore Hh Htr. subst core'.
  unfold set_bound, clear_bound, bind_pin.
  cbn [oe latch pin_setReg pin_clearReg pin_pin].
  rewrite !Z.eqb_refl. auto.
Qed.

(** init, a successful begin, then free: the three blocks (matrix buffers
    with the mask table, address table, pin list) are released and the heap
    has the live blocks and the free bytes it had before init. *)
Theorem begin_free_leaks_nothing (A : Arch) (core0 core core' : Protomatter_core)
    (bitWidth bitDepth rgbCount : Z) (rgbList : list Z)
    (addrCount : Z) (addrList : list Z)
    (clockPin latchPin oePin : Z) (doubleBuffer : bool) (timer : Z)
    (h0 h h' : heap) (ev tr : list event) :
  heap_wf h0 ->
  _PM_init A (Some core0) bitWidth bitDepth rgbCount rgbList addrCount addrList
           clockPin latchPin oePin doubleBuffer timer h0
  = (PROTOMATTER_OK, Some core, h, ev) ->
  _PM_begin A (Some core) h = Ret (PROTOMATTER_OK, Some core', h', tr) ->
  exists core'' h'' tr2,
    _PM_free A (Some core') h' = Ret (Some core'', h'', tr2)
    /\ releases tr2
       = [screenData core'; base (addr core'); base (rgbPins core')]
    /\ releases (ev ++ tr) = []
    /\ live h'' = live h0
    /\ avail h'' = avail h0.
Proof.
  intros Hwf Hinit Hbegin.
  destruct (init_ok_inv _ _ _ _ _ _ _ _ _ _ _ _ _ _ _ _ _ Hinit)
    as (Hpins & Haddr & _ & Hpar & _).
  destruct (init_ok_heap _ _ _ _ _ _ _ _ _ _ _ _ _ _ _ _ _ Hinit)
    as (n1 & n2 & h1 & A1 & A2 & _ & _ & Hev).
  destruct (allocator_inv _ _ _ _ A1 Hpins) as (P1 & L1 & V1 & B1 & W1).
  destruct (allocator_inv _ _ _ _ A2 Haddr) as (P2 & L2 & V2 & B2 & W2).
  specialize (W1 Hwf). specialize (W2 W1).
  destruct (begin_ok_inv A core core' h h' tr Hbegin)
    as (bitMask & idx & sp & tables & minP & p & _ & _ & _ & _ & _ & A3
        & Hp & Hsd & _ & _ & _ & _ & _ & _ & _ & _ & _ & _ & Epar & _ & _
        & Erg & Ead).
  destruct (begin_ok_state A core core' h h' tr Hbegin)
    as (_ & _ & _ & _ & Hswap & _ & _ & _ & Hrel0).
  destruct (allocator_inv _ _ _ _ A3 Hp) as (P3 & L3 & V3 & B3 & W3).
  destruct (begin_ok_bound A core core' h h' tr Hbegin) as (Boe & Bls & Blc).
  assert (Hstop : stoppable A core').
  { unfold stoppable. rewrite Erg.
    repeat split; try assumption; [lia | left; exact Hpins]. }
  destruct (free_returns A core' h' Hstop)
    as (core'' & h'' & tr2 & Hfree & _ & _ & Hrel & Hheap).
  exists core'', h'', tr2. split; [exact Hfree |].
  rewrite Hsd, Ead, Erg in *.
  assert (E3 := Hp). assert (E2 := Haddr). assert (E1 := Hpins).
  apply Z.eqb_neq in E1, E2, E3. rewrite E1, E2, E3 in Hrel, Hheap.
  cbv zeta in Hheap.
  destruct (release_top h' p _ (live h) L3
              (fresh_below h p W2 ltac:(lia))) as (F1 & F2 & F3).
  assert (L2' : live (_PM_FREE h' p) = (base (addr core), n2) :: live h1)
    by (rewrite F1; exact L2).
  destruct (release_top _ (base (addr core)) n2 (live h1) L2'
              (fresh_below h1 (base (addr core)) W1 ltac:(lia)))
    as (G1 & G2 & G3).
  assert (L1' : live (_PM_FREE (_PM_FREE h' p) (base (addr core)))
                = (base (rgbPins core), n1) :: live h0)
    by (rewrite G1; exact L1).
  destruct (release_top _ (base (rgbPins core)) n1 (live h0) L1'
              (fresh_below h0 (base (rgbPins core)) Hwf ltac:(lia)))
    as (K1 & K2 & K3).
  split; [exact Hrel |].
  split; [rewrite releases_app, Hrel0, Hev; reflexivity |].
  rewrite Hheap, K1, K2, G2, F2. split; [reflexivity | lia].
Qed.

Lemma begin_free_leaks_nothing_witness :
  exists core'' h'' tr2,
    _PM_free (sample_arch true) (Some sample_core)
             (started_heap true 64 4 4 6 false)
    = Ret (Some core'', h'', tr2)
    /\ releases tr2 = [screenData sample_core; base (addr sample_core);
                       base (rgbPins sample_core)]
    /\ releases (snd (sample_init true 64 4 4 6 false)
                 ++ started_trace true 64 4 4 6 false) = []
    /\ live h'' = live sample_heap
    /\ avail h'' = avail sample_heap.
Proof.
  apply (begin_free_leaks_nothing (sample_arch true) blank_core
           (fst (initialised true 64 4 4 6 false)) sample_core
           64 4 1 [0; 1; 2; 3; 4; 5] 4 [16; 17; 18; 19; 20] 6 14 15 false NULL
           sample_heap (snd (initialised true 64 4 4 6 false))
           (started_heap true 64 4 4 6 false)
           (snd (sample_init true 64 4 4 6 false))
           (started_trace true 64 4 4 6 false)).
  - exact sample_heap_wf.
  - vm_compute. reflexivity.
  - vm_compute. reflexivity.
Defined.

(** ** [_PM_init]: arguments and failures *)

(** When an allocation of init fails, init returns ERR_MALLOC with the pin
    list, the address table and the matrix buffer pointers all NULL and
    with the heap as it found it (the pin list is released again when only
    the address table could not be had).  begin on such a core returns
    ERR_MALLOC and touches nothing.  stop and free on it are undefined
    when the core has RGB pins, _PM_stop reading the pin list through the
    null pointer, or when the OE register pointer is null. *)
Theorem init_failure_is_clean (A : Arch) (core0 core : Protomatter_core)
    (bitWidth bitDepth rgbCount : Z) (rgbList : list Z)
    (addrCount : Z) (addrList : list Z)
    (clockPin latchPin oePin : Z) (doubleBuffer : bool) (timer : Z)
    (h0 h : heap) (ev : list event) :
  heap_wf h0 ->
  _PM_init A (Some core0) bitWidth bitDepth rgbCount rgbList addrCount addrList
           clockPin latchPin oePin doubleBuffer timer h0
  = (PROTOMATTER_ERR_MALLOC, Some core, h, ev) ->
  (base (rgbPins core) = NULL /\ base (addr core) = NULL
   /\ screenData core = NULL)
  /\ (live h = live h0 /\ avail h = avail h0)
  /\ _PM_begin A (Some core) h = Ret (PROTOMATTER_ERR_MALLOC, Some core, h, [])
  /\ (swapBuffers core0 = false ->
      0 < parallel core
      \/ (pin_setReg (oe core0) = NULL
          /\ _PM_portSetRegister A (u8 oePin) <> NULL) ->
      _PM_stop A (Some core) = Undef
      /\ _PM_free A (Some core) h = Undef).
Proof.
  intros Hwf Hinit.
  destruct (init_oe _ _ _ _ _ _ _ _ _ _ _ _ _ _ _ _ _ _ Hinit
                    ltac:(discriminate)) as (Hreg & Hpin & Hsw).
  revert Hinit. unfold _PM_init.
  destruct (if timer =? NULL then _PM_TIMER_DEFAULT A else Some timer)
    as [timer' |]; [| discriminate].
  cbv zeta.
  set (parallel' := if 5 <? u8 rgbCount then 5 else u8 rgbCount).
  set (lines' := if 5 <? u8 addrCount then 5 else u8 addrCount).
  destruct (_PM_ALLOCATOR h0 (u8 (parallel' * 6) * 1)) as [p1 h1] eqn:A1.
  assert (Hfin : forall c hx evx,
             base (rgbPins c) = NULL -> base (addr c) = NULL ->
             screenData c = NULL ->
             live hx = live h0 -> avail hx = avail h0 ->
             (PROTOMATTER_ERR_MALLOC, Some c, hx, evx)
             = (PROTOMATTER_ERR_MALLOC, Some core, h, ev) ->
             (base (rgbPins core) = NULL /\ base (addr core) = NULL
              /\ screenData core = NULL)
             /\ (live h = live h0 /\ avail h = avail h0)
             /\ _PM_begin A (Some core) h
                = Ret (PROTOMATTER_ERR_MALLOC, Some core, h, [])
             /\ (swapBuffers core0 = false ->
                 0 < parallel core
                 \/ (pin_setReg (oe core0) = NULL
                     /\ _PM_portSetRegister A (u8 oePin) <> NULL) ->
                 _PM_stop A (Some core) = Undef
                 /\ _PM_free A (Some core) h = Undef)).
  { intros c hx evx Hr Ha Hs Hl Hv H. injection H as -> <- <-.
    split; [auto |]. split; [auto |]. split.
    - unfold _PM_begin. rewrite Hr. reflexivity.
    - intros Hswap0 Hwhy.
      assert (Hstop : _PM_stop A (Some core) = Undef).
      { destruct Hwhy as [Hpos | [Hnull Harch]].
        - apply stop_null_pins; [rewrite Hsw; exact Hswap0 | exact Hr | lia].
        - apply stop_unbound; [rewrite Hsw; exact Hswap0 |].
          apply null_unbound;
            [rewrite Hreg; exact Hnull | rewrite Hpin; exact Harch]. }
      split; [exact Hstop | apply free_undefined; exact Hstop]. }
  destruct (Z.eqb_spec p1 NULL) as [E1 | E1]; cbn [negb andb].
  - destruct (allocator_cases _ _ _ _ A1) as [[_ ->] | [Hne _]];
      [| contradiction].
    intros H. eapply Hfin; [.. | exact H]; reflexivity.
  - destruct (_PM_ALLOCATOR h1 (lines' * sizeof_PM_pin)) as [p2 h2] eqn:A2.
    destruct (Z.eqb_spec p2 NULL) as [E2 | E2]; cbn [negb andb].
    + destruct (allocator_cases _ _ _ _ A2) as [[_ ->] | [Hne _]];
        [| contradiction].
      destruct (allocator_inv _ _ _ _ A1 E1) as (P1 & L1 & V1 & B1 & W1).
      destruct (release_top h1 p1 _ (live h0) L1
                  (fresh_below h0 p1 Hwf ltac:(lia))) as (F1 & F2 & F3).
      intros H. eapply Hfin; [.. | exact H]; try reflexivity;
        [exact F1 | lia].
    + intros H. injection H as H _. discriminate.
Qed.

Lemma tiny_heap_wf : heap_wf tiny_heap.
Proof. intros b []. Qed.

Lemma init_failure_is_clean_witness :
  fst (fst (fst (_PM_init (sample_arch true) (Some blank_core) 64 4 1
                          [0; 1; 2; 3; 4; 5] 4 [16; 17; 18; 19; 20] 6 14 15
                          false NULL tiny_heap)))
  = PROTOMATTER_ERR_MALLOC
  /\ snd (_PM_init (sample_arch true) (Some blank_core) 64 4 1
                   [0; 1; 2; 3; 4; 5] 4 [16; 17; 18; 19; 20] 6 14 15
                   false NULL tiny_heap)
     = [Malloc 6 0x20000000; Malloc 64 NULL; Free 0x20000000]
  /\ live (snd (fst (_PM_init (sample_arch true) (Some blank_core) 64 4 1
                              [0; 1; 2; 3; 4; 5] 4 [16; 17; 18; 19; 20] 6 14 15
                              false NULL tiny_heap)))
     = live tiny_heap
  /\ avail (snd (fst (_PM_init (sample_arch true) (Some blank_core) 64 4 1
                               [0; 1; 2; 3; 4; 5] 4 [16; 17; 18; 19; 20] 6 14 15
                               false NULL tiny_heap)))
     = avail tiny_heap
  /\ _PM_free (sample_arch true)
              (snd (fst (fst (_PM_init (sample_arch true) (Some blank_core)
                                       64 4 1 [0; 1; 2; 3; 4; 5] 4
                                       [16; 17; 18; 19; 20] 6 14 15
                                       false NULL tiny_heap))))
              (snd (fst (_PM_init (sample_arch true) (Some blank_core) 64 4 1
                                  [0; 1; 2; 3; 4; 5] 4 [16; 17; 18; 19; 20]
                                  6 14 15 false NULL tiny_heap)))
     = Undef.
Proof.
  destruct (_PM_init (sample_arch true) (Some blank_core) 64 4 1
                     [0; 1; 2; 3; 4; 5] 4 [16; 17; 18; 19; 20] 6 14 15
                     false NULL tiny_heap)
    as [[[st [core |]] h] ev] eqn:Hinit;
    [| vm_compute in Hinit; discriminate].
  assert (Hst : st = PROTOMATTER_ERR_MALLOC)
    by (vm_compute in Hinit; injection Hinit as <- _ _ _; reflexivity).
  subst st.
  assert (Hpar : parallel core = 1)
    by (vm_compute in Hinit; injection Hinit as <- _ _; reflexivity).
  destruct (init_failure_is_clean _ _ _ _ _ _ _ _ _ _ _ _ _ _ _ _ _
              tiny_heap_wf Hinit) as (_ & [Hl Hv] & _ & Hundef).
  cbn [fst snd].
  split; [reflexivity |].
  split; [vm_compute in Hinit; injection Hinit as _ _ <-; reflexivity |].
  split; [assumption |]. split; [assumption |].
  apply Hundef; [reflexivity | left; rewrite Hpar; reflexivity].
Defined.

Lemma nth_map_in {X Y : Type} (f : X -> Y) (l : list X) (d : X) (d' : Y) :
  forall i, (i < length l)%nat -> nth i (map f l) d' = f (nth i l d).
Proof.
  induction l as [| x l IH]; intros i Hi; cbn [length] in Hi; [lia |].
  destruct i as [| i]; [reflexivity |]. cbn [map nth]. apply IH. lia.
Qed.

Lemma copy_table_length (n : Z) (table : list Z) :
  length (copy_table n table) = Z.to_nat n.
Proof. unfold copy_table. rewrite length_map, length_seq. reflexivity. Qed.

(** init does not reject counts that are too large: more than 5 parallel
    chains or more than 5 address lines are clamped to 5, and the two
    tables are allocated and filled for the clamped counts (6 pins per
    chain, one entry per address line).  The bit depth is taken as it is. *)
Theorem init_clamps_counts (A : Arch) (core0 core : Protomatter_core)
    (bitWidth bitDepth rgbCount : Z) (rgbList : list Z)
    (addrCount : Z) (addrList : list Z)
    (clockPin latchPin oePin : Z) (doubleBuffer : bool) (timer : Z)
    (h0 h : heap) (ev : list event) :
  0 <= rgbCount < 2 ^ 8 -> 0 <= addrCount < 2 ^ 8 -> 0 <= bitDepth < 2 ^ 8 ->
  _PM_init A (Some core0) bitWidth bitDepth rgbCount rgbList addrCount addrList
           clockPin latchPin oePin doubleBuffer timer h0
  = (PROTOMATTER_OK, Some core, h, ev) ->
  parallel core = Z.min rgbCount 5
  /\ numAddressLines core = Z.min addrCount 5
  /\ numPlanes core = bitDepth
  /\ length (elems (rgbPins core)) = Z.to_nat (6 * Z.min rgbCount 5)
  /\ length (elems (addr core)) = Z.to_nat (Z.min addrCount 5)
  /\ (forall i, (i < Z.to_nat (6 * Z.min rgbCount 5))%nat ->
        nth i (elems (rgbPins core)) 0 = u8 (nth i rgbList 0))
  /\ (forall i, (i < Z.to_nat (Z.min addrCount 5))%nat ->
        pin_pin (nth i (elems (addr core)) no_pin) = u8 (nth i addrList 0))
  /\ ev = [Malloc (6 * Z.min rgbCount 5) (base (rgbPins core));
           Malloc (sizeof_PM_pin * Z.min addrCount 5) (base (addr core))].
Proof.
  intros Hr Ha Hd. unfold _PM_init.
  destruct (if timer =? NULL then _PM_TIMER_DEFAULT A else Some timer)
    as [timer' |]; [| discriminate].
  cbv zeta. rewrite (u8_small rgbCount), (u8_small addrCount) by exact Hr || exact Ha.
  replace (if 5 <? rgbCount then 5 else rgbCount) with (Z.min rgbCount 5)
    by (destruct (Z.ltb_spec 5 rgbCount); lia).
  replace (if 5 <? addrCount then 5 else addrCount) with (Z.min addrCount 5)
    by (destruct (Z.ltb_spec 5 addrCount); lia).
  rewrite (u8_small (Z.min rgbCount 5 * 6)) by lia.
  destruct (_PM_ALLOCATOR h0 (Z.min rgbCount 5 * 6 * 1)) as [p1 h1].
  destruct (Z.eqb_spec p1 NULL) as [E1 | E1]; cbn [negb andb].
  - intros H. injection H as H _. discriminate.
  - destruct (_PM_ALLOCATOR h1 (Z.min addrCount 5 * sizeof_PM_pin)) as [p2 h2].
    destruct (Z.eqb_spec p2 NULL) as [E2 | E2]; cbn [negb andb].
    + intros H. injection H as H _. discriminate.
    + intros H. injection H as <- _ <-.
      cbn [parallel numAddressLines numPlanes rgbPins addr elems base].
      rewrite length_map, !copy_table_length.
      split; [reflexivity |]. split; [reflexivity |].
      split; [apply u8_small; exact Hd |].
      split; [f_equal; lia |]. split; [reflexivity |].
      split; [| split].
      * intros i Hi. unfold copy_table.
        replace (Z.min rgbCount 5 * 6) with (6 * Z.min rgbCount 5) by lia.
        rewrite (nth_map_in _ _ 0%nat) by (rewrite length_seq; lia).
        rewrite seq_nth by lia. reflexivity.
      * intros i Hi. unfold copy_table.
        rewrite (nth_map_in _ _ 0) by (rewrite length_map, length_seq; lia).
        cbn [pin_pin].
        rewrite (nth_map_in _ _ 0%nat) by (rewrite length_seq; lia).
        rewrite seq_nth by lia. reflexivity.
      * rewrite Z.mul_1_r, (Z.mul_comm (Z.min rgbCount 5)),
          (Z.mul_comm (Z.min addrCount 5)). reflexivity.
Qed.

Lemma init_clamps_counts_witness :
  match _PM_init (sample_arch true) (Some blank_core) 64 4 9
                 (map Z.of_nat (seq 0 54)) 7 [16; 17; 18; 19; 20; 21; 22]
                 6 14 15 false NULL sample_heap with
  | (st, Some core, _, _) =>
      st = PROTOMATTER_OK /\ parallel core = 5 /\ numAddressLines core = 5
      /\ length (elems (rgbPins core)) = 30%nat
  | _ => False
  end.
Proof.
  destruct (_PM_init (sample_arch true) (Some blank_core) 64 4 9
                     (map Z.of_nat (seq 0 54)) 7 [16; 17; 18; 19; 20; 21; 22]
                     6 14 15 false NULL sample_heap)
    as [[[st [core |]] h] ev] eqn:Hinit;
    [| vm_compute in Hinit; discriminate].
  assert (Hst : st = PROTOMATTER_OK)
    by (vm_compute in Hinit; injection Hinit as <- _ _ _; reflexivity).
  subst st.
  pose proof (fun H1 H2 H3 =>
                init_clamps_counts _ _ _ _ _ _ _ _ _ _ _ _ _ _ _ _ _
                                   H1 H2 H3 Hinit) as Hc.
  destruct (Hc ltac:(closed_facts) ltac:(closed_facts) ltac:(closed_facts))
    as (Hp & Hl & _ & Hn & _).
  split; [reflexivity |]. split; [exact Hp |]. split; [exact Hl |]. exact Hn.
Defined.

(** ** [_PM_resume] and [_PM_getFrameCount] with the handler *)

(** resume puts the cursor on the last plane of the last row, so that the
    first interrupt rolls over to row 0, plane 0 and counts the first
    frame; [k >= 1] interrupts after resume the cursor is at row-major
    position [(k - 1) mod N] and [1 + (k - 1) / N] frames have been counted
    ([N = numRowPairs * numPlanes]). *)
Theorem resume_first_run_starts_frame (A : Arch) (core c : Protomatter_core)
    (tr : list event) (elapsed : list Z) :
  1 <= numPlanes core <= 255 -> 1 <= numRowPairs core <= 255 ->
  _PM_resume (Some core) = (Some c, tr) ->
  let P := numPlanes core in
  let N := numRowPairs core * numPlanes core in
  let k := Z.of_nat (length elapsed) in
  (plane c = numPlanes core - 1 /\ row c = numRowPairs core - 1
   /\ swapBuffers c = false /\ frameCount c = 0)
  /\ tr = [TimerInit (timer core); TimerStart (timer core) (Ret 1000)]
  /\ (forall e,
        row (fst (_PM_row_handler A c e)) = 0
        /\ plane (fst (_PM_row_handler A c e)) = 0
        /\ frameCount (fst (_PM_row_handler A c e)) = 1)
  /\ (1 <= k ->
      row (run_handler A c elapsed) = ((k - 1) mod N) / P
      /\ plane (run_handler A c elapsed) = ((k - 1) mod N) mod P
      /\ frameCount (run_handler A c elapsed) = u32 (1 + (k - 1) / N)).
Proof.
  intros HP HR Hres P N k.
  unfold _PM_resume in Hres. injection Hres as <- <-.
  set (c := {| timer := timer core; setReg := setReg core |}) in *.
  assert (Epl : plane c = numPlanes core - 1) by (apply u8_small; lia).
  assert (Ero : row c = numRowPairs core - 1) by (apply u8_small; lia).
  assert (Hc : cursor_in_range c).
  { unfold cursor_in_range. rewrite Epl, Ero.
    change (numPlanes c) with (numPlanes core).
    change (numRowPairs c) with (numRowPairs core). lia. }
  assert (Ht : counters_typed c).
  { unfold counters_typed.
    change (numPlanes c) with (numPlanes core).
    change (numRowPairs c) with (numRowPairs core).
    change (frameCount c) with 0. repeat split; lia. }
  assert (Hidx : cursor_index c = N - 1).
  { unfold cursor_index. rewrite Epl, Ero.
    change (numPlanes c) with (numPlanes core). unfold N. lia. }
  assert (HN : 1 <= N) by (unfold N; nia).
  split; [repeat split; assumption |].
  split; [reflexivity |].
  split.
  - intros e.
    destruct (handler_step A c e Hc Ht) as (_ & _ & Hp & Hr & Hf).
    change (numPlanes c) with (numPlanes core) in Hp, Hr, Hf.
    change (numRowPairs c) with (numRowPairs core) in Hr, Hf.
    change (frameCount c) with 0 in Hf.
    rewrite Epl in Hp, Hr, Hf. rewrite Ero in Hr, Hf.
    replace (numPlanes core - 1 + 1) with (numPlanes core) in Hp, Hr, Hf by lia.
    replace (numRowPairs core - 1 + 1) with (numRowPairs core) in Hr, Hf by lia.
    rewrite !Z.eqb_refl in Hr, Hf. cbn [andb] in Hf.
    rewrite Z.eqb_refl in Hf. change (u32 (0 + 1)) with 1 in Hf.
    rewrite Z.mod_same in Hp, Hr by lia.
    split; [exact Hr |]. split; [exact Hp | exact Hf].
  - intros Hk.
    destruct (run_handler_in_range A elapsed c Hc Ht) as (Hc' & _ & HP' & _).
    destruct (run_handler_index A elapsed c Hc Ht) as [Hi Hf].
    change (numPlanes c) with (numPlanes core) in Hi, Hf, HP'.
    change (numRowPairs c) with (numRowPairs core) in Hi, Hf.
    change (frameCount c) with 0 in Hf.
    rewrite Hidx in Hi, Hf.
    assert (Hi' : cursor_index (run_handler A c elapsed) = (k - 1) mod N).
    { rewrite Hi. fold N k.
      replace (N - 1 + k) with (k - 1 + 1 * N) by lia.
      apply Z.mod_add. lia. }
    rewrite (cursor_index_row _ Hc'), (cursor_index_plane _ Hc'), HP', Hi'.
    split; [reflexivity |]. split; [reflexivity |].
    rewrite Hf. fold N k. f_equal.
    replace (N - 1 + k) with (k - 1 + 1 * N) by lia.
    rewrite Z.div_add by lia. lia.
Qed.

Lemma resume_first_run_starts_frame_witness :
  (row sample_core, plane sample_core, frameCount sample_core) = (15, 3, 0)
  /\ row (run_handler (sample_arch true) sample_core
            (repeat 320 130)) = 0
  /\ plane (run_handler (sample_arch true) sample_core
              (repeat 320 130)) = 1
  /\ frameCount (run_handler (sample_arch true) sample_core
                   (repeat 320 130)) = 3.
Proof.
  assert (Hres : _PM_resume (Some sample_core)
                 = (Some sample_core,
                    [TimerInit (timer sample_core);
                     TimerStart (timer sample_core) (Ret 1000)]))
    by (vm_compute; reflexivity).
  destruct (resume_first_run_starts_frame (sample_arch true) sample_core
              sample_core _ (repeat 320 130)
              ltac:(closed_facts) ltac:(closed_facts) Hres)
    as (_ & _ & _ & Hk).
  destruct (Hk ltac:(closed_facts)) as (Hr & Hp & Hf).
  split; [reflexivity |].
  rewrite Hr, Hp, Hf. repeat split; reflexivity.
Defined.

(** getFrameCount reads the frame counter and clears it, leaving the
    cursor alone: read again at once it gives 0, and read after [k] further
    interrupts it gives the number of frame boundaries these passed. *)
Theorem frame_count_between_reads (A : Arch) (core c0 : Protomatter_core)
    (n0 : Z) (elapsed : list Z) :
  cursor_in_range core -> counters_typed core ->
  _PM_getFrameCount (Some core) = (n0, Some c0) ->
  let N := numRowPairs core * numPlanes core in
  let k := Z.of_nat (length elapsed) in
  n0 = frameCount core
  /\ (row c0 = row core /\ plane c0 = plane core)
  /\ _PM_getFrameCount (Some c0) = (0, Some c0)
  /\ fst (_PM_getFrameCount (Some (run_handler A c0 elapsed)))
     = u32 ((cursor_index core + k) / N)
  /\ _PM_getFrameCount None = (0, None).
Proof.
  intros Hc Ht Hget N k.
  unfold _PM_getFrameCount in Hget. injection Hget as <- <-.
  set (c0 := {| timer := timer core; setReg := setReg core |}) in *.
  split; [reflexivity |]. split; [split; reflexivity |].
  split; [reflexivity |]. split; [| reflexivity].
  assert (Hc0 : cursor_in_range c0) by exact Hc.
  assert (Ht0 : counters_typed c0).
  { destruct Ht as (H1 & H2 & _). unfold counters_typed.
    change (frameCount c0) with 0.
    repeat split; try assumption; try lia; reflexivity. }
  destruct (run_handler_index A elapsed c0 Hc0 Ht0) as [_ Hf].
  cbn [_PM_getFrameCount fst]. rewrite Hf. reflexivity.
Qed.

Lemma frame_count_between_reads_witness :
  _PM_getFrameCount (Some sample_core) = (0, Some sample_core)
  /\ fst (_PM_getFrameCount
            (Some (run_handler (sample_arch true) sample_core (repeat 320 200))))
     = 4.
Proof.
  assert (Hget : _PM_getFrameCount (Some sample_core) = (0, Some sample_core))
    by (vm_compute; reflexivity).
  split; [exact Hget |].
  pose proof (frame_count_between_reads (sample_arch true) sample_core
                sample_core 0 (repeat 320 200)
                ltac:(closed_facts) ltac:(closed_facts) Hget)
    as (_ & _ & _ & Hk & _).
  rewrite Hk. reflexivity.
Defined.

(** ** Where the handler shifts out from *)

Lemma address_update_no_blast (A : Arch) (core : Protomatter_core) :
  blast_sources (address_update A core) = [].
Proof.
  unfold address_update.
  destruct (has_toggle A && singleAddrPort core); [reflexivity |].
  unfold address_per_line.
  induction (address_lines core) as [| line lines IH]; [reflexivity |].
  cbn [flat_map]. unfold blast_sources in *. rewrite flat_map_app, IH, app_nil_r.
  destruct (Z.land (row core) (line_bit line)
            =? Z.land (prevRow core) (line_bit line)); [reflexivity |].
  destruct (Z.land (row core) (line_bit line) =? 0); reflexivity.
Qed.

Lemma handler_blast_source (A : Arch) (core : Protomatter_core) (elapsed : Z) :
  let core' := fst (_PM_row_handler A core elapsed) in
  let srcOffset :=
    u32 (u32 (chunkSize A * chunk_count A core)
         * (numPlanes core * row core' + plane core') * bytesPerElement core) in
  blast_sources (snd (_PM_row_handler A core elapsed))
  = [screenData core
     + (if doubleBuffer core
        then u32 (srcOffset + bufferSize core * activeBuffer core')
        else srcOffset)].
Proof.
  unfold _PM_row_handler. cbn [fst snd row plane activeBuffer].
  unfold blast_sources. rewrite !flat_map_app.
  fold (blast_sources (if plane core =? 0 then address_update A core else [])).
  replace (blast_sources (if plane core =? 0 then address_update A core else []))
    with (@nil Z)
    by (destruct (plane core =? 0);
        [symmetry; apply address_update_no_blast | reflexivity]).
  reflexivity.
Qed.

(** The bytes of one line of one bitplane. *)
Lemma line_bytes_nonneg (A : Arch) (core : Protomatter_core) :
  0 <= width core -> 0 <= chunkSize A * chunk_count A core.
Proof.
  intros Hw. unfold chunk_count.
  assert (0 < chunkSize A) by (unfold chunkSize; lia).
  apply Z.mul_nonneg_nonneg; [lia | apply Z.div_pos; lia].
Qed.

(** One run: the plane to issue is read from its place in the buffer
    layout, inside the active buffer. *)
Lemma handler_source_in_buffer (A : Arch) (core : Protomatter_core)
    (elapsed : Z) :
  cursor_in_range core -> counters_typed core ->
  0 <= width core -> 1 <= bytesPerElement core ->
  bufferSize core
  = chunkSize A * chunk_count A core * numRowPairs core * numPlanes core
    * bytesPerElement core ->
  bufferSize core <= INT_MAX ->
  0 <= activeBuffer core <= 1 ->
  let core' := fst (_PM_row_handler A core elapsed) in
  let line := chunkSize A * chunk_count A core * bytesPerElement core in
  let buffer := if doubleBuffer core then activeBuffer core' else 0 in
  let offset :=
    ((buffer * numRowPairs core + row core') * numPlanes core + plane core')
    * line in
  blast_sources (snd (_PM_row_handler A core elapsed))
  = [screenData core + offset]
  /\ buffer * bufferSize core <= offset
  /\ offset + line <= (buffer + 1) * bufferSize core
  /\ 0 <= activeBuffer core' <= 1.
Proof.
  intros Hc Ht Hw Hb Hlay Hmax Hab core' line buffer offset.
  destruct (handler_step A core elapsed Hc Ht) as ([Hp' Hr'] & _).
  fold core' in Hp', Hr'.
  change (numPlanes core') with (numPlanes core) in Hp'.
  change (numRowPairs core') with (numRowPairs core) in Hr'.
  pose proof (line_bytes_nonneg A core Hw) as Hepl.
  set (epl := chunkSize A * chunk_count A core) in *.
  set (P := numPlanes core) in *. set (R := numRowPairs core) in *.
  set (b := bytesPerElement core) in *.
  assert (Hab' : 0 <= activeBuffer core' <= 1).
  { unfold core'. rewrite handler_activeBuffer.
    destruct ((numPlanes core <=? u8 (plane core + 1))
              && (numRowPairs core <=? u8 (row core + 1)) && swapBuffers core);
      [| exact Hab].
    assert (Hcase : activeBuffer core = 0 \/ activeBuffer core = 1) by lia.
    destruct Hcase as [-> | ->]; vm_compute; split; discriminate. }
  assert (Hline : 0 <= line) by (unfold line; nia).
  assert (Hidx : 0 <= P * row core' + plane core' <= R * P - 1) by nia.
  assert (Hbuf : bufferSize core = R * P * line) by (rewrite Hlay; unfold line; ring).
  assert (Hoff0 : 0 <= (P * row core' + plane core') * line
                  /\ (P * row core' + plane core') * line + line
                     <= bufferSize core).
  { rewrite Hbuf. split; [nia |].
    replace ((P * row core' + plane core') * line + line)
      with ((P * row core' + plane core' + 1) * line) by ring.
    apply Z.mul_le_mono_nonneg_r; lia. }
  assert (Hepl32 : u32 epl = epl).
  { apply u32_small. split; [exact Hepl |].
    assert (epl <= bufferSize core); [| unfold INT_MAX in Hmax; lia].
    rewrite Hlay. fold epl R P b.
    assert (1 <= R * P) by nia.
    assert (epl * 1 <= epl * (R * P)) by (apply Z.mul_le_mono_nonneg_l; lia).
    assert (epl * (R * P) * 1 <= epl * (R * P) * b)
      by (apply Z.mul_le_mono_nonneg_l; nia).
    lia. }
  assert (Hsrc : u32 (u32 epl * (P * row core' + plane core') * b)
                 = (P * row core' + plane core') * line).
  { rewrite Hepl32.
    replace (epl * (P * row core' + plane core') * b)
      with ((P * row core' + plane core') * line) by (unfold line; ring).
    apply u32_small. unfold INT_MAX in Hmax. lia. }
  pose proof (handler_blast_source A core elapsed) as Hbs.
  cbv zeta in Hbs. fold core' epl P b in Hbs. rewrite Hsrc in Hbs.
  assert (Hoffset : offset = buffer * bufferSize core
                             + (P * row core' + plane core') * line)
    by (unfold offset; rewrite Hbuf; ring).
  split.
  - rewrite Hbs, Hoffset. unfold buffer.
    destruct (doubleBuffer core).
    + rewrite u32_small by (unfold INT_MAX in Hmax; nia).
      do 2 f_equal. ring.
    + rewrite Z.mul_0_l, Z.add_0_l. reflexivity.
  - rewrite Hoffset. split; [lia |]. split; [| exact Hab'].
    replace ((buffer + 1) * bufferSize core)
      with (buffer * bufferSize core + bufferSize core) by ring.
    lia.
Qed.

(** The handler reads the plane it issues at the place the buffer layout
    gives it: element offset ((buffer * numRowPairs + row) * numPlanes +
    plane) * columns, in bytes times the element width, where (row, plane)
    is the cursor after the advance, columns the padded width and buffer
    the active buffer when double-buffered, else 0; a whole line from
    there lies inside that buffer. *)
Theorem handler_source_layout (A : Arch) (core : Protomatter_core)
    (elapsed : Z) :
  scan_ready A core ->
  let core' := fst (_PM_row_handler A core elapsed) in
  let line := chunkSize A * chunk_count A core * bytesPerElement core in
  let buffer := if doubleBuffer core then activeBuffer core' else 0 in
  let offset :=
    ((buffer * numRowPairs core + row core') * numPlanes core + plane core')
    * line in
  blast_sources (snd (_PM_row_handler A core elapsed))
  = [screenData core + offset]
  /\ buffer * bufferSize core <= offset
  /\ offset + line <= (buffer + 1) * bufferSize core.
Proof.
  intros (Hc & Ht & Hw & Hb & Hlay & Hmax & Hab). cbv zeta.
  destruct (handler_source_in_buffer A core elapsed Hc Ht Hw Hb Hlay Hmax Hab)
    as (H1 & H2 & H3 & _).
  repeat split; assumption.
Qed.

Lemma scan_ready_step (A : Arch) (core : Protomatter_core) (elapsed : Z) :
  scan_ready A core -> scan_ready A (fst (_PM_row_handler A core elapsed)).
Proof.
  intros (Hc & Ht & Hw & Hb & Hlay & Hmax & Hab).
  destruct (handler_step A core elapsed Hc Ht) as (Hc' & Ht' & _).
  destruct (handler_source_in_buffer A core elapsed Hc Ht Hw Hb Hlay Hmax Hab)
    as (_ & _ & _ & Hab').
  repeat split; try assumption; apply Hc' || apply Ht' || apply Hab'.
Qed.

(** In every execution from a ready state, every line the handler hands to
    the shift-out functions lies inside the matrix buffers: at or after
    screenData, and ending at or before the end of the one buffer, or of
    the second one when double-buffered. *)
Theorem scan_stays_in_buffers (A : Arch) (elapsed : list Z) :
  forall core,
    scan_ready A core ->
    let line := chunkSize A * chunk_count A core * bytesPerElement core in
    let total := bufferSize core * (if doubleBuffer core then 2 else 1) in
    Forall (fun src => screenData core <= src
                       /\ src + line <= screenData core + total)
           (blast_sources (run_trace A core elapsed))
    /\ length (blast_sources (run_trace A core elapsed)) = length elapsed
    /\ scan_ready A (run_handler A core elapsed).
Proof.
  induction elapsed as [| e es IH]; intros core Hready line total.
  - cbn [run_trace run_handler length].
    split; [apply Forall_nil | split; [reflexivity | exact Hready]].
  - cbn [run_trace run_handler length].
    unfold blast_sources at 1 2. rewrite flat_map_app.
    fold (blast_sources (snd (_PM_row_handler A core e))).
    fold (blast_sources (run_trace A (fst (_PM_row_handler A core e)) es)).
    pose proof (scan_ready_step A core e Hready) as Hready'.
    destruct (IH _ Hready') as (IH1 & IH2 & IH3).
    destruct Hready as (Hc & Ht & Hw & Hb & Hlay & Hmax & Hab).
    destruct (handler_source_in_buffer A core e Hc Ht Hw Hb Hlay Hmax Hab)
      as (Hsrc & Hlo & Hhi & Hab').
    cbv zeta in Hsrc, Hlo, Hhi. rewrite Hsrc.
    split; [| split; [rewrite length_app, IH2; reflexivity | exact IH3]].
    apply Forall_app. split; [| exact IH1].
    constructor; [| constructor].
    fold line in Hlo, Hhi |- *. unfold total.
    pose proof (line_bytes_nonneg A core Hw) as Hepl.
    assert (Hbs : 0 <= bufferSize core) by (rewrite Hlay; destruct Hc; nia).
    destruct (doubleBuffer core); nia.
Qed.

(** A successful begin whose chunk count fits its 8-bit variable leaves the
    core ready for the handler: cursor on the last plane of the last row,
    bufferSize the product of padded width, row pairs, planes and element
    width, active buffer 0; and the mask table starts right after the
    matrix buffers. *)
Theorem begin_makes_scan_ready (A : Arch) (core core' : Protomatter_core)
    (h h' : heap) (tr : list event) :
  _PM_begin A (Some core) h = Ret (PROTOMATTER_OK, Some core', h', tr) ->
  0 <= width core' ->
  chunk_count A core' <= 255 ->
  chunkSize A <= 64 ->
  scan_ready A core'
  /\ (plane core' = numPlanes core' - 1 /\ row core' = numRowPairs core' - 1)
  /\ base (rgbMask core')
     = screenData core'
       + bufferSize core' * (if doubleBuffer core' then 2 else 1).
Proof.
  intros Hbegin Hw Hcc Hcs.
  destruct (begin_ok_inv A core core' h h' tr Hbegin)
    as (bitMask & idx & sp & tables & minP & p & _ & _ & Hsp & _ & Hmin & _
        & _ & Hsd & Hmask & Ebpe & Erows & Esize & _ & _ & _ & _ & Eplanes
        & Ewidth & _ & Edb & _).
  destruct (begin_ok_state A core core' h h' tr Hbegin)
    as (Hpl & Hro & _ & Hab & _ & Hfc & _).
  destruct (begin_buffer_size A core core' h h' tr Hbegin)
    as (full & _ & Hrows & Hbuf & Hmax & Hbpe & _).
  destruct (plan_screen_inv A core bitMask sp Hsp)
    as (full' & _ & _ & _ & _ & _ & _ & Hbytes & _).
  apply min_period_inv in Hmin. destruct Hmin as (HR & HP & _).
  rewrite <- Erows in HR. rewrite <- Eplanes in HP.
  assert (HRr : 0 <= numRowPairs core' < 2 ^ 8)
    by (rewrite Hrows; apply u8_range).
  assert (Hcs0 : 0 < chunkSize A) by (unfold chunkSize; lia).
  assert (Hcc0 : 0 <= chunk_count A core')
    by (unfold chunk_count; apply Z.div_pos; lia).
  rewrite (u8_small (chunk_count A core')) in Hbuf by lia.
  unfold u16 in Hbuf. rewrite Z.mod_small in Hbuf by (simpl; nia).
  rewrite (u8_small (numPlanes core' - 1)) in Hpl by lia.
  rewrite (u8_small (numRowPairs core' - 1)) in Hro by (simpl in HRr; lia).
  assert (Hb1 : 1 <= bytesPerElement core')
    by (destruct Hbpe as [-> | [-> | ->]]; lia).
  assert (Hbs : 0 <= bufferSize core').
  { rewrite Hbuf. simpl in HRr.
    assert (0 <= chunk_count A core' * chunkSize A) by nia.
    assert (0 <= chunk_count A core' * chunkSize A * numRowPairs core') by nia.
    assert (0 <= chunk_count A core' * chunkSize A * numRowPairs core'
                 * numPlanes core') by nia.
    nia. }
  split; [| split].
  - unfold scan_ready, cursor_in_range, counters_typed.
    rewrite Hpl, Hro, Hfc, Hab. simpl in HRr.
    repeat split; try lia; rewrite Hbuf; ring.
  - split; assumption.
  - rewrite Hmask, Hsd, Hbytes, <- Esize, <- Edb.
    destruct (doubleBuffer core'); [| lia].
    rewrite u32_small by (unfold INT_MAX in Hmax; simpl; lia). reflexivity.
Qed.

Lemma begin_makes_scan_ready_witness :
  scan_ready (sample_arch true) (started_core true 64 4 4 6 true)
  /\ base (rgbMask (started_core true 64 4 4 6 true))
     = screenData (started_core true 64 4 4 6 true) + 8192.
Proof.
  assert (Hbegin :
            _PM_begin (sample_arch true)
                      (Some (fst (initialised true 64 4 4 6 true)))
                      (snd (initialised true 64 4 4 6 true))
            = Ret (PROTOMATTER_OK, Some (started_core true 64 4 4 6 true),
                   started_heap true 64 4 4 6 true,
                   started_trace true 64 4 4 6 true))
    by (vm_compute; reflexivity).
  destruct (begin_makes_scan_ready _ _ _ _ _ _ Hbegin
              ltac:(closed_facts) ltac:(closed_facts) ltac:(closed_facts))
    as (Hready & _ & Hmask).
  split; [exact Hready | rewrite Hmask; reflexivity].
Defined.

Lemma handler_source_layout_witness :
  blast_sources
    (snd (_PM_row_handler (sample_arch true)
            (run_handler (sample_arch true) sample_core [1000; 320; 330]) 340))
  = [screenData sample_core + ((0 * 16 + 0) * 4 + 3) * 64].
Proof.
  assert (Hready : scan_ready (sample_arch true)
                     (run_handler (sample_arch true) sample_core
                                  [1000; 320; 330])).
  { unfold scan_ready, cursor_in_range, counters_typed. closed_facts. }
  destruct (handler_source_layout (sample_arch true) _ 340 Hready) as (H & _).
  rewrite H. reflexivity.
Defined.

Lemma scan_stays_in_buffers_witness :
  Forall (fun src => screenData sample_core <= src
                     /\ src + 64 <= screenData sample_core + 4096)
         (blast_sources (run_trace (sample_arch true) sample_core
                                   (repeat 320 100))).
Proof.
  assert (Hready : scan_ready (sample_arch true) sample_core).
  { unfold scan_ready, cursor_in_range, counters_typed. closed_facts. }
  destruct (scan_stays_in_buffers (sample_arch true) (repeat 320 100)
              sample_core Hready) as (H & _).
  exact H.
Defined.

(** ** The shift-out functions *)

Lemma PEW_writes (A : Arch) (core : Protomatter_core) (w offset : Z)
    (mem : Z -> Z) (data : Z) :
  length (reg_writes (PEW A core w offset mem data))
  = (if has_toggle A then 2%nat else 3%nat).
Proof.
  unfold PEW.
  destruct (_PM_STRICT_32BIT_IO A); destruct (has_toggle A); reflexivity.
Qed.

Lemma reg_writes_app (tr1 tr2 : list event) :
  reg_writes (tr1 ++ tr2) = reg_writes tr1 ++ reg_writes tr2.
Proof. unfold reg_writes. apply flat_map_app. Qed.

Lemma PEW_last_write (A : Arch) (core : Protomatter_core) (w offset : Z)
    (mem : Z -> Z) (data : Z) :
  has_toggle A = false ->
  exists front,
    reg_writes (PEW A core w offset mem data)
    = front ++ [(clearReg core, u32 (rgbAndClockMask core))].
Proof.
  intros Ht. unfold PEW. rewrite Ht.
  destruct (_PM_STRICT_32BIT_IO A); cbn [negb reg_writes flat_map app];
    eexists [_; _]; reflexivity.
Qed.

(** One call of a shift-out function writes the PORT twice per column when
    there is a toggle register, plus once at the end to leave RGB data and
    clock low, and three times per column when there is none, the third
    write of every column being the one that clears RGB data and clock. *)
Theorem blast_port_writes (A : Arch) (core : Protomatter_core) (w offset : Z)
    (mem : Z -> Z) (data : Z) :
  let n := Z.to_nat (blast_columns A core) in
  length (reg_writes (blast A core w offset mem data))
  = (if has_toggle A then 2 * n + 1 else 3 * n)%nat
  /\ (has_toggle A = true ->
      exists front reg,
        reg_writes (blast A core w offset mem data)
        = front ++ [(reg, if _PM_STRICT_32BIT_IO A
                          then u32 (rgbAndClockMask core)
                          else rgbAndClockMask core mod 2 ^ (8 * w))]
        /\ reg = (if _PM_STRICT_32BIT_IO A then clearReg core
                  else clearReg core + w * offset))
  /\ (has_toggle A = false -> (0 < n)%nat ->
      exists front,
        reg_writes (blast A core w offset mem data)
        = front ++ [(clearReg core, u32 (rgbAndClockMask core))]).
Proof.
  intros n. unfold blast. fold n.
  rewrite reg_writes_app.
  assert (Hloop : forall l : list nat,
             length (reg_writes
                       (flat_map (fun i => PEW A core w offset mem
                                               (data + w * Z.of_nat i)) l))
             = ((if has_toggle A then 2 else 3) * length l)%nat).
  { induction l as [| i l IH]; [destruct (has_toggle A); reflexivity |].
    cbn [flat_map length]. rewrite reg_writes_app, length_app, PEW_writes, IH.
    destruct (has_toggle A); lia. }
  split; [| split].
  - rewrite length_app, Hloop, length_seq.
    destruct (has_toggle A); [| cbn [reg_writes flat_map length]; lia].
    destruct (_PM_STRICT_32BIT_IO A); cbn [negb reg_writes flat_map length app];
      lia.
  - intros Ht. rewrite Ht.
    destruct (_PM_STRICT_32BIT_IO A); cbn [negb reg_writes flat_map app];
      eexists; eexists; split; reflexivity.
  - intros Ht Hn. rewrite Ht. cbn [reg_writes flat_map]. rewrite app_nil_r.
    destruct n as [| m]; [lia |].
    rewrite seq_S, flat_map_app, reg_writes_app. cbn [flat_map].
    rewrite app_nil_r.
    destruct (PEW_last_write A core w offset mem
                (data + w * Z.of_nat (0 + m)) Ht) as (front & Hfront).
    rewrite Hfront, app_assoc. eexists. reflexivity.
Qed.

(** A shift-out call reads the matrix buffer only at the elements of its
    own line: [blast_columns] consecutive elements from [data] on. *)
Lemma blast_reads_only_its_line (A : Arch) (core : Protomatter_core)
    (w offset : Z) (mem mem' : Z -> Z) (data : Z) :
  (forall i, 0 <= i < blast_columns A core ->
             mem (data + w * i) = mem' (data + w * i)) ->
  blast A core w offset mem data = blast A core w offset mem' data.
Proof.
  intros Hagree. unfold blast. f_equal.
  rewrite !flat_map_concat_map. f_equal.
  apply map_ext_in. intros i Hi. apply in_seq in Hi.
  unfold PEW. rewrite (Hagree (Z.of_nat i)) by lia. reflexivity.
Qed.

(** The columns shifted out are the width padded to a whole number of
    chunks, as long as the chunk count fits its 8-bit variable; beyond
    that the count wraps and fewer columns than the width go out. *)
Theorem blast_columns_pad_width (A : Arch) (core : Protomatter_core) :
  0 <= width core ->
  (chunk_count A core <= 255 ->
     width core <= blast_columns A core < width core + chunkSize A
     /\ blast_columns A core mod chunkSize A = 0)
  /\ (255 < chunk_count A core ->
        blast_columns A core <= 255 * chunkSize A < width core).
Proof.
  intros Hw. unfold blast_columns, chunk_count.
  assert (Hcs : 0 < chunkSize A) by (unfold chunkSize; lia).
  pose proof (Z.div_mod (width core + (chunkSize A - 1)) (chunkSize A)
                ltac:(lia)) as Hdm.
  pose proof (Z.mod_pos_bound (width core + (chunkSize A - 1)) (chunkSize A)
                Hcs) as Hr.
  set (q := (width core + (chunkSize A - 1)) / chunkSize A) in *.
  assert (Hq : 0 <= q) by (apply Z.div_pos; lia).
  split.
  - intros Hcc. rewrite u8_small by lia.
    split; [nia | apply Z.mod_mul; lia].
  - intros Hcc. pose proof (u8_range q) as Hu. simpl in Hu. nia.
Qed.

Lemma blast_columns_pad_width_witness :
  width (started_core true 61 4 4 6 false) = 61
  /\ (61 <= blast_columns (sample_arch true) (started_core true 61 4 4 6 false)
       < 61 + 8
      /\ blast_columns (sample_arch true) (started_core true 61 4 4 6 false)
         mod 8 = 0).
Proof.
  split; [reflexivity |].
  destruct (blast_columns_pad_width (sample_arch true)
              (started_core true 61 4 4 6 false) ltac:(closed_facts))
    as [H _].
  exact (H ltac:(closed_facts)).
Defined.

(** The shift-out call at the end of a handler run reads nothing outside
    the matrix buffers: with the chunk count within 8 bits, two memories
    that agree on the buffers give the same PORT writes. *)
Theorem shift_out_reads_inside_buffers (A : Arch) (core : Protomatter_core)
    (elapsed : Z) (mem mem' : Z -> Z) :
  scan_ready A core ->
  chunk_count A core <= 255 ->
  bytesPerElement core = 1 \/ bytesPerElement core = 2
  \/ bytesPerElement core = 4 ->
  (forall a,
      screenData core <= a
      < screenData core
        + bufferSize core * (if doubleBuffer core then 2 else 1) ->
      mem a = mem' a) ->
  forall src,
    In src (blast_sources (snd (_PM_row_handler A core elapsed))) ->
    shift_out A (fst (_PM_row_handler A core elapsed)) mem src
    = shift_out A (fst (_PM_row_handler A core elapsed)) mem' src.
Proof.
  intros Hready Hcc Hbpe Hagree src Hsrc.
  destruct Hready as (Hc & Ht & Hw & Hb & Hlay & Hmax & Hab).
  destruct (handler_source_in_buffer A core elapsed Hc Ht Hw Hb Hlay Hmax Hab)
    as (Hbs & Hlo & Hhi & Hab').
  cbv zeta in Hbs, Hlo, Hhi. rewrite Hbs in Hsrc.
  destruct Hsrc as [<- | []].
  set (core' := fst (_PM_row_handler A core elapsed)) in *.
  set (buffer := if doubleBuffer core then activeBuffer core' else 0) in *.
  set (offset := ((buffer * numRowPairs core + row core') * numPlanes core
                  + plane core')
                 * (chunkSize A * chunk_count A core * bytesPerElement core))
    in *.
  pose proof (line_bytes_nonneg A core Hw) as Hepl.
  assert (Hcs : 0 < chunkSize A) by (unfold chunkSize; lia).
  assert (Hcc0 : 0 <= chunk_count A core)
    by (unfold chunk_count; apply Z.div_pos; lia).
  assert (Hcols : blast_columns A core' = chunkSize A * chunk_count A core).
  { unfold blast_columns. change (chunk_count A core') with (chunk_count A core).
    rewrite u8_small by lia. ring. }
  assert (Hbs0 : 0 <= bufferSize core) by (rewrite Hlay; destruct Hc; nia).
  assert (Hbuf : 0 <= buffer <= 1)
    by (unfold buffer; destruct (doubleBuffer core); lia).
  assert (Hin : forall w i,
             w = bytesPerElement core -> 0 <= i < blast_columns A core' ->
             mem (screenData core + offset + w * i)
             = mem' (screenData core + offset + w * i)).
  { intros w i -> Hi. rewrite Hcols in Hi. apply Hagree.
    assert (bytesPerElement core * i + bytesPerElement core
            <= chunkSize A * chunk_count A core * bytesPerElement core) by nia.
    unfold buffer in *. destruct (doubleBuffer core); nia. }
  unfold shift_out, blast_byte, blast_word, blast_long.
  change (bytesPerElement core') with (bytesPerElement core).
  destruct Hbpe as [E | [E | E]]; rewrite E; cbn [Z.eqb Pos.eqb];
    apply blast_reads_only_its_line; intros i Hi; apply Hin;
    (exact Hi || (symmetry; exact E)).
Qed.

Lemma shift_out_reads_inside_buffers_witness :
  shift_out (sample_arch true)
            (fst (_PM_row_handler (sample_arch true) sample_core 1000))
            (fun a => a mod 251) (screenData sample_core)
  = shift_out (sample_arch true)
              (fst (_PM_row_handler (sample_arch true) sample_core 1000))
              (fun a => if a <? screenData sample_core + 4096
                        then a mod 251 else 0)
              (screenData sample_core).
Proof.
  assert (Hready : scan_ready (sample_arch true) sample_core).
  { unfold scan_ready, cursor_in_range, counters_typed. closed_facts. }
  apply (shift_out_reads_inside_buffers (sample_arch true) sample_core 1000
           _ _ Hready ltac:(closed_facts) ltac:(left; reflexivity)).
  - intros a Ha. cbv beta.
    change (bufferSize sample_core * (if doubleBuffer sample_core then 2 else 1))
      with 4096 in Ha.
    destruct (Z.ltb_spec a (screenData sample_core + 4096)); [reflexivity | lia].
  - left. reflexivity.
Defined.

(** ** begin and the pins' ports *)

Lemma bitMask_of_pins_fold_none (A : Arch) (core : Protomatter_core)
    (idx : list Z) :
  fold_left
    (fun acc i =>
       match acc with
       | None => None
       | Some bitMask =>
         let pin := get 0 (rgbPins core) i in
         if _PM_portOutRegister A pin =? _PM_portOutRegister A (clockPin core)
         then Some (Z.lor bitMask (u32 (_PM_portBitMask A pin)))
         else None
       end) idx None = None.
Proof. induction idx as [| i idx IH]; [reflexivity | exact IH]. Qed.

Lemma bitMask_of_pins_none (A : Arch) (core : Protomatter_core) (idx : list Z) :
  bitMask_of_pins A core idx = None
  <-> exists i, In i idx
                /\ _PM_portOutRegister A (get 0 (rgbPins core) i)
                   <> _PM_portOutRegister A (clockPin core).
Proof.
  unfold bitMask_of_pins.
  generalize (if has_toggle A then u32 (_PM_portBitMask A (clockPin core)) else 0).
  induction idx as [| i idx IH]; intros acc; cbn [fold_left].
  - split; [discriminate | intros (i & [] & _)].
  - destruct (Z.eqb_spec (_PM_portOutRegister A (get 0 (rgbPins core) i))
                         (_PM_portOutRegister A (clockPin core))) as [E | E].
    + rewrite IH. split.
      * intros (j & Hj & Hne). exists j. split; [right; exact Hj | exact Hne].
      * intros (j & [<- | Hj] & Hne); [contradiction |].
        exists j. split; assumption.
    + rewrite bitMask_of_pins_fold_none. split; [| reflexivity].
      intros _. exists i. split; [left; reflexivity | exact E].
Qed.

(** begin returns ERR_PINS exactly when one of the 6 * parallel RGB pins
    is on another PORT than the clock pin, and then it has changed nothing:
    nothing allocated, nothing released, no pin configured. *)
Theorem begin_pins_error (A : Arch) (core : Protomatter_core) (h : heap) :
  base (rgbPins core) <> NULL ->
  0 <= parallel core * 6 <= 255 ->
  let mismatch :=
    exists i, 0 <= i < parallel core * 6
              /\ _PM_portOutRegister A (get 0 (rgbPins core) i)
                 <> _PM_portOutRegister A (clockPin core) in
  (mismatch ->
     _PM_begin A (Some core) h = Ret (PROTOMATTER_ERR_PINS, Some core, h, []))
  /\ (forall core' h' tr,
        _PM_begin A (Some core) h = Ret (PROTOMATTER_ERR_PINS, core', h', tr) ->
        mismatch).
Proof.
  intros Hpins Hpar mismatch.
  assert (Hidx : forall i, In i (map Z.of_nat (seq 0 (Z.to_nat (parallel core * 6))))
                           <-> 0 <= i < parallel core * 6).
  { intros i. rewrite in_map_iff. split.
    - intros (n & <- & Hn). apply in_seq in Hn. lia.
    - intros Hi. exists (Z.to_nat i). split; [lia | apply in_seq; lia]. }
  assert (Hscan : scan_pins A core
                  = Ret (bitMask_of_pins A core
                           (map Z.of_nat (seq 0 (Z.to_nat (parallel core * 6)))))).
  { unfold scan_pins, rgb_indices.
    replace (255 <? parallel core * 6) with false
      by (symmetry; apply Z.ltb_ge; lia).
    reflexivity. }
  apply Z.eqb_neq in Hpins.
  split.
  - intros (i & Hi & Hne).
    unfold _PM_begin. rewrite Hpins, Hscan. cbn [bind].
    replace (bitMask_of_pins A core _) with (@None Z); [reflexivity |].
    symmetry. apply bitMask_of_pins_none. exists i.
    split; [apply Hidx; exact Hi | exact Hne].
  - intros core' h' tr H. unfold _PM_begin in H.
    rewrite Hpins, Hscan in H. cbn [bind] in H.
    destruct (bitMask_of_pins A core _) as [bitMask |] eqn:Hbm.
    + exfalso.
      destruct (rgb_indices core) as [idx | |]; cbn [bind] in H;
        try discriminate.
      destruct (plan_screen A core bitMask) as [sp | |]; cbn [bind] in H;
        try discriminate.
      cbv zeta in H.
      destruct (_PM_ALLOCATOR h (u32 (sp_screenBytes sp + sp_rgbMaskBytes sp)))
        as [p h1].
      destruct (p =? NULL); [discriminate |].
      destruct (remap_tables A (numPlanes core)) as [tables | |];
        cbn [bind] in H; try discriminate.
      destruct (min_period A (sp_numRowPairs sp) (numPlanes core))
        as [minP | |]; cbn [bind] in H; try discriminate.
      destruct (shl_int 1 (numAddressLines core)) as [full | |];
        cbn [bind] in H; try discriminate.
    + apply bitMask_of_pins_none in Hbm. destruct Hbm as (i & Hi & Hne).
      exists i. split; [apply Hidx; exact Hi | exact Hne].
Qed.

Lemma begin_pins_error_witness :
  _PM_begin (sample_arch true)
            (Some (fst (initialised true 64 4 4 40 false)))
            (snd (initialised true 64 4 4 40 false))
  = Ret (PROTOMATTER_ERR_PINS, Some (fst (initialised true 64 4 4 40 false)),
         snd (initialised true 64 4 4 40 false), []).
Proof.
  destruct (begin_pins_error (sample_arch true)
              (fst (initialised true 64 4 4 40 false))
              (snd (initialised true 64 4 4 40 false))
              ltac:(discriminate) ltac:(closed_facts)) as [H _].
  apply H. exists 0. split; [closed_facts | discriminate].
Defined.

(** ** The adaptive bit-zero period over many runs *)

Lemma filtered_period_exact (core : Protomatter_core) (elapsed : Z) :
  0 <= bitZeroPeriod core -> 0 <= elapsed ->
  7 * bitZeroPeriod core + elapsed < 2 ^ 32 ->
  filtered_period core elapsed
  = Z.max (minPeriod core) ((7 * bitZeroPeriod core + elapsed) / 8).
Proof.
  intros Hb He Hfit. unfold filtered_period. rewrite u32_u32_add.
  replace (bitZeroPeriod core * 7) with (7 * bitZeroPeriod core) by lia.
  rewrite u32_small by lia.
  destruct (Z.ltb_spec ((7 * bitZeroPeriod core + elapsed) / 8)
                       (minPeriod core)); lia.
Qed.

(** One run keeps the period between the smaller and the larger of the old
    period and the measurement, the floor [minPeriod] apart. *)
Lemma handler_period_between (A : Arch) (core : Protomatter_core)
    (elapsed L U : Z) :
  0 <= L -> L <= elapsed <= U -> minPeriod core <= U -> 8 * U < 2 ^ 32 ->
  L <= bitZeroPeriod core <= U ->
  L <= bitZeroPeriod (fst (_PM_row_handler A core elapsed)) <= U.
Proof.
  intros HL He Hmp HU Hb. rewrite handler_bitZeroPeriod.
  destruct ((plane core =? 1) || (numPlanes core =? 1)); [| exact Hb].
  rewrite filtered_period_exact by lia.
  pose proof (Z.div_le_lower_bound (7 * bitZeroPeriod core + elapsed) 8 L).
  pose proof (Z.div_le_upper_bound (7 * bitZeroPeriod core + elapsed) 8 U).
  lia.
Qed.

(** The period of a core stays within the range of the measurements the
    timer reports, whatever their order: with every measurement in
    [L, U], the floor at most [U] and the period in [L, U] to start with,
    the period is in [L, U] after any number of runs. *)
Theorem bit_zero_period_bounded (A : Arch) (L U : Z) (elapsed : list Z) :
  forall core,
    0 <= L -> minPeriod core <= U -> 8 * U < 2 ^ 32 ->
    Forall (fun e => L <= e <= U) elapsed ->
    L <= bitZeroPeriod core <= U ->
    L <= bitZeroPeriod (run_handler A core elapsed) <= U.
Proof.
  induction elapsed as [| e es IH]; intros core HL Hmp HU Hall Hb;
    cbn [run_handler]; [exact Hb |].
  inversion Hall as [| e' es' He Hes]; subst.
  apply IH; try assumption.
  apply handler_period_between; assumption.
Qed.

Lemma bit_zero_period_bounded_witness :
  300 <= bitZeroPeriod
           (run_handler (sample_arch true) sample_core
                        [900; 700; 1200; 800; 950; 1000; 300; 1100])
      <= 1200.
Proof.
  apply (bit_zero_period_bounded (sample_arch true) 300 1200);
    [lia | closed_facts | lia | | closed_facts].
  repeat constructor; lia.
Defined.

(** With a steady measurement [e] a run never moves the period away from
    [e - 7 .. e], and a run that filters moves it at least one tick
    closer. *)
Lemma handler_period_closer (A : Arch) (core : Protomatter_core) (e n : Z) :
  0 <= minPeriod core <= e -> 0 <= bitZeroPeriod core -> 0 <= n ->
  e - 7 - n <= bitZeroPeriod core <= e + n -> 8 * (e + n) < 2 ^ 32 ->
  let b' := bitZeroPeriod (fst (_PM_row_handler A core e)) in
  0 <= b' /\ e - 7 - n <= b' <= e + n
  /\ (plane core = 1 \/ numPlanes core = 1 -> 1 <= n ->
      e - 7 - (n - 1) <= b' <= e + (n - 1)).
Proof.
  intros Hmp Hb Hn Hd Hfit b'. unfold b'. rewrite handler_bitZeroPeriod.
  assert (Hval : filtered_period core e
                 = Z.max (minPeriod core) ((7 * bitZeroPeriod core + e) / 8))
    by (apply filtered_period_exact; lia).
  pose proof (Z.mul_div_le (7 * bitZeroPeriod core + e) 8).
  pose proof (Z.mul_succ_div_gt (7 * bitZeroPeriod core + e) 8).
  pose proof (Z.div_pos (7 * bitZeroPeriod core + e) 8).
  split; [| split].
  - destruct ((plane core =? 1) || (numPlanes core =? 1));
      [rewrite Hval |]; lia.
  - destruct ((plane core =? 1) || (numPlanes core =? 1));
      [rewrite Hval |]; lia.
  - intros Hupd Hn1.
    replace ((plane core =? 1) || (numPlanes core =? 1)) with true.
    + rewrite Hval. lia.
    + destruct Hupd as [E | E]; rewrite E;
        [reflexivity | symmetry; apply orb_true_r].
Qed.

Lemma run_handler_app (A : Arch) (es1 es2 : list Z) :
  forall core,
    run_handler A core (es1 ++ es2)
    = run_handler A (run_handler A core es1) es2.
Proof.
  induction es1 as [| e es IH]; intros core; cbn [app run_handler];
    [reflexivity | apply IH].
Qed.

Lemma run_handler_minPeriod (A : Arch) (es : list Z) :
  forall core, minPeriod (run_handler A core es) = minPeriod core.
Proof.
  induction es as [| e es IH]; intros core; cbn [run_handler];
    [reflexivity |].
  rewrite IH. apply handler_minPeriod.
Qed.

(** Any number of runs with the steady measurement keeps the distance. *)
Lemma run_period_not_farther (A : Arch) (e n : Z) (k : nat) :
  forall core,
    0 <= minPeriod core <= e -> 0 <= bitZeroPeriod core -> 0 <= n ->
    e - 7 - n <= bitZeroPeriod core <= e + n -> 8 * (e + n) < 2 ^ 32 ->
    0 <= bitZeroPeriod (run_handler A core (repeat e k))
    /\ e - 7 - n <= bitZeroPeriod (run_handler A core (repeat e k)) <= e + n.
Proof.
  induction k as [| k IH]; intros core Hmp Hb Hn Hd Hfit;
    cbn [repeat run_handler]; [auto |].
  destruct (handler_period_closer A core e n Hmp Hb Hn Hd Hfit)
    as (Hb' & Hd' & _).
  apply IH; assumption.
Qed.

(** Within [numPlanes] runs the handler filters at least once, so the
    distance shrinks. *)
Lemma run_period_closer (A : Arch) (e n : Z) (m : nat) :
  forall core (k : nat),
    cursor_in_range core -> counters_typed core ->
    (1 - plane core) mod numPlanes core = Z.of_nat m ->
    (m < k)%nat ->
    0 <= minPeriod core <= e -> 0 <= bitZeroPeriod core -> 1 <= n ->
    e - 7 - n <= bitZeroPeriod core <= e + n -> 8 * (e + n) < 2 ^ 32 ->
    0 <= bitZeroPeriod (run_handler A core (repeat e k))
    /\ e - 7 - (n - 1) <= bitZeroPeriod (run_handler A core (repeat e k))
       <= e + (n - 1).
Proof.
  induction m as [| m IH]; intros core k Hc Ht Hm Hk Hmp Hb Hn Hd Hfit;
    (destruct k as [| k]; [lia |]); cbn [repeat run_handler];
    destruct (handler_period_closer A core e n Hmp Hb ltac:(lia) Hd Hfit)
      as (Hb' & Hd' & Hupd);
    destruct (handler_step A core e Hc Ht) as (Hc' & Ht' & Hp' & _).
  - assert (Hu : plane core = 1 \/ numPlanes core = 1).
    { destruct Hc as [Hp _].
      destruct (Z.eq_dec (numPlanes core) 1) as [E | E]; [right; exact E |].
      left. change (Z.of_nat 0) with 0 in Hm.
      destruct (Z.eq_dec (plane core) 1) as [E1 | E1]; [exact E1 |].
      destruct (Z.eq_dec (plane core) 0) as [E0 | E0].
      - rewrite E0, Z.mod_small in Hm by lia. lia.
      - replace (1 - plane core)
          with (numPlanes core + 1 - plane core + (-1) * numPlanes core)
          in Hm by lia.
        rewrite Z.mod_add, Z.mod_small in Hm by lia. lia. }
    specialize (Hupd Hu Hn).
    apply run_period_not_farther; try assumption; try lia.
  - apply IH; try assumption; try lia.
    rewrite Hp'. change (numPlanes (fst (_PM_row_handler A core e)))
      with (numPlanes core).
    destruct Hc as [Hp _].
    rewrite Zminus_mod_idemp_r.
    replace (1 - (plane core + 1)) with ((1 - plane core) + (-1)) by lia.
    rewrite <- Zplus_mod_idemp_l, Hm.
    replace (Z.of_nat (S m) + -1) with (Z.of_nat m) by lia.
    apply Z.mod_small.
    pose proof (Z.mod_pos_bound (1 - plane core) (numPlanes core)).
    lia.
Qed.

(** With a steady measurement [e], not below the floor, the period
    settles: starting [n] ticks outside [e - 7 .. e] it is inside after
    [n * numPlanes] runs, and it stays inside ever after. *)
Theorem bit_zero_period_settles (A : Arch) (e : Z) (n : nat) :
  forall core (k : nat),
    cursor_in_range core -> counters_typed core ->
    0 <= minPeriod core <= e -> 0 <= bitZeroPeriod core ->
    e - 7 - Z.of_nat n <= bitZeroPeriod core <= e + Z.of_nat n ->
    8 * (e + Z.of_nat n) < 2 ^ 32 ->
    Z.of_nat n * numPlanes core <= Z.of_nat k ->
    e - 7 <= bitZeroPeriod (run_handler A core (repeat e k)) <= e.
Proof.
  induction n as [| n IH]; intros core k Hc Ht Hmp Hb Hd Hfit Hk.
  - change (Z.of_nat 0) with 0 in Hd, Hfit.
    assert (Hd0 : e - 7 - 0 <= bitZeroPeriod core <= e + 0) by lia.
    destruct (run_period_not_farther A e 0 k core Hmp Hb (Z.le_refl 0)
                Hd0 Hfit) as [_ H].
    lia.
  - pose proof Hc as [Hp _].
    set (P := Z.to_nat (numPlanes core)).
    assert (HP : Z.of_nat P = numPlanes core) by (unfold P; lia).
    replace k with (P + (k - P))%nat by nia.
    rewrite repeat_app, run_handler_app.
    pose proof (Z.mod_pos_bound (1 - plane core) (numPlanes core)
                  ltac:(lia)) as Hm.
    destruct (run_period_closer A e (Z.of_nat (S n))
                (Z.to_nat ((1 - plane core) mod numPlanes core)) core P
                Hc Ht ltac:(lia) ltac:(lia) Hmp Hb ltac:(lia) Hd Hfit)
      as [Hb1 Hd1].
    destruct (run_handler_in_range A (repeat e P) core Hc Ht)
      as (Hc1 & Ht1 & HP1 & _).
    apply IH; try assumption.
    + rewrite run_handler_minPeriod. exact Hmp.
    + lia.
    + lia.
    + rewrite HP1. nia.
Qed.

Lemma bit_zero_period_settles_witness :
  893 <= bitZeroPeriod
           (run_handler (sample_arch true) sample_core (repeat 900 2292))
      <= 900.
Proof.
  apply (bit_zero_period_settles (sample_arch true) 900 573 sample_core 2292);
    closed_facts.
Defined.

(** ** The row address update through the toggle register *)

Lemma land_disjoint_testbit (x y i : Z) :
  Z.land x y = 0 -> Z.testbit x i && Z.testbit y i = false.
Proof. intros H. rewrite <- Z.land_spec, H. apply Z.bits_0. Qed.

Lemma fold_lor_testbit (c : Z -> bool) (m : Z -> Z) (i : Z) (ls : list Z) :
  forall a,
    Z.testbit (fold_left (fun acc l => if c l then acc else Z.lor acc (m l))
                         ls a) i
    = Z.testbit a i || existsb (fun l => negb (c l) && Z.testbit (m l) i) ls.
Proof.
  induction ls as [| l ls IH]; intros a; cbn [fold_left existsb].
  - rewrite orb_false_r. reflexivity.
  - rewrite IH. destruct (c l); cbn [negb andb orb]; [reflexivity |].
    rewrite Z.lor_spec, orb_assoc. reflexivity.
Qed.

Lemma address_lines_NoDup (core : Protomatter_core) :
  NoDup (address_lines core).
Proof.
  unfold address_lines.
  generalize (seq_NoDup (Z.to_nat (numAddressLines core)) 0).
  induction 1 as [| n ns Hn Hns IH]; cbn [map]; constructor; [| exact IH].
  rewrite in_map_iff. intros (n' & E & Hn'). apply Nat2Z.inj in E.
  subst n'. contradiction.
Qed.

Lemma address_lines_In (core : Protomatter_core) (line : Z) :
  In line (address_lines core) <-> 0 <= line < numAddressLines core.
Proof.
  unfold address_lines. rewrite in_map_iff. split.
  - intros (n & <- & Hn). apply in_seq in Hn. lia.
  - intros H. exists (Z.to_nat line). split; [lia | apply in_seq; lia].
Qed.

(** Among lines of which at most one has the bit, the one that has it
    decides. *)
Lemma existsb_unique (f t : Z -> bool) (ls : list Z) (line : Z) :
  In line ls -> t line = true ->
  (forall l, In l ls -> t l = true -> l = line) ->
  existsb (fun l => f l && t l) ls = f line.
Proof.
  intros Hin Ht Huniq.
  destruct (existsb (fun l => f l && t l) ls) eqn:E.
  - apply existsb_exists in E. destruct E as (l & Hl & Hfl).
    apply andb_prop in Hfl. destruct Hfl as [Hf Htl].
    rewrite <- (Huniq l Hl Htl). symmetry. exact Hf.
  - destruct (f line) eqn:Ef; [| reflexivity].
    assert (Ex : existsb (fun l => f l && t l) ls = true).
    { apply existsb_exists. exists line. rewrite Ef, Ht. auto. }
    congruence.
Qed.

Lemma existsb_none (f t : Z -> bool) (ls : list Z) :
  (forall l, In l ls -> t l = false) ->
  existsb (fun l => f l && t l) ls = false.
Proof.
  intros H. induction ls as [| l ls IH]; [reflexivity |].
  cbn [existsb]. rewrite (H l (or_introl eq_refl)), andb_false_r, IH;
    [reflexivity |].
  intros l' Hl'. apply H. right. exact Hl'.
Qed.

(** With all address lines on one PORT that has a toggle register, and
    the lines on distinct bits of it, the single word the handler writes
    to the toggle register moves the address lines from the previous row
    to the row: on a port whose address bits show [prevRow], flipping the
    written bits makes every address bit show [row] and changes no other
    bit of the port. *)
Theorem address_toggle_moves_lines (A : Arch) (core : Protomatter_core)
    (out : Z) :
  has_toggle A = true -> singleAddrPort core = true ->
  (forall l1 l2,
      0 <= l1 < numAddressLines core -> 0 <= l2 < numAddressLines core ->
      l1 <> l2 ->
      Z.land (pin_bit (get no_pin (addr core) l1))
             (pin_bit (get no_pin (addr core) l2)) = 0) ->
  (forall line i,
      0 <= line < numAddressLines core ->
      Z.testbit (pin_bit (get no_pin (addr core) line)) i = true ->
      Z.testbit out i = negb (Z.land (prevRow core) (line_bit line) =? 0)) ->
  exists w,
    address_update A core
    = [RegWrite (addrPortToggle core) w; DelayMicroseconds _PM_ROW_DELAY]
    /\ (forall line i,
          0 <= line < numAddressLines core ->
          Z.testbit (pin_bit (get no_pin (addr core) line)) i = true ->
          Z.testbit (Z.lxor out w) i
          = negb (Z.land (row core) (line_bit line) =? 0))
    /\ (forall i,
          (forall line, 0 <= line < numAddressLines core ->
             Z.testbit (pin_bit (get no_pin (addr core) line)) i = false) ->
          Z.testbit (Z.lxor out w) i = Z.testbit out i).
Proof.
  intros Htog Hsingle Hdis Henc.
  unfold address_update, address_toggle. rewrite Htog, Hsingle. cbn [andb].
  eexists. split; [reflexivity |].
  set (m := fun l => pin_bit (get no_pin (addr core) l)).
  assert (Hbits : forall r i,
             Z.testbit
               (fold_left (fun acc line =>
                             if Z.land r (line_bit line) =? 0 then acc
                             else Z.lor acc (m line))
                          (address_lines core) 0) i
             = existsb (fun l => negb (Z.land r (line_bit l) =? 0)
                                 && Z.testbit (m l) i)
                       (address_lines core)).
  { intros r i.
    rewrite (fold_lor_testbit (fun l => Z.land r (line_bit l) =? 0) m).
    rewrite Z.bits_0. reflexivity. }
  split.
  - intros line i Hline Hi.
    rewrite !Z.lxor_spec, !Hbits.
    assert (Huniq : forall l, In l (address_lines core) ->
                              Z.testbit (m l) i = true -> l = line).
    { intros l Hl Hli. apply address_lines_In in Hl.
      destruct (Z.eq_dec l line) as [E | E]; [exact E | exfalso].
      pose proof (land_disjoint_testbit _ _ i (Hdis l line Hl Hline E)) as D.
      unfold m in Hli. rewrite Hli, Hi in D. discriminate. }
    rewrite !(existsb_unique _ (fun l => Z.testbit (m l) i) _ line)
      by (try apply address_lines_In; assumption).
    rewrite (Henc line i Hline Hi).
    destruct (Z.land (prevRow core) (line_bit line) =? 0),
             (Z.land (row core) (line_bit line) =? 0); reflexivity.
  - intros i Hnone.
    rewrite !Z.lxor_spec, !Hbits.
    rewrite !(existsb_none _ (fun l => Z.testbit (m l) i))
      by (intros l Hl; apply Hnone, address_lines_In, Hl).
    apply xorb_false_r.
Qed.

Lemma address_toggle_moves_lines_witness :
  exists w,
    address_update (sample_arch true) sample_core
    = [RegWrite (addrPortToggle sample_core) w;
       DelayMicroseconds _PM_ROW_DELAY]
    /\ Z.testbit (Z.lxor 0xE0000 w) 16 = true
    /\ Z.testbit (Z.lxor 0xE0000 w) 3 = Z.testbit 0xE0000 3.
Proof.
  assert (Hm : forall l, 0 <= l < numAddressLines sample_core ->
                         pin_bit (get no_pin (addr sample_core) l)
                         = 2 ^ (16 + l)).
  { intros l Hl. change (numAddressLines sample_core) with 4 in Hl.
    assert (C : l = 0 \/ l = 1 \/ l = 2 \/ l = 3) by lia.
    destruct C as [-> | [-> | [-> | ->]]]; reflexivity. }
  destruct (address_toggle_moves_lines (sample_arch true) sample_core 0xE0000
              eq_refl eq_refl) as (w & Hw & Hrow & Hrest).
  - intros l1 l2 H1 H2 Hne. rewrite !Hm by assumption.
    change (numAddressLines sample_core) with 4 in H1, H2.
    assert (C1 : l1 = 0 \/ l1 = 1 \/ l1 = 2 \/ l1 = 3) by lia.
    assert (C2 : l2 = 0 \/ l2 = 1 \/ l2 = 2 \/ l2 = 3) by lia.
    destruct C1 as [-> | [-> | [-> | ->]]], C2 as [-> | [-> | [-> | ->]]];
      try contradiction; reflexivity.
  - intros line i Hline Hi. rewrite Hm in Hi by assumption.
    change (numAddressLines sample_core) with 4 in Hline.
    rewrite Z.pow2_bits_eqb in Hi by lia. apply Z.eqb_eq in Hi. subst i.
    assert (C : line = 0 \/ line = 1 \/ line = 2 \/ line = 3) by lia.
    destruct C as [-> | [-> | [-> | ->]]]; reflexivity.
  - exists w. split; [exact Hw | split].
    + apply (Hrow 0 16); [closed_facts | reflexivity].
    + apply Hrest. intros line Hline. rewrite Hm by assumption.
      change (numAddressLines sample_core) with 4 in Hline.
      apply Z.pow2_bits_false. lia.
Defined.

(** ** The pin masks begin stores *)

Lemma begin_ok_masks (A : Arch) (core core' : Protomatter_core) (h h' : heap)
    (tr : list event) :
  _PM_begin A (Some core) h = Ret (PROTOMATTER_OK, Some core', h', tr) ->
  exists bitMask idx sp p,
    scan_pins A core = Ret (Some bitMask)
    /\ rgb_indices core = Ret idx
    /\ plan_screen A core bitMask = Ret sp
    /\ bytesPerElement core' = sp_bytesPerElement sp
    /\ elems (rgbMask core')
       = mp_rgbMask (plan_masks A core bitMask (sp_bytesPerElement sp) p
                                (sp_screenBytes sp) idx)
    /\ clockMask core'
       = mp_clockMask (plan_masks A core bitMask (sp_bytesPerElement sp) p
                                  (sp_screenBytes sp) idx)
    /\ portOffset core'
       = mp_portOffset (plan_masks A core bitMask (sp_bytesPerElement sp) p
                                   (sp_screenBytes sp) idx).
Proof.
  intros H. unfold _PM_begin in H.
  destruct (base (rgbPins core) =? NULL); [discriminate |].
  destruct (scan_pins A core) as [[bitMask |] | |] eqn:Hscan;
    cbn [bind] in H; try discriminate.
  destruct (rgb_indices core) as [idx | |] eqn:Hidx;
    cbn [bind] in H; try discriminate.
  destruct (plan_screen A core bitMask) as [sp | |] eqn:Hsp;
    cbn [bind] in H; try discriminate.
  cbv zeta in H.
  destruct (_PM_ALLOCATOR h (u32 (sp_screenBytes sp + sp_rgbMaskBytes sp)))
    as [p h1] eqn:Halloc.
  destruct (Z.eqb_spec p NULL) as [Hp | Hp]; [discriminate |].
  destruct (remap_tables A (numPlanes core)) as [tables | |] eqn:Htab;
    cbn [bind] in H; try discriminate.
  destruct (min_period A (sp_numRowPairs sp) (numPlanes core)) as [minP | |]
    eqn:Hmin; cbn [bind] in H; try discriminate.
  destruct (shl_int 1 (numAddressLines core)) as [full | |];
    cbn [bind] in H; try discriminate.
  unfold _PM_resume in H.
  injection H as Hcore Hh Htr. subst core' h1.
  exists bitMask, idx, sp, p.
  cbn. repeat split; try reflexivity; assumption.
Qed.

(** The union of the masks has every bit of every pin it was built from. *)
Lemma bitMask_of_pins_covers (A : Arch) (core : Protomatter_core)
    (idx : list Z) (bitMask : Z) :
  bitMask_of_pins A core idx = Some bitMask ->
  (forall i b, In i idx ->
     Z.testbit (u32 (_PM_portBitMask A (get 0 (rgbPins core) i))) b = true ->
     Z.testbit bitMask b = true)
  /\ (has_toggle A = true ->
      forall b, Z.testbit (u32 (_PM_portBitMask A (clockPin core))) b = true ->
                Z.testbit bitMask b = true).
Proof.
  unfold bitMask_of_pins. intros H.
  assert (G : forall acc,
             fold_left
               (fun acc i =>
                  match acc with
                  | None => None
                  | Some bitMask =>
                    let pin := get 0 (rgbPins core) i in
                    if _PM_portOutRegister A pin
                       =? _PM_portOutRegister A (clockPin core)
                    then Some (Z.lor bitMask (u32 (_PM_portBitMask A pin)))
                    else None
                  end) idx (Some acc) = Some bitMask ->
             (forall b, Z.testbit acc b = true -> Z.testbit bitMask b = true)
             /\ (forall i b, In i idx ->
                   Z.testbit (u32 (_PM_portBitMask A (get 0 (rgbPins core) i))) b
                   = true ->
                   Z.testbit bitMask b = true)).
  { clear H. induction idx as [| i idx IH]; intros acc H; cbn [fold_left] in H.
    - injection H as <-. split; [auto | intros i b []].
    - cbv zeta in H.
      destruct (_PM_portOutRegister A (get 0 (rgbPins core) i)
                =? _PM_portOutRegister A (clockPin core)).
      + destruct (IH _ H) as [Hacc Hrest]. split.
        * intros b Hb. apply Hacc. rewrite Z.lor_spec, Hb. reflexivity.
        * intros j b [<- | Hj] Hb.
          -- apply Hacc. rewrite Z.lor_spec, Hb. apply orb_true_r.
          -- apply (Hrest j b Hj Hb).
      + rewrite bitMask_of_pins_fold_none in H. discriminate. }
  destruct (G _ H) as [Hacc Hpins]. split; [exact Hpins |].
  intros Htog b Hb. apply Hacc. rewrite Htog. exact Hb.
Qed.

Lemma width_one_octet (m : Z) :
  0 <= m < 2 ^ 32 -> bytesPerElement_of (byteMask_of m) = 1 ->
  single_octet m.
Proof.
  intros Hm. rewrite bytesPerElement_of_touched.
  destruct (touched m 3) eqn:T3, (touched m 2) eqn:T2,
           (touched m 1) eqn:T1, (touched m 0) eqn:T0;
    try discriminate; intros _;
    [exists 3 | exists 2 | exists 1 | exists 0];
    (split; [lia |]); apply within_of_touched; try exact Hm;
    intros k Hk Ht;
    assert (C : k = 0 \/ k = 1 \/ k = 2 \/ k = 3) by lia;
    destruct C as [-> | [-> | [-> | ->]]]; try congruence; lia.
Qed.

Lemma width_two_halfword (m : Z) :
  0 <= m < 2 ^ 32 -> bytesPerElement_of (byteMask_of m) = 2 ->
  single_halfword m.
Proof.
  intros Hm. rewrite bytesPerElement_of_touched.
  destruct (touched m 3) eqn:T3, (touched m 2) eqn:T2,
           (touched m 1) eqn:T1, (touched m 0) eqn:T0;
    try discriminate; intros _; [right | left];
    apply within_of_touched; try exact Hm;
    intros k Hk Ht;
    assert (C : k = 0 \/ k = 1 \/ k = 2 \/ k = 3) by lia;
    destruct C as [-> | [-> | [-> | ->]]]; try congruence; lia.
Qed.

(** A mask with all its bits in element [k] of width [w] survives being
    shifted down, cut to [w] bits and shifted up again. *)
Lemma narrow_round_trip (w k p : Z) :
  0 < w -> 0 <= k -> bits_within (w * k) (w * k + w) p ->
  Z.shiftl (Z.shiftr p (k * w) mod 2 ^ w) (k * w) = p.
Proof.
  intros Hw Hk Hin. apply Z.bits_inj'. intros j Hj.
  assert (Hout : ~ w * k <= j < w * k + w -> Z.testbit p j = false).
  { intros Hn. destruct (Z.testbit p j) eqn:E; [| reflexivity].
    exfalso. apply Hn, Hin, E. }
  destruct (Z.lt_ge_cases j (k * w)) as [Hlo | Hlo].
  - rewrite Z.shiftl_spec_low by exact Hlo. symmetry. apply Hout. lia.
  - rewrite Z.shiftl_spec by exact Hj.
    destruct (Z.lt_ge_cases (j - k * w) w) as [Hhi | Hhi].
    + rewrite Z.mod_pow2_bits_low by lia.
      rewrite Z.shiftr_spec by lia. f_equal. lia.
    + rewrite Z.mod_pow2_bits_high by lia. symmetry. apply Hout. lia.
Qed.

Lemma shift_round_trip (s p : Z) :
  0 <= s -> (forall j, Z.testbit p j = true -> s <= j) ->
  Z.shiftl (Z.shiftr p s) s = p.
Proof.
  intros Hs Hin. apply Z.bits_inj'. intros j Hj.
  destruct (Z.lt_ge_cases j s) as [Hlo | Hlo].
  - rewrite Z.shiftl_spec_low by exact Hlo.
    destruct (Z.testbit p j) eqn:E; [| reflexivity].
    apply Hin in E. lia.
  - rewrite Z.shiftl_spec, Z.shiftr_spec by lia. f_equal. lia.
Qed.

(** The element of the port that holds every bit of the mask is the one
    the first pin is in. *)
Lemma element_of_first_pin (w k o m p : Z) :
  0 < w -> p <> 0 -> 0 <= p ->
  bits_within (w * k) (w * k + w) m ->
  (forall b, Z.testbit p b = true -> Z.testbit m b = true) ->
  bits_within (w * o) (w * o + w) p ->
  o = k.
Proof.
  intros Hw Hnz Hp Hm Hsub Ho.
  destruct (Z.eq_dec o k) as [E | E]; [exact E | exfalso].
  apply Hnz. apply Z.bits_inj'. intros b Hb. rewrite Z.bits_0.
  destruct (Z.testbit p b) eqn:Eb; [| reflexivity].
  pose proof (Ho b Eb). pose proof (Hm b (Hsub b Eb)). nia.
Qed.

(** The mask table loses no pin: the entry of RGB pin [i], moved back to
    the place of the element in the 32-bit port, is the bit mask of the
    pin; so is the clock mask where it is held narrowed.  The place is
    taken from the first RGB pin, whose byte and word offsets must be
    those of the byte and of the word that hold its bit. *)
Theorem begin_mask_table_exact (A : Arch) (core core' : Protomatter_core)
    (h h' : heap) (tr : list event) :
  _PM_begin A (Some core) h = Ret (PROTOMATTER_OK, Some core', h', tr) ->
  let pin0 := get 0 (rgbPins core) 0 in
  let shift := portOffset core' * (8 * bytesPerElement core') in
  0 < parallel core ->
  u32 (_PM_portBitMask A pin0) <> 0 ->
  bits_within (8 * _PM_byteOffset A pin0) (8 * _PM_byteOffset A pin0 + 8)
              (u32 (_PM_portBitMask A pin0)) ->
  bits_within (16 * _PM_wordOffset A pin0) (16 * _PM_wordOffset A pin0 + 16)
              (u32 (_PM_portBitMask A pin0)) ->
  (forall i, 0 <= i < parallel core * 6 ->
     Z.shiftl (get 0 (rgbMask core') i) shift
     = u32 (_PM_portBitMask A (get 0 (rgbPins core) i)))
  /\ (has_toggle A = true ->
      Z.shiftl (clockMask core')
               (if _PM_STRICT_32BIT_IO A then 0 else shift)
      = u32 (_PM_portBitMask A (clockPin core))).
Proof.
  intros Hbegin pin0 shift Hpar Hnz Hbyte Hword.
  destruct (begin_ok_masks A core core' h h' tr Hbegin)
    as (bitMask & idx & sp & p & Hscan & Hidx & Hsp & Hbpe & Hmask & Hclock
        & Hoff).
  destruct (plan_screen_inv A core bitMask sp Hsp) as (_ & _ & Hw & _).
  pose proof (scan_pins_range A core bitMask Hscan) as Hrange.
  unfold rgb_indices in Hidx. unfold scan_pins, rgb_indices in Hscan.
  destruct (Z.ltb_spec 255 (parallel core * 6)) as [Hbig | Hsmall];
    [discriminate |].
  injection Hidx as Hidx. cbn [bind] in Hscan. injection Hscan as Hscan.
  rewrite Hidx in Hscan.
  destruct (bitMask_of_pins_covers A core idx bitMask Hscan)
    as [Hpins Hclk].
  assert (Hin : forall i, 0 <= i < parallel core * 6 -> In i idx).
  { intros i Hi. rewrite <- Hidx. apply in_map_iff.
    exists (Z.to_nat i). split; [lia | apply in_seq; lia]. }
  assert (Hnth : forall (f : Z -> Z) i,
             0 <= i < parallel core * 6 ->
             nth (Z.to_nat i) (map f idx) 0 = f i).
  { intros f i Hi. rewrite <- Hidx.
    rewrite (nth_map_in f _ 0) by (rewrite length_map, length_seq; lia).
    rewrite (nth_map_in Z.of_nat _ 0%nat) by (rewrite length_seq; lia).
    rewrite seq_nth by lia. f_equal. lia. }
  assert (Hp0 : forall b, Z.testbit (u32 (_PM_portBitMask A pin0)) b = true ->
                          Z.testbit bitMask b = true)
    by (intros b; apply Hpins, Hin; lia).
  pose proof (u32_range (_PM_portBitMask A pin0)) as Hr0.
  unfold shift, get. rewrite Hmask, Hclock, Hoff, Hbpe, Hw.
  unfold plan_masks.
  destruct (bytesPerElement_of_values (byteMask_of bitMask))
    as [E | [E | E]]; rewrite E; cbn [Z.eqb Pos.eqb].
  - (* one byte *)
    destruct (width_one_octet bitMask Hrange E) as (k & Hk & Hoct).
    assert (Ek : _PM_byteOffset A pin0 = k)
      by (apply (element_of_first_pin 8 k _ bitMask
                   (u32 (_PM_portBitMask A pin0))); try assumption; lia).
    fold pin0. rewrite Ek, (u8_small k) by lia. cbn [mp_rgbMask mp_clockMask
      mp_portOffset].
    replace (k * (8 * 1)) with (k * 8) by lia.
    split.
    + intros i Hi. rewrite (Hnth _ i Hi). unfold u8.
      apply (narrow_round_trip 8 k); [lia | lia |].
      intros b Hb. apply Hoct, (Hpins i b (Hin i Hi) Hb).
    + intros Htog. rewrite Htog. cbn [andb].
      destruct (_PM_STRICT_32BIT_IO A); cbn [negb];
        [apply Z.shiftl_0_r |].
      apply shift_round_trip; [lia |].
      intros j Hj. pose proof (Hoct j (Hclk Htog j Hj)). lia.
  - (* two bytes *)
    assert (Hhalf : exists k, 0 <= k < 2
                              /\ bits_within (16 * k) (16 * k + 16) bitMask).
    { destruct (width_two_halfword bitMask Hrange E) as [H0 | H1];
        [exists 0 | exists 1]; (split; [lia | assumption]). }
    destruct Hhalf as (k & Hk & Hhw).
    assert (Ek : _PM_wordOffset A pin0 = k)
      by (apply (element_of_first_pin 16 k _ bitMask
                   (u32 (_PM_portBitMask A pin0))); try assumption; lia).
    fold pin0. rewrite Ek, (u8_small k) by lia. cbn [mp_rgbMask mp_clockMask
      mp_portOffset].
    replace (k * (8 * 2)) with (k * 16) by lia.
    split.
    + intros i Hi. rewrite (Hnth _ i Hi). unfold u16.
      apply (narrow_round_trip 16 k); [lia | lia |].
      intros b Hb. apply Hhw, (Hpins i b (Hin i Hi) Hb).
    + intros Htog. rewrite Htog. cbn [andb].
      destruct (_PM_STRICT_32BIT_IO A); cbn [negb];
        [apply Z.shiftl_0_r |].
      apply shift_round_trip; [lia |].
      intros j Hj. pose proof (Hhw j (Hclk Htog j Hj)). lia.
  - (* four bytes *)
    cbn [mp_rgbMask mp_clockMask mp_portOffset]. split.
    + intros i Hi. rewrite (Hnth _ i Hi). apply Z.shiftl_0_r.
    + intros Htog. destruct (_PM_STRICT_32BIT_IO A); apply Z.shiftl_0_r.
Qed.

Lemma begin_mask_table_exact_witness :
  Z.shiftl (get 0 (rgbMask sample_core) 3)
           (portOffset sample_core * (8 * bytesPerElement sample_core)) = 8
  /\ clockMask sample_core = 64.
Proof.
  assert (Hbegin :
            _PM_begin (sample_arch true)
                      (Some (fst (initialised true 64 4 4 6 false)))
                      (snd (initialised true 64 4 4 6 false))
            = Ret (PROTOMATTER_OK, Some sample_core,
                   started_heap true 64 4 4 6 false,
                   started_trace true 64 4 4 6 false))
    by (vm_compute; reflexivity).
  assert (Hone : bits_within 0 8 1 /\ bits_within 0 16 1).
  { split; intros i Hi; change 1 with (2 ^ 0) in Hi;
      rewrite Z.pow2_bits_eqb in Hi by lia; apply Z.eqb_eq in Hi; lia. }
  destruct (begin_mask_table_exact _ _ _ _ _ _ Hbegin
              ltac:(closed_facts) ltac:(closed_facts)
              (proj1 Hone) (proj2 Hone)) as [Hpins Hclock].
  split.
  - apply (Hpins 3). closed_facts.
  - specialize (Hclock eq_refl). cbn [sample_arch _PM_STRICT_32BIT_IO] in Hclock.
    rewrite <- (Z.shiftl_0_r (clockMask sample_core)). exact Hclock.
Defined.
